(** * Prescriptive analytics over the insurance dataset: the six PuLP models

    A shallow embedding of [main.py].  The script loads a table of insurance
    records with pandas, and builds, solves and reports six linear /
    mixed-integer models with PuLP.

    Conventions of the embedding.
    - In the models and their meaning (module [Pulp], and the script)
      numbers are exact rationals ([Q]); a decimal literal of the script
      ([0.3], [0.15], ...) stands for the rational it denotes.  This is the
      linear program the script writes down.  Where the rounding of Python
      floats decides a property (whether the order of a sum matters), module
      [Float64] has the same expression algebra over binary64 numbers.
    - A pandas [DataFrame] is a row count together with a finite map from
      column names to columns; reading an absent column raises [KeyError].
    - A PuLP affine expression is an insertion-ordered dictionary from
      variables to coefficients plus a constant; a constraint is stored as
      [expression (<= | >= | ==) 0]; a problem is an objective, a sense and
      the ordered list of its constraints.
    - The numeric solver is an external collaborator.  Where the script calls
      [solve()], the embedding runs what [LpProblem.solve] does around the
      solver ([LpProblem_solve]) and takes the solver itself as a function
      from problems to results; its contract is the relation [solves]. *)

From Stdlib Require Import Floats.
From Stdlib Require Import QArith Lqa Lia ZArith List Ascii String.
From stdpp Require Import gmap strings pretty.

Local Open Scope Q_scope.

(* Decimal literals of binary64 numbers denote the nearest binary64 value,
   as in Python. *)
Set Warnings "-inexact-float".

(** ** Python exceptions and the error monad *)

Inductive Exn : Type :=
| KeyError (key : string)
| TypeError.

Inductive result (A : Type) : Type :=
| Ok (a : A)
| Raise (e : Exn).
Arguments Ok {A} a.
Arguments Raise {A} e.

#[global] Instance result_ret : MRet result := fun A a => Ok a.
#[global] Instance result_bind : MBind result := fun A B f r =>
  match r with
  | Ok a => f a
  | Raise e => Raise e
  end.

Fixpoint mapM {A B} (f : A -> result B) (l : list A) : result (list B) :=
  match l with
  | [] => Ok []
  | a :: l' => b ← f a; bs ← mapM f l'; Ok (b :: bs)
  end.

(** ** PuLP: variables, affine expressions, constraints, problems *)

Module Pulp.

Inductive LpCategory : Type := LpContinuous | LpInteger | LpBinary.

Record LpVariable : Type := mkVar {
  name : string;
  lowBound : option Q;
  upBound : option Q;
  cat : LpCategory
}.

(** [LpVariable(name, lowBound, upBound, cat)].  The constructor never
    raises; for the category Binary it overrides whatever bounds were passed
    with 0 and 1 and stores the variable as an Integer one. *)
Definition LpVariable_init (n : string) (lb ub : option Q) (c : LpCategory)
  : LpVariable :=
  match c with
  | LpBinary => mkVar n (Some 0) (Some 1) LpInteger
  | _ => mkVar n lb ub c
  end.

(** [LpVariable.dicts(name, indices, lowBound, upBound, cat)]: one variable
    per index, named [name_index], returned as a dictionary from index to
    variable (in index order). *)
Definition dicts {I : Type} (show : I -> string) (n : string) (indices : list I)
    (lb ub : option Q) (c : LpCategory) : list (I * LpVariable) :=
  map (fun i => (i, LpVariable_init (n +:+ "_" +:+ show i) lb ub c)) indices.

(** An affine expression: the ordered dictionary of its terms and a
    constant.  The dictionary's key is the variable object; variables of one
    problem have distinct names, and the key is compared by name. *)
Record LpAffineExpression : Type := mkExpr {
  terms : list (LpVariable * Q);
  constant : Q
}.

Definition empty_expr : LpAffineExpression := mkExpr [] 0.

(** [LpAffineExpression(v)] for a variable [v]. *)
Definition of_var (v : LpVariable) : LpAffineExpression := mkExpr [(v, 1)] 0.

(** [addterm(key, value)]: add to the coefficient of a key already present,
    append a new key at the end.  The coefficients are added as rationals
    here; [Float64.addterm] is the same function with the binary64 addition
    that Python performs on floats. *)
Fixpoint addterm (v : LpVariable) (c : Q) (ts : list (LpVariable * Q))
  : list (LpVariable * Q) :=
  match ts with
  | [] => [(v, c)]
  | (v', c') :: ts' =>
      if String.eqb (name v') (name v) then (v', c' + c) :: ts'
      else (v', c') :: addterm v c ts'
  end.

Definition addterms (ts other : list (LpVariable * Q)) : list (LpVariable * Q) :=
  fold_left (fun acc t => addterm (fst t) (snd t) acc) other ts.

(** [e.addInPlace(other)], which is also [e + other]. *)
Definition addInPlace (e other : LpAffineExpression) : LpAffineExpression :=
  mkExpr (addterms (terms e) (terms other)) (constant e + constant other).

(** [e.subInPlace(other)], which is also [e - other]. *)
Definition subInPlace (e other : LpAffineExpression) : LpAffineExpression :=
  mkExpr (addterms (terms e) (map (fun t => (fst t, - snd t)) (terms other)))
         (constant e - constant other).

(** [e - c] for a number [c]. *)
Definition sub_const (e : LpAffineExpression) (c : Q) : LpAffineExpression :=
  mkExpr (terms e) (constant e - c).

(** [lpSum(vector)]: [LpAffineExpression().addInPlace(vector)]. *)
Definition lpSum (vector : list LpAffineExpression) : LpAffineExpression :=
  fold_left addInPlace vector empty_expr.

(** [e * k] and [k * e] for a number [k]: the result is the empty expression
    when [k] is zero. *)
Definition mul (e : LpAffineExpression) (k : Q) : LpAffineExpression :=
  if Qeq_bool k 0 then empty_expr
  else mkExpr (map (fun t => (fst t, k * snd t)) (terms e)) (constant e * k).

(** [e / k] for a number [k]. *)
Definition div (e : LpAffineExpression) (k : Q) : LpAffineExpression :=
  mkExpr (map (fun t => (fst t, snd t / k)) (terms e)) (constant e / k).

Inductive LpConstraintSense : Type := LpConstraintLE | LpConstraintGE | LpConstraintEQ.

(** A constraint [expr sense 0]. *)
Record LpConstraint : Type := mkConstraint {
  expr : LpAffineExpression;
  csense : LpConstraintSense
}.

(** [lhs <= rhs], [lhs >= rhs], [lhs == rhs] between expressions, and with
    a number on the right. *)
Definition le (lhs rhs : LpAffineExpression) : LpConstraint :=
  mkConstraint (subInPlace lhs rhs) LpConstraintLE.
Definition ge (lhs rhs : LpAffineExpression) : LpConstraint :=
  mkConstraint (subInPlace lhs rhs) LpConstraintGE.
Definition le_const (lhs : LpAffineExpression) (rhs : Q) : LpConstraint :=
  mkConstraint (sub_const lhs rhs) LpConstraintLE.
Definition ge_const (lhs : LpAffineExpression) (rhs : Q) : LpConstraint :=
  mkConstraint (sub_const lhs rhs) LpConstraintGE.
Definition eq_const (lhs : LpAffineExpression) (rhs : Q) : LpConstraint :=
  mkConstraint (sub_const lhs rhs) LpConstraintEQ.

Inductive LpSense : Type := LpMinimize | LpMaximize.

Record LpProblem : Type := mkProblem {
  pname : string;
  sense : LpSense;
  objective : LpAffineExpression;
  constraints : list LpConstraint
}.

(** The variables of a problem are those of its objective and constraints. *)
Definition variables (p : LpProblem) : list LpVariable :=
  map fst (terms (objective p))
  ++ flat_map (fun c => map fst (terms (expr c))) (constraints p).

(** *** Meaning of a problem *)

(** An assignment gives a number to every variable name. *)
Definition Assignment : Type := string -> Q.

Definition eval (a : Assignment) (e : LpAffineExpression) : Q :=
  fold_right (fun t s => snd t * a (name (fst t)) + s) (constant e) (terms e).

Definition holds (a : Assignment) (c : LpConstraint) : Prop :=
  match csense c with
  | LpConstraintLE => eval a (expr c) <= 0
  | LpConstraintGE => 0 <= eval a (expr c)
  | LpConstraintEQ => eval a (expr c) == 0
  end.

Definition is_integer (q : Q) : Prop := exists z : Z, q == inject_Z z.

(** A value is in the domain of a variable when it respects the bounds that
    are set and is whole for a variable that is not Continuous. *)
Definition in_domain (a : Assignment) (v : LpVariable) : Prop :=
  (forall l, lowBound v = Some l -> l <= a (name v)) /\
  (forall u, upBound v = Some u -> a (name v) <= u) /\
  (cat v <> LpContinuous -> is_integer (a (name v))).

Definition feasible (p : LpProblem) (a : Assignment) : Prop :=
  Forall (in_domain a) (variables p) /\ Forall (holds a) (constraints p).

(** The same, as a test that runs. *)
Definition holdsb (a : Assignment) (c : LpConstraint) : bool :=
  match csense c with
  | LpConstraintLE => Qle_bool (eval a (expr c)) 0
  | LpConstraintGE => Qle_bool 0 (eval a (expr c))
  | LpConstraintEQ => Qeq_bool (eval a (expr c)) 0
  end.

Definition is_integerb (q : Q) : bool :=
  (Qnum q mod Zpos (Qden q) =? 0)%Z.

Definition in_domainb (a : Assignment) (v : LpVariable) : bool :=
  match lowBound v with Some l => Qle_bool l (a (name v)) | None => true end
  && match upBound v with Some u => Qle_bool (a (name v)) u | None => true end
  && match cat v with LpContinuous => true | _ => is_integerb (a (name v)) end.

Definition feasibleb (p : LpProblem) (a : Assignment) : bool :=
  forallb (in_domainb a) (variables p) && forallb (holdsb a) (constraints p).

(** [better s u v]: objective value [u] is at least as good as [v]. *)
Definition better (s : LpSense) (u v : Q) : Prop :=
  match s with
  | LpMinimize => u <= v
  | LpMaximize => v <= u
  end.

Definition optimal (p : LpProblem) (a : Assignment) : Prop :=
  feasible p a /\
  forall b, feasible p b ->
    better (sense p) (eval a (objective p)) (eval b (objective p)).

(** *** Results of a solve *)

Inductive LpStatus : Type :=
| LpStatusOptimal | LpStatusNotSolved | LpStatusInfeasible | LpStatusUnbounded.

(** What [solve()] leaves behind: the status, and the value of each variable
    (absent when the solver assigned none). *)
Record Result : Type := mkResult {
  status : LpStatus;
  varValue : gmap string Q
}.

(** [v.value()]. *)
Definition value_var (r : Result) (v : LpVariable) : option Q :=
  varValue r !! name v.

(** [pulp.value(e)]: [None] as soon as a variable has no value. *)
Definition value (r : Result) (e : LpAffineExpression) : option Q :=
  fold_left (fun s t => match s, value_var r (fst t) with
                        | Some s', Some x => Some (s' + x * snd t)
                        | _, _ => None
                        end)
            (terms e) (Some (constant e)).

Definition assignment_of (r : Result) : Assignment :=
  fun n => default 0 (varValue r !! n).

(** *** [LpProblem.solve]

    [solve()] hands the problem to the external solver by writing it out,
    and stores the values the solver returns on the variables.  Around the
    writing, an objective without variables is given the variable [__dummy]
    and has it subtracted again, and the value of [__dummy] is never
    stored. *)

(** [get_dummyVar()]: [LpVariable("__dummy", 0, 0)]. *)
Definition get_dummyVar : LpVariable :=
  LpVariable_init "__dummy" (Some 0) (Some 0) LpContinuous.

(** [e.isNumericalConstant()]: the expression has no term. *)
Definition isNumericalConstant (e : LpAffineExpression) : bool :=
  match terms e with
  | [] => true
  | _ :: _ => false
  end.

(** [fixObjective()]: [self.objective += dummyVar] when the objective is a
    numerical constant; adding a variable is [addterm(dummyVar, 1)].  The
    dummy variable is returned when it was added. *)
Definition fixObjective (p : LpProblem) : LpProblem * option LpVariable :=
  if isNumericalConstant (objective p) then
    (mkProblem (pname p) (sense p)
       (mkExpr (addterm get_dummyVar 1 (terms (objective p))) (constant (objective p)))
       (constraints p),
     Some get_dummyVar)
  else (p, None).

(** [restoreObjective(wasNone, dummyVar)]: [self.objective -= dummyVar],
    which is [addterm(dummyVar, -1)]: the key [__dummy] stays in the
    objective, with coefficient [1 - 1]. *)
Definition restoreObjective (p : LpProblem) (dummyVar : option LpVariable)
  : LpProblem :=
  match dummyVar with
  | Some d =>
      mkProblem (pname p) (sense p)
        (mkExpr (addterm d (-1) (terms (objective p))) (constant (objective p)))
        (constraints p)
  | None => p
  end.

(** [assignVarsVals(values)]: every value the solver returns is stored on
    its variable, except the one named [__dummy]. *)
Definition assignVarsVals (r : Result) : Result :=
  mkResult (status r) (delete "__dummy" (varValue r)).

(** [prob.solve()] with the external solver [solver]: the problem as the
    call leaves it, and the status and values it stores. *)
Definition LpProblem_solve (solver : LpProblem -> Result) (p : LpProblem)
  : LpProblem * Result :=
  let (p1, dummyVar) := fixObjective p in
  let r := assignVarsVals (solver p1) in
  (restoreObjective p1 dummyVar, r).

(** The contract of an exact solver run to completion: [Optimal] comes with
    an optimal assignment, [Infeasible] means that no assignment is feasible,
    [Unbounded] that feasible assignments exist and none is optimal. *)
Inductive solves (p : LpProblem) : Result -> Prop :=
| solves_optimal r :
    status r = LpStatusOptimal ->
    optimal p (assignment_of r) ->
    solves p r
| solves_infeasible r :
    status r = LpStatusInfeasible ->
    (forall a, ~ feasible p a) ->
    solves p r
| solves_unbounded r :
    status r = LpStatusUnbounded ->
    (exists a, feasible p a) ->
    (forall a, ~ optimal p a) ->
    solves p r.

End Pulp.

(** ** PuLP expressions with binary64 coefficients

    The expression algebra of [Pulp] once more, with the coefficients and
    the constant held as binary64 numbers and added with the binary64
    addition, as PuLP does when the script multiplies a variable by a Python
    float.  An empty expression starts from the constant 0. *)

Module Float64.

Record LpAffineExpression : Type := mkExpr {
  terms : list (Pulp.LpVariable * float);
  constant : float
}.

(** [LpAffineExpression()] *)
Definition empty_expr : LpAffineExpression := mkExpr [] 0%float.

(** [LpAffineExpression(v)] for a variable [v]. *)
Definition of_var (v : Pulp.LpVariable) : LpAffineExpression := mkExpr [(v, 1%float)] 0%float.

(** [addterm(key, value)]: [self[key] += value] for a key already present,
    [self[key] = value] for a new one. *)
Fixpoint addterm (v : Pulp.LpVariable) (c : float) (ts : list (Pulp.LpVariable * float))
  : list (Pulp.LpVariable * float) :=
  match ts with
  | [] => [(v, c)]
  | (v', c') :: ts' =>
      if String.eqb (Pulp.name v') (Pulp.name v) then (v', (c' + c)%float) :: ts'
      else (v', c') :: addterm v c ts'
  end.

Definition addterms (ts other : list (Pulp.LpVariable * float)) : list (Pulp.LpVariable * float) :=
  fold_left (fun acc t => addterm (fst t) (snd t) acc) other ts.

(** [e.addInPlace(other)]: [self.constant += other.constant], then
    [addterm] for each term of [other]. *)
Definition addInPlace (e other : LpAffineExpression) : LpAffineExpression :=
  mkExpr (addterms (terms e) (terms other)) (constant e + constant other)%float.

(** [lpSum(vector)]: [LpAffineExpression().addInPlace(vector)]. *)
Definition lpSum (vector : list LpAffineExpression) : LpAffineExpression :=
  fold_left addInPlace vector empty_expr.

(** [e * k] and [k * e] for a number [k]. *)
Definition mul (e : LpAffineExpression) (k : float) : LpAffineExpression :=
  if (k =? 0)%float then empty_expr
  else mkExpr (map (fun t => (fst t, (k * snd t)%float)) (terms e)) (constant e * k)%float.

(** The keys of the dictionary, as names. *)
Definition names (e : LpAffineExpression) : list string :=
  map (fun t => Pulp.name (fst t)) (terms e).

(** [e[v]] for the variable named [n], when the key is present. *)
Fixpoint get (ts : list (Pulp.LpVariable * float)) (n : string) : option float :=
  match ts with
  | [] => None
  | (v, c) :: ts' => if String.eqb (Pulp.name v) n then Some c else get ts' n
  end.

Definition coefficient (e : LpAffineExpression) (n : string) : option float :=
  get (terms e) n.

(** Two expressions are the same dictionary when every key holds the
    identical binary64 coefficient in both (or is absent from both) and the
    constants are identical; identical is bit for bit, a NaN being
    identical to a NaN. *)
Definition same_form (e1 e2 : LpAffineExpression) : Prop :=
  (forall n, coefficient e1 n = coefficient e2 n) /\ constant e1 = constant e2.

End Float64.

(** ** pandas: the table of records *)

Module Pandas.

(** A column holds numbers, strings, or the labels of [pd.cut] (absent for a
    value outside every bin).  Cells of the input table are never missing. *)
Inductive Column : Type :=
| NumCol (l : list Q)
| StrCol (l : list string)
| CatCol (l : list (option string)).

Record DataFrame : Type := mkDF {
  nrows : nat;
  columns : gmap string Column
}.

(** [df[c]] *)
Definition getitem (df : DataFrame) (c : string) : result Column :=
  match columns df !! c with
  | Some col => Ok col
  | None => Raise (KeyError c)
  end.

(** [df[c] = col] *)
Definition setitem (df : DataFrame) (c : string) (col : Column) : DataFrame :=
  mkDF (nrows df) (<[c := col]> (columns df)).

(** [df[c] = q] for a number [q]: the column is filled with it. *)
Definition setitem_scalar (df : DataFrame) (c : string) (q : Q) : DataFrame :=
  setitem df c (NumCol (replicate (nrows df) q)).

(** [list(df.index)] of a table read from a file: [0 .. nrows-1]. *)
Definition index (df : DataFrame) : list nat := seq 0 (nrows df).

Definition numeric (col : Column) : result (list Q) :=
  match col with
  | NumCol l => Ok l
  | _ => Raise TypeError
  end.

(** [df.loc[i, c]] on the values of column [c]. *)
Definition loc {A} (l : list A) (i : nat) : result A :=
  match l !! i with
  | Some v => Ok v
  | None => Raise (KeyError (pretty i))
  end.

Definition sum (l : list Q) : Q := fold_right Qplus 0 l.

Definition mean (l : list Q) : Q := sum l / inject_Z (Z.of_nat (length l)).

(** [col > k] and [col < k], element by element. *)
Definition gt (col : Column) (k : Q) : result (list bool) :=
  l ← numeric col; Ok (map (fun q => negb (Qle_bool q k)) l).

(** [col == s], element by element; a number equals no string. *)
Definition eq_str (col : Column) (s : string) : list bool :=
  match col with
  | StrCol l => map (fun t => String.eqb t s) l
  | NumCol l => map (fun _ => false) l
  | CatCol l => map (fun o => match o with Some t => String.eqb t s | None => false end) l
  end.

(** [(m1 | m2).astype(int)] *)
Definition or_astype_int (m1 m2 : list bool) : Column :=
  NumCol (map (fun b => if orb (fst b) (snd b) then 1 else 0) (zip m1 m2)).

(** [s.unique()]: the distinct values in order of first appearance. *)
Fixpoint unique_from (seen : list string) (l : list string) : list string :=
  match l with
  | [] => []
  | s :: l' =>
      if bool_decide (s ∈ seen) then unique_from seen l'
      else s :: unique_from (s :: seen) l'
  end.

Definition unique (l : list string) : list string := unique_from [] l.

(** [s.dropna()] *)
Definition dropna (l : list (option string)) : list string := omap id l.

(** The values of [vals] on the rows whose key is [k]. *)
Definition group (keys : list (option string)) (vals : list Q) (k : string) : list Q :=
  map snd (filter (fun kv => fst kv = Some k) (zip keys vals)).

(** [df.groupby(key)[val].mean().to_dict()]: one entry per key that occurs. *)
Definition groupby_mean (keys : list (option string)) (vals : list Q) : gmap string Q :=
  list_to_map (map (fun k => (k, mean (group keys vals k))) (unique (dropna keys))).

(** [pd.cut(s, bins=[0, 30, 50, 100], labels=[l1, l2, l3])]: the bins are
    open on the left and closed on the right. *)
Definition cut3 (l1 l2 l3 : string) (q : Q) : option string :=
  if Qle_bool q 0 then None
  else if Qle_bool q 30 then Some l1
  else if Qle_bool q 50 then Some l2
  else if Qle_bool q 100 then Some l3
  else None.

(** [s.value_counts().to_dict()] of a categorical column: every category
    has an entry, also those that do not occur. *)
Definition value_counts (cats : list string) (l : list (option string)) : gmap string Q :=
  list_to_map
    (map (fun c => (c, inject_Z (Z.of_nat (length (filter (fun o => o = Some c) l))))) cats).

(** [d[k]] of a Python dictionary. *)
Definition dict_get (d : gmap string Q) (k : string) : result Q :=
  match d !! k with
  | Some v => Ok v
  | None => Raise (KeyError k)
  end.

End Pandas.

(** ** Printed reports *)

(** A printed line is a sequence of literal text and formatted values:
    [Int z] is an integer printed as such, [Fmt spec q] a number printed
    with the format specification [spec], [IntList l] a list of integers. *)
Inductive Frag : Type :=
| Text (s : string)
| Int (z : Z)
| Fmt (spec : string) (q : Q)
| IntList (l : list nat).

Definition Line : Type := list Frag.

(** Output printed so far, and how the computation ended. *)
Record Out (A : Type) : Type := mkOut {
  printed : list Line;
  outcome : result A
}.
Arguments mkOut {A} printed outcome.
Arguments printed {A} o.
Arguments outcome {A} o.

#[global] Instance out_ret : MRet Out := fun A a => mkOut [] (Ok a).
#[global] Instance out_bind : MBind Out := fun A B f m =>
  match outcome m with
  | Ok a => let o := f a in mkOut (printed m ++ printed o) (outcome o)
  | Raise e => mkOut (printed m) (Raise e)
  end.

Definition print (l : Line) : Out unit := mkOut [l] (Ok tt).
Definition lift {A} (r : result A) : Out A := mkOut [] r.

(** [for a in l: body a] *)
Fixpoint for_each {A} (l : list A) (body : A -> Out unit) : Out unit :=
  match l with
  | [] => mret tt
  | a :: l' => _ ← body a; for_each l' body
  end.

(** [int(v)] of a value that may be [None]. *)
Definition int (v : option Q) : result Z :=
  match v with
  | Some q => Ok (Z.quot (Qnum q) (Zpos (Qden q)))
  | None => Raise TypeError
  end.

(** Formatting a value that may be [None] with a format specification. *)
Definition fmt (spec : string) (v : option Q) : result Frag :=
  match v with
  | Some q => Ok (Fmt spec q)
  | None => Raise TypeError
  end.

(** [v == 1] for a value that may be [None]. *)
Definition is_one (v : option Q) : bool :=
  match v with
  | Some q => Qeq_bool q 1
  | None => false
  end.

Import Pulp Pandas.

Definition nl : string := String "010"%char EmptyString.

Fixpoint repeat_str (s : string) (n : nat) : string :=
  match n with
  | O => EmptyString
  | S n' => s +:+ repeat_str s n'
  end.

(** [print("\n" + "="*80 + "\n")] *)
Definition separator : Line := [Text (nl +:+ repeat_str "=" 80 +:+ nl)].

(** [df.loc[i, c]] for a numeric column. *)
Definition loc_num (df : DataFrame) (i : nat) (c : string) : result Q :=
  col ← getitem df c; l ← numeric col; loc l i.

Definition strings_of (col : Column) : result (list string) :=
  match col with
  | StrCol l => Ok l
  | _ => Raise TypeError
  end.

Definition categories_of (col : Column) : result (list (option string)) :=
  match col with
  | CatCol l => Ok l
  | _ => Raise TypeError
  end.

(** ** The script *)

Section Script.

(** The external solver that [prob.solve()] runs. *)
Variable solve : LpProblem -> Result.

(** After [prob.solve()]: the problem as the call leaves it (what
    [prob.objective] then reads) and the values stored on the variables
    (what [v.value()] and [pulp.value] then read). *)
Definition solved (p : LpProblem) : LpProblem := fst (LpProblem_solve solve p).
Definition solution (p : LpProblem) : Result := snd (LpProblem_solve solve p).

(** The pseudo-random generator of [random]: [random.seed(n)] sets its
    state, [random.uniform(a, b)] draws a number and advances the state. *)
Variable RngState : Type.
Variable seed : Z -> RngState.
Variable uniform : Q -> Q -> RngState -> Q * RngState.

(** [v ** 0.5] *)
Variable sqrt : Q -> Q.

(** *** Consulta 1: client selection *)

Definition clientes (df : DataFrame) : list nat := index df.

(** [x = pulp.LpVariable.dicts("x", clientes, lowBound=0, upBound=1,
    cat="Binary")], as the function from index to variable. *)
Definition x (i : nat) : LpVariable :=
  LpVariable_init ("x_" +:+ pretty i) (Some 0) (Some 1) LpBinary.

(** Lines 18-19: the derived columns. *)
Definition derive1 (df : DataFrame) : result DataFrame :=
  let df := setitem_scalar df "receita" 5000 in
  charges ← getitem df "charges";
  Ok (setitem df "custo" charges).

(** Lines 22-31, on the table with its derived columns. *)
Definition prob (df : DataFrame) : result LpProblem :=
  receitas ← mapM (fun i => r ← loc_num df i "receita"; Ok (mul (of_var (x i)) r))
                  (clientes df);
  custos ← mapM (fun i => c ← loc_num df i "custo"; Ok (mul (of_var (x i)) c))
                (clientes df);
  Ok (mkProblem "SelecaoSeguros" LpMaximize
        (lpSum receitas)
        [le (lpSum custos)
            (mul (lpSum (map (fun i => of_var (x i)) (clientes df))) 15000)]).

(** Lines 37-45. *)
Definition report1 (df : DataFrame) (p : LpProblem) (r : Result) : Out unit :=
  let selecionados :=
    List.filter (fun i => is_one (value_var r (x i))) (clientes df) in
  _ ← print [Text "=== CONSULTA 1: SELEÇÃO DE CLIENTES PARA MAXIMIZAR RECEITA ==="];
  _ ← print [Text "Clientes escolhidos: "; Int (Z.of_nat (length selecionados))];
  total ← lift (fmt ",.2f" (value r (objective p)));
  _ ← print [Text "Receita total: $"; total];
  _ ← match selecionados with
      | [] => mret tt
      | _ =>
          custos ← lift (mapM (fun i => loc_num df i "custo") selecionados);
          print [Text "Custo médio dos selecionados: $"; Fmt ",.2f" (mean custos)]
      end;
  print separator.

(** Lines 18-45: derive, build, [prob.solve()] (line 34), report.  The
    report reads the objective and the values as [solve()] left them. *)
Definition consulta1 (df : DataFrame) : Out DataFrame :=
  df ← lift (derive1 df);
  p ← lift (prob df);
  _ ← report1 df (solved p) (solution p);
  mret df.

(** *** Consulta 2: regional portfolio *)

Definition regiao_of_bmi (b : Q) : string :=
  if negb (Qle_bool 25 b) then "Norte"
  else if negb (Qle_bool 30 b) then "Sul"
  else "Centro".

(** Line 52. *)
Definition derive2 (df : DataFrame) : result DataFrame :=
  bmi ← getitem df "bmi";
  l ← numeric bmi;
  Ok (setitem df "regiao" (StrCol (map regiao_of_bmi l))).

(** [regioes = df["regiao"].unique()] *)
Definition regioes (df : DataFrame) : result (list string) :=
  col ← getitem df "regiao"; l ← strings_of col; Ok (unique l).

(** [y = pulp.LpVariable.dicts("clientes_regiao", regioes, lowBound=0,
    cat="Integer")] *)
Definition y (r : string) : LpVariable :=
  LpVariable_init ("clientes_regiao_" +:+ r) (Some 0) None LpInteger.

(** [custos_por_regiao = df.groupby("regiao")["custo"].mean().to_dict()] *)
Definition custos_por_regiao (df : DataFrame) : result (gmap string Q) :=
  col ← getitem df "regiao"; keys ← strings_of col;
  col' ← getitem df "custo"; vals ← numeric col';
  Ok (groupby_mean (map Some keys) vals).

(** [total_clientes = pulp.lpSum(y[r] for r in regioes)] *)
Definition total_clientes (rs : list string) : LpAffineExpression :=
  lpSum (map (fun r => of_var (y r)) rs).

(** Lines 67-76. *)
Definition constraints2 (rs : list string) : list LpConstraint :=
  [ge_const (lpSum (map (fun r => of_var (y r)) rs)) 50]
  ++ map (fun r => le (of_var (y r)) (mul (total_clientes rs) 0.3)) rs
  ++ map (fun r => ge_const (of_var (y r)) 10) rs.

(** Lines 55-76, on the table with its derived columns. *)
Definition prob2 (df : DataFrame) : result LpProblem :=
  rs ← regioes df;
  custos ← custos_por_regiao df;
  obj ← mapM (fun r => c ← dict_get custos r; Ok (mul (of_var (y r)) c)) rs;
  Ok (mkProblem "PortfolioRegiao" LpMinimize (lpSum obj) (constraints2 rs)).

(** Lines 80-85. *)
Definition report2 (rs : list string) (p : LpProblem) (r : Result) : Out unit :=
  _ ← print [Text "=== CONSULTA 2: OTIMIZAÇÃO DE PORTFÓLIO POR REGIÃO ==="];
  _ ← for_each rs (fun g =>
        n ← lift (int (value_var r (y g)));
        print [Text "Clientes da região "; Text g; Text ": "; Int n]);
  total ← lift (fmt ",.2f" (value r (objective p)));
  _ ← print [Text "Custo total estimado: $"; total];
  print separator.

Definition consulta2 (df : DataFrame) : Out DataFrame :=
  df ← lift (derive2 df);
  p ← lift (prob2 df);
  rs ← lift (regioes df);
  _ ← report2 rs (solved p) (solution p);
  mret df.

(** *** Consulta 3: hospital capacity *)

(** Lines 92-94. *)
Definition derive3 (df : DataFrame) : result DataFrame :=
  age ← getitem df "age"; age50 ← gt age 50;
  smoker ← getitem df "smoker";
  let df := setitem df "demanda_emergencia"
              (or_astype_int age50 (eq_str smoker "yes")) in
  bmi ← getitem df "bmi"; bmi35 ← gt bmi 35;
  age' ← getitem df "age"; age60 ← gt age' 60;
  let df := setitem df "demanda_cirurgia" (or_astype_int bmi35 age60) in
  Ok (setitem_scalar df "demanda_consulta" 1).

Definition cap_emergencia : LpVariable :=
  LpVariable_init "cap_emergencia" (Some 0) None LpInteger.
Definition cap_cirurgia : LpVariable :=
  LpVariable_init "cap_cirurgia" (Some 0) None LpInteger.
Definition cap_consulta : LpVariable :=
  LpVariable_init "cap_consulta" (Some 0) None LpInteger.

Definition custo_emergencia : Q := 10000.
Definition custo_cirurgia : Q := 15000.
Definition custo_consulta : Q := 2000.

(** [cap_emergencia * custo_emergencia + cap_cirurgia * custo_cirurgia +
    cap_consulta * custo_consulta] *)
Definition custo_capacidade : LpAffineExpression :=
  addInPlace
    (addInPlace (mul (of_var cap_emergencia) custo_emergencia)
                (mul (of_var cap_cirurgia) custo_cirurgia))
    (mul (of_var cap_consulta) custo_consulta).

(** [df[c].sum()] *)
Definition col_sum (df : DataFrame) (c : string) : result Q :=
  col ← getitem df c; l ← numeric col; Ok (sum l).

(** Lines 97-122, on the table with its derived columns. *)
Definition prob3 (df : DataFrame) : result LpProblem :=
  e ← col_sum df "demanda_emergencia";
  s ← col_sum df "demanda_cirurgia";
  c ← col_sum df "demanda_consulta";
  Ok (mkProblem "CapacidadeHospitalar" LpMinimize custo_capacidade
        [ge_const (of_var cap_emergencia) e;
         ge_const (of_var cap_cirurgia) s;
         ge_const (of_var cap_consulta) c;
         le_const custo_capacidade 2000000]).

(** Lines 126-133. *)
Definition report3 (p : LpProblem) (r : Result) : Out unit :=
  _ ← print [Text "=== CONSULTA 3: PLANEJAMENTO DE CAPACIDADE HOSPITALAR ==="];
  _ ← print [Text "Capacidade recomendada:"];
  e ← lift (int (value_var r cap_emergencia));
  _ ← print [Text "  - Emergência: "; Int e; Text " unidades"];
  s ← lift (int (value_var r cap_cirurgia));
  _ ← print [Text "  - Cirurgia: "; Int s; Text " unidades"];
  c ← lift (int (value_var r cap_consulta));
  _ ← print [Text "  - Consulta: "; Int c; Text " unidades"];
  total ← lift (fmt ",.2f" (value r (objective p)));
  _ ← print [Text "Custo total de capacidade: $"; total];
  print separator.

Definition consulta3 (df : DataFrame) : Out DataFrame :=
  df ← lift (derive3 df);
  p ← lift (prob3 df);
  _ ← report3 (solved p) (solution p);
  mret df.

(** *** Consulta 4: allocation by age tier *)

Definition faixa_labels : list string := ["Jovem"; "Adulto"; "Senior"].

(** Line 140. *)
Definition derive4 (df : DataFrame) : result DataFrame :=
  age ← getitem df "age";
  l ← numeric age;
  Ok (setitem df "faixa_etaria" (CatCol (map (cut3 "Jovem" "Adulto" "Senior") l))).

(** [faixas = df["faixa_etaria"].dropna().unique()] *)
Definition faixas (df : DataFrame) : result (list string) :=
  col ← getitem df "faixa_etaria"; l ← categories_of col; Ok (unique (dropna l)).

(** [clientes_faixa = pulp.LpVariable.dicts("clientes", faixas, lowBound=0,
    cat="Integer")] *)
Definition clientes_faixa (f : string) : LpVariable :=
  LpVariable_init ("clientes_" +:+ f) (Some 0) None LpInteger.

Definition receita_faixa : gmap string Q :=
  {[ "Jovem" := 4000; "Adulto" := 5000; "Senior" := 6000 ]}.

(** [custo_faixa = df.groupby("faixa_etaria", observed=True)["charges"]
    .mean().to_dict()] *)
Definition custo_faixa (df : DataFrame) : result (gmap string Q) :=
  col ← getitem df "faixa_etaria"; keys ← categories_of col;
  col' ← getitem df "charges"; vals ← numeric col';
  Ok (groupby_mean keys vals).

(** [disponivel_faixa = df["faixa_etaria"].value_counts().to_dict()] *)
Definition disponivel_faixa (df : DataFrame) : result (gmap string Q) :=
  col ← getitem df "faixa_etaria"; l ← categories_of col;
  Ok (value_counts faixa_labels l).

(** Lines 143-170, on the table with its derived columns. *)
Definition prob4 (df : DataFrame) : result LpProblem :=
  fs ← faixas df;
  custos ← custo_faixa df;
  obj ← mapM (fun f => r ← dict_get receita_faixa f; c ← dict_get custos f;
                       Ok (mul (of_var (clientes_faixa f)) (r - c))) fs;
  disponivel ← disponivel_faixa df;
  limites ← mapM (fun f => d ← dict_get disponivel f;
                           Ok (le_const (of_var (clientes_faixa f)) d)) fs;
  let total := lpSum (map (fun f => of_var (clientes_faixa f)) fs) in
  Ok (mkProblem "AlocacaoFaixaEtaria" LpMaximize (lpSum obj)
        (limites
         ++ [ge_const (lpSum (map (fun f => of_var (clientes_faixa f)) fs)) 100]
         ++ map (fun f => ge (of_var (clientes_faixa f)) (mul total 0.2)) fs)).

(** Lines 174-187. *)
Definition report4 (fs : list string) (custos : gmap string Q)
    (p : LpProblem) (r : Result) : Out unit :=
  _ ← print [Text "=== CONSULTA 4: ANÁLISE DE ALOCAÇÃO POR FAIXA ETÁRIA ==="];
  _ ← for_each fs (fun f =>
        match value_var r (clientes_faixa f) with
        | None => mret tt
        | Some v =>
            receita ← lift (dict_get receita_faixa f);
            custo ← lift (dict_get custos f);
            _ ← print [Text "Faixa "; Text f; Text ":"];
            n ← lift (int (Some v));
            _ ← print [Text "  - Clientes aceitos: "; Int n];
            _ ← print [Text "  - Receita unitária: $"; Fmt ",.2f" receita];
            _ ← print [Text "  - Custo unitário: $"; Fmt ",.2f" custo];
            print [Text "  - Lucro unitário: $"; Fmt ",.2f" (receita - custo)]
        end);
  _ ← match value r (objective p) with
      | None => mret tt
      | Some v => print [Text "Lucro total estimado: $"; Fmt ",.2f" v]
      end;
  print separator.

Definition consulta4 (df : DataFrame) : Out DataFrame :=
  df ← lift (derive4 df);
  p ← lift (prob4 df);
  fs ← lift (faixas df);
  custos ← lift (custo_faixa df);
  _ ← report4 fs custos (solved p) (solution p);
  mret df.

(** *** Consulta 5: marketing budget *)

Definition canais : list string := ["Digital"; "TV"; "Radio"; "Impresso"].

Definition custo_por_lead : gmap string Q :=
  {[ "Digital" := 50; "TV" := 200; "Radio" := 75; "Impresso" := 100 ]}.

Definition conversao_rate : gmap string Q :=
  {[ "Digital" := 0.15; "TV" := 0.08; "Radio" := 0.10; "Impresso" := 0.05 ]}.

(** [orcamento = pulp.LpVariable.dicts("orcamento", canais, lowBound=0)] *)
Definition orcamento (c : string) : LpVariable :=
  LpVariable_init ("orcamento_" +:+ c) (Some 0) None LpContinuous.

(** [total_orcamento = pulp.lpSum(orcamento[c] for c in canais)] *)
Definition total_orcamento : LpAffineExpression :=
  lpSum (map (fun c => of_var (orcamento c)) canais).

(** Lines 199-218. *)
Definition prob5 : result LpProblem :=
  obj ← mapM (fun c => k ← dict_get custo_por_lead c; r ← dict_get conversao_rate c;
                       Ok (mul (div (of_var (orcamento c)) k) r)) canais;
  Ok (mkProblem "AlocacaoMarketing" LpMaximize (lpSum obj)
        ([le_const (lpSum (map (fun c => of_var (orcamento c)) canais)) 500000]
         ++ map (fun c => ge_const (of_var (orcamento c)) 20000) canais
         ++ map (fun c => le (of_var (orcamento c)) (mul total_orcamento 0.4)) canais)).

(** The loop of lines 224-232, with the running total. *)
Fixpoint report5_loop (cs : list string) (r : Result) (total : Q) : Out Q :=
  match cs with
  | [] => mret total
  | c :: cs' =>
      match value_var r (orcamento c) with
      | None => report5_loop cs' r total
      | Some v =>
          k ← lift (dict_get custo_por_lead c);
          let leads := v / k in
          rate ← lift (dict_get conversao_rate c);
          let novos_clientes := leads * rate in
          _ ← print [Text "Canal "; Text c; Text ":"];
          _ ← print [Text "  - Orçamento: $"; Fmt ",.2f" v];
          _ ← print [Text "  - Leads gerados: "; Fmt ".0f" leads];
          _ ← print [Text "  - Novos clientes: "; Fmt ".0f" novos_clientes];
          report5_loop cs' r (total + novos_clientes)
      end
  end.

(** Lines 222-236. *)
Definition report5 (r : Result) : Out unit :=
  _ ← print [Text "=== CONSULTA 5: ALOCAÇÃO ÓTIMA DE RECURSOS DE MARKETING ==="];
  total_novos_clientes ← report5_loop canais r 0;
  _ ← print [Text "Total de novos clientes: "; Fmt ".0f" total_novos_clientes];
  print separator.

Definition consulta5 : Out unit :=
  p ← lift prob5;
  report5 (solution p).

(** *** Consulta 6: service network *)

Definition n_centros : nat := 5.
Definition n_clientes_sample : nat := 50.

(** [(random.uniform(0, 100), random.uniform(0, 100))] *)
Definition draw_point (s : RngState) : (Q * Q) * RngState :=
  let (a, s1) := uniform 0 100 s in
  let (b, s2) := uniform 0 100 s1 in
  ((a, b), s2).

(** [[(random.uniform(0, 100), random.uniform(0, 100)) for _ in range(n)]] *)
Fixpoint draw_points (n : nat) (s : RngState) : list (Q * Q) * RngState :=
  match n with
  | O => ([], s)
  | S n' =>
      let (p, s1) := draw_point s in
      let (ps, s2) := draw_points n' s1 in
      (p :: ps, s2)
  end.

Definition distancia (p1 p2 : Q * Q) : Q :=
  sqrt ((fst p1 - fst p2) ^ 2 + (snd p1 - snd p2) ^ 2).

(** [distancias[(i, j)] = distancia(clientes_coords[i], centros[j])], filled
    for every client and center. *)
Definition distancias (clientes_coords centros : list (Q * Q)) : gmap (nat * nat) Q :=
  list_to_map
    (flat_map (fun ic =>
       map (fun jc => ((fst ic, fst jc), distancia (snd ic) (snd jc)))
           (imap pair centros))
       (imap pair clientes_coords)).

(** [z = pulp.LpVariable.dicts("centro_aberto", range(n_centros),
    cat="Binary")] *)
Definition z (j : nat) : LpVariable :=
  LpVariable_init ("centro_aberto_" +:+ pretty j) None None LpBinary.

(** [w[(i, j)] = pulp.LpVariable(f"atende_{i}_{j}", cat="Binary")] *)
Definition w (i j : nat) : LpVariable :=
  LpVariable_init ("atende_" +:+ pretty i +:+ "_" +:+ pretty j) None None LpBinary.

Definition custo_fixo_centro : Q := 10000.

(** Lines 283-295. *)
Definition constraints6 : list LpConstraint :=
  map (fun i => eq_const (lpSum (map (fun j => of_var (w i j)) (seq 0 n_centros))) 1)
      (seq 0 n_clientes_sample)
  ++ flat_map (fun i => map (fun j => le (of_var (w i j)) (of_var (z j)))
                            (seq 0 n_centros))
              (seq 0 n_clientes_sample)
  ++ [ge_const (lpSum (map (fun j => of_var (z j)) (seq 0 n_centros))) 2;
      le_const (lpSum (map (fun j => of_var (z j)) (seq 0 n_centros))) 4].

Definition pairs : list (nat * nat) :=
  flat_map (fun i => map (fun j => (i, j)) (seq 0 n_centros)) (seq 0 n_clientes_sample).

Definition dist_get (d : gmap (nat * nat) Q) (ij : nat * nat) : result Q :=
  match d !! ij with
  | Some v => Ok v
  | None => Raise (KeyError ("(" +:+ pretty (fst ij) +:+ ", " +:+ pretty (snd ij) +:+ ")"))
  end.

(** Lines 263-295. *)
Definition prob6 (d : gmap (nat * nat) Q) : result LpProblem :=
  dist ← mapM (fun ij => v ← dist_get d ij;
                         Ok (mul (of_var (w (fst ij) (snd ij))) v)) pairs;
  Ok (mkProblem "RedeAtendimento" LpMinimize
        (addInPlace (lpSum dist)
           (lpSum (map (fun j => mul (of_var (z j)) custo_fixo_centro) (seq 0 n_centros))))
        constraints6).

(** Lines 299-316. *)
Definition report6 (d : gmap (nat * nat) Q) (p : LpProblem) (r : Result) : Out unit :=
  _ ← print [Text "=== CONSULTA 6: g ==="];
  let centros_abertos :=
    List.filter (fun j => is_one (value_var r (z j))) (seq 0 n_centros) in
  _ ← print [Text "Centros de atendimento abertos: "; IntList centros_abertos];
  _ ← for_each centros_abertos (fun j =>
        let clientes_atendidos :=
          List.filter (fun i => is_one (value_var r (w i j))) (seq 0 n_clientes_sample) in
        print [Text "Centro "; Int (Z.of_nat j); Text " atende ";
               Int (Z.of_nat (length clientes_atendidos)); Text " clientes"]);
  parcelas ← lift (mapM (fun ij =>
                 v ← dist_get d ij;
                 Ok (v * default 0 (value_var r (w (fst ij) (snd ij)))))
               (List.filter (fun ij => is_one (value_var r (w (fst ij) (snd ij)))) pairs));
  _ ← print [Text "Distância total: "; Fmt ".2f" (sum parcelas)];
  total ← lift (fmt ",.2f" (value r (objective p)));
  _ ← print [Text "Custo total: $"; total];
  _ ← print [Text (nl +:+ repeat_str "=" 80)];
  _ ← print [Text "ANÁLISES PRESCRITIVAS CONCLUÍDAS!"];
  print [Text (repeat_str "=" 80)].

(** Lines 243-316.  [random.seed(42)] replaces the state of the generator,
    whatever it was. *)
Definition consulta6 (rng : RngState) : Out RngState :=
  let rng := seed 42 in
  let (centros, rng) := draw_points n_centros rng in
  let (clientes_coords, rng) := draw_points n_clientes_sample rng in
  let d := distancias clientes_coords centros in
  p ← lift (prob6 d);
  _ ← report6 d (solved p) (solution p);
  mret rng.

(** *** The whole script *)

Definition main (df : DataFrame) (rng : RngState) : Out (DataFrame * RngState) :=
  df ← consulta1 df;
  df ← consulta2 df;
  df ← consulta3 df;
  df ← consulta4 df;
  _ ← consulta5;
  rng ← consulta6 rng;
  mret (df, rng).

End Script.

(** ** The normalized form of an expression *)

(** The coefficient of the variable named [n]: the sum of the coefficients
    of the terms that carry this name. *)
Definition coefficient (e : LpAffineExpression) (n : string) : Q :=
  fold_right (fun t s => if String.eqb (name (fst t)) n then snd t + s else s)
             0 (terms e).

(** Two expressions are the same linear form when they have the same
    coefficient for every variable and the same constant. *)
Definition same_form (e1 e2 : LpAffineExpression) : Prop :=
  (forall n, coefficient e1 n == coefficient e2 n) /\ constant e1 == constant e2.

(** ** Test data *)

(** The three records of the selection scenario: costs 10000, 16000 and
    20000. *)
Definition three_records : DataFrame :=
  mkDF 3 {[ "charges" := NumCol [10000; 16000; 20000] ]}.

(** The selection model of lines 18-31 for a table. *)
Definition selection_model (df : DataFrame) : result LpProblem :=
  df' ← derive1 df; prob df'.

(** The selection model of [three_records], evaluated. *)
Definition prob_three_records : LpProblem :=
  Eval vm_compute in
    match selection_model three_records with
    | Ok p => p
    | Raise _ => mkProblem "" LpMinimize empty_expr []
    end.

(** Select records 0 and 1, and records 0 and 2. *)
Definition select_0_1 : Assignment := fun n => if String.eqb n "x_2" then 0 else 1.
Definition select_0_2 : Assignment := fun n => if String.eqb n "x_1" then 0 else 1.

(** A small table with the seven fields of the dataset. *)
Definition sample_table : DataFrame :=
  mkDF 4 {[ "age" := NumCol [19; 55; 62; 33];
            "sex" := StrCol ["female"; "male"; "male"; "female"];
            "bmi" := NumCol [27.9; 22; 36.5; 31];
            "children" := NumCol [0; 1; 3; 0];
            "smoker" := StrCol ["yes"; "no"; "no"; "no"];
            "region" := StrCol ["southwest"; "southeast"; "northwest"; "northeast"];
            "charges" := NumCol [16884.924; 1725.5523; 4449.462; 21984.47061] ]}.

Definition from_ok {A} (d : A) (r : result A) : A :=
  match r with
  | Ok a => a
  | Raise _ => d
  end.

Definition no_problem : LpProblem := mkProblem "" LpMinimize empty_expr [].

(** The sample table as consulta 1 and consulta 2 leave it, and the
    regional model built from it. *)
Definition sample_consulta1 : DataFrame := from_ok sample_table (derive1 sample_table).
Definition sample_consulta2 : DataFrame := from_ok sample_table (derive2 sample_consulta1).
Definition sample_regioes : list string := from_ok [] (regioes sample_consulta2).
Definition sample_prob2 : LpProblem := from_ok no_problem (prob2 sample_consulta2).

(** A result as a solver leaves it for an infeasible model: the status says
    Infeasible, and the variables still carry the numbers of the last
    iterate. *)
Definition infeasible_with_values : Result :=
  mkResult LpStatusInfeasible
    {[ "clientes_regiao_Sul" := 15; "clientes_regiao_Norte" := 15;
       "clientes_regiao_Centro" := 20 ]}.

(** The same status with no value assigned to any variable. *)
Definition infeasible_without_values : Result :=
  mkResult LpStatusInfeasible ∅.

(** ** Quantities read off an assignment *)

(** The variables that occur in an expression. *)
Definition vars (e : LpAffineExpression) : list LpVariable := map fst (terms e).

(** Number of centers an assignment opens, and number of centers it assigns
    client [i] to. *)
Definition open_count (a : Assignment) : Q :=
  Pandas.sum (map (fun j => a (name (z j))) (seq 0 n_centros)).
Definition assigned_count (a : Assignment) (i : nat) : Q :=
  Pandas.sum (map (fun j => a (name (w i j))) (seq 0 n_centros)).

(** Open centers 0 and 1 and serve every client from center 0. *)
Definition two_centers : Assignment :=
  fun n =>
    if bool_decide (n ∈ [name (z 0); name (z 1)]) then 1
    else if bool_decide (n ∈ map (fun i => name (w i 0)) (seq 0 n_clientes_sample)) then 1
    else 0.

(** Open center 0 only and serve every client from it. *)
Definition one_center : Assignment :=
  fun n =>
    if bool_decide (n = name (z 0)) then 1
    else if bool_decide (n ∈ map (fun i => name (w i 0)) (seq 0 n_clientes_sample)) then 1
    else 0.

(** Distances for a test: client [i] is at distance [i + j] of center [j]. *)
Definition sample_distancias : gmap (nat * nat) Q :=
  list_to_map (map (fun ij => (ij, inject_Z (Z.of_nat (fst ij + snd ij)))) pairs).

Definition sample_prob6 : LpProblem := from_ok no_problem (prob6 sample_distancias).

(** The marketing model of lines 199-218, evaluated. *)
Definition prob5_model : LpProblem :=
  Eval vm_compute in from_ok no_problem prob5.

(** The budget split Digital 200000, Radio 200000, Impresso 80000, TV
    20000. *)
Definition best_split : Assignment :=
  fun n =>
    if String.eqb n "orcamento_Digital" then 200000
    else if String.eqb n "orcamento_Radio" then 200000
    else if String.eqb n "orcamento_Impresso" then 80000
    else if String.eqb n "orcamento_TV" then 20000
    else 0.

(** ** Demand totals of the table *)

(** Number of records with [age > 50] or [smoker == "yes"]. *)
Definition demanda_emergencia_total (ages : list Q) (smokers : list string) : Q :=
  Pandas.sum (map (fun r => if negb (Qle_bool (fst r) 50) || String.eqb (snd r) "yes"
                            then 1 else 0)
                  (zip ages smokers)).

(** Number of records with [bmi > 35] or [age > 60]. *)
Definition demanda_cirurgia_total (bmis ages : list Q) : Q :=
  Pandas.sum (map (fun r => if negb (Qle_bool (fst r) 35) || negb (Qle_bool (snd r) 60)
                            then 1 else 0)
                  (zip bmis ages)).

(** The capacity model for given demand totals. *)
Definition capacity_model (e s c : Q) : LpProblem :=
  mkProblem "CapacidadeHospitalar" LpMinimize custo_capacidade
    [ge_const (of_var cap_emergencia) e;
     ge_const (of_var cap_cirurgia) s;
     ge_const (of_var cap_consulta) c;
     le_const custo_capacidade 2000000].

(** Capacities equal to given numbers. *)
Definition capacities (e s c : Q) : Assignment :=
  fun n =>
    if String.eqb n "cap_emergencia" then e
    else if String.eqb n "cap_cirurgia" then s
    else if String.eqb n "cap_consulta" then c
    else 0.

(** ** Tables with a field removed; observing a run *)

(** The table without column [c]. *)
Definition drop (c : string) (df : DataFrame) : DataFrame :=
  mkDF (nrows df) (delete c (columns df)).

(** The columns the script reads or writes. *)
Definition used_columns : list string :=
  ["receita"; "charges"; "custo"; "bmi"; "regiao"; "age"; "smoker";
   "demanda_emergencia"; "demanda_cirurgia"; "demanda_consulta"; "faixa_etaria"].

(** The same run, with the final value seen through [f]. *)
Definition out_map {A B} (f : A -> B) (o : Out A) : Out B :=
  mkOut (printed o)
        (match outcome o with
         | Ok a => Ok (f a)
         | Raise e => Raise e
         end).

Definition rmap {A B} (f : A -> B) (r : result A) : result B :=
  match r with
  | Ok a => Ok (f a)
  | Raise e => Raise e
  end.

(** A stand-in for the solver that stops unsolved with every variable at 0,
    and a generator with a single state that always draws 0. *)
Definition stub_solver (p : LpProblem) : Result :=
  mkResult LpStatusNotSolved (list_to_map (map (fun v => (name v, 0)) (variables p))).
Definition stub_seed (n : Z) : unit := tt.
Definition stub_uniform (lo hi : Q) (s : unit) : Q * unit := (0, s).
Definition stub_sqrt (q : Q) : Q := q.

(** The heading printed first by consulta 1. *)
Definition heading1 : Line :=
  [Text "=== CONSULTA 1: SELEÇÃO DE CLIENTES PARA MAXIMIZAR RECEITA ==="].

(** Two tables agree on a list of columns. *)
Definition agree (ks : list string) (df1 df2 : DataFrame) : Prop :=
  nrows df1 = nrows df2 /\ forall k, In k ks -> columns df1 !! k = columns df2 !! k.

(** ** The models a run builds *)

(** The five models built from the table (consultas 1 to 5), in order. *)
Definition models (df : DataFrame) : result (list LpProblem) :=
  d1 ← derive1 df; p1 ← prob d1;
  d2 ← derive2 d1; p2 ← prob2 d2;
  d3 ← derive3 d2; p3 ← prob3 d3;
  d4 ← derive4 d3; p4 ← prob4 d4;
  p5 ← prob5;
  Ok [p1; p2; p3; p4; p5].

(** The network model of consulta 6, built after [random.seed(42)] from a
    generator in state [rng]. *)
Definition network_model (RngState : Type) (seed : Z -> RngState)
    (uniform : Q -> Q -> RngState -> Q * RngState) (sqrt : Q -> Q)
    (rng : RngState) : result LpProblem :=
  let rng := seed 42%Z in
  let (centros, rng) := draw_points RngState uniform n_centros rng in
  let (clientes_coords, rng) := draw_points RngState uniform n_clientes_sample rng in
  prob6 (distancias sqrt clientes_coords centros).

(** New clients a channel contributes under a result: its budget divided by
    the cost per lead, times the conversion rate; nothing when the budget
    has no value. *)
Definition novos_clientes_canal (r : Result) (c : string) : Q :=
  match value_var r (orcamento c), custo_por_lead !! c, conversao_rate !! c with
  | Some v, Some k, Some rate => v / k * rate
  | _, _, _ => 0
  end.

(** The names of the variables of an expression, in order. *)
Definition names (e : LpAffineExpression) : list string :=
  map (fun t => name (fst t)) (terms e).

(** Cost of record [i] in a list of costs ([0] outside the list). *)
Definition cost_of (l : list Q) (i : nat) : Q := default 0 (l !! i).

(** A table of 1001 identical records. *)
Definition big_table : DataFrame :=
  mkDF 1001 {[ "age" := NumCol (replicate 1001 30);
               "bmi" := NumCol (replicate 1001 25);
               "smoker" := StrCol (replicate 1001 "no");
               "charges" := NumCol (replicate 1001 5000) ]}.

(** A table of 100 records aged 30, with its age tiers attached, and the
    age-tier model built from it. *)
Definition tier_table : DataFrame :=
  mkDF 100 {[ "age" := NumCol (replicate 100 30);
              "charges" := NumCol (replicate 100 3000) ]}.
Definition tier_table_derived : DataFrame := from_ok tier_table (derive4 tier_table).
Definition tier_prob : LpProblem := from_ok no_problem (prob4 tier_table_derived).
Definition tier_disponivel : gmap string Q :=
  from_ok ∅ (disponivel_faixa tier_table_derived).

(** ** Well-formed inputs *)

(** A table with the columns the script reads: numeric [age], [bmi] and
    [charges], string [smoker], one cell per record. *)
Definition well_formed (df : DataFrame) : Prop :=
  exists ages bmis charges smokers,
    columns df !! "age" = Some (NumCol ages) /\
    columns df !! "bmi" = Some (NumCol bmis) /\
    columns df !! "charges" = Some (NumCol charges) /\
    columns df !! "smoker" = Some (StrCol smokers) /\
    length ages = nrows df /\ length bmis = nrows df /\
    length charges = nrows df /\ length smokers = nrows df.

(** A solver that leaves a value on every variable of the problem it is
    given. *)
Definition assigns_all (solve : LpProblem -> Result) : Prop :=
  forall p u, In u (variables p) -> is_Some (value_var (solve p) u).

(** The list [centros_abertos] of line 299 and the length of
    [clientes_atendidos] of line 303, as the report of consulta 6 computes
    them from a result. *)
Definition centros_abertos (r : Result) : list nat :=
  List.filter (fun j => is_one (value_var r (z j))) (seq 0 n_centros).
Definition clientes_atendidos (r : Result) (j : nat) : nat :=
  length (List.filter (fun i => is_one (value_var r (w i j))) (seq 0 n_clientes_sample)).

(** A result that holds the assignment [two_centers] on every variable of
    the sample network model. *)
Definition two_centers_result : Result :=
  mkResult LpStatusOptimal
    (list_to_map (map (fun u => (name u, two_centers (name u))) (variables sample_prob6))).

(** The [charges] column holds positive numbers. *)
Definition positive_charges (df : DataFrame) : Prop :=
  exists charges,
    columns df !! "charges" = Some (NumCol charges) /\ Forall (fun c => 0 < c) charges.

(** A table with the columns the script reads and no record. *)
Definition empty_table : DataFrame :=
  mkDF 0 {[ "age" := NumCol []; "bmi" := NumCol [];
            "charges" := NumCol []; "smoker" := StrCol [] ]}.

(** Two records whose charges are zero. *)
Definition zero_charges_table : DataFrame :=
  mkDF 2 {[ "age" := NumCol [19; 55]; "bmi" := NumCol [22; 31];
            "charges" := NumCol [0; 0]; "smoker" := StrCol ["yes"; "no"] ]}.

(** ** Sample expressions with binary64 coefficients *)

(** [0.1 * x[0]], [0.2 * x[0]] and [0.3 * x[0]]. *)
Definition tenth_x : Float64.LpAffineExpression :=
  Float64.mul (Float64.of_var (x 0)) 0.1.
Definition fifth_x : Float64.LpAffineExpression :=
  Float64.mul (Float64.of_var (x 0)) 0.2.
Definition three_tenths_x : Float64.LpAffineExpression :=
  Float64.mul (Float64.of_var (x 0)) 0.3.

(** [lpSum([0.1 * x[0], 0.2 * x[1]])] and [lpSum([0.3 * x[1], 0.7 * x[2]])]. *)
Definition sample_a : Float64.LpAffineExpression :=
  Float64.lpSum [Float64.mul (Float64.of_var (x 0)) 0.1;
                 Float64.mul (Float64.of_var (x 1)) 0.2].
Definition sample_b : Float64.LpAffineExpression :=
  Float64.lpSum [Float64.mul (Float64.of_var (x 1)) 0.3;
                 Float64.mul (Float64.of_var (x 2)) 0.7].

(** ** Facts about the expression algebra *)

Section ExpressionAlgebra.

Implicit Types (a : Assignment) (e : LpAffineExpression) (v : LpVariable).
Implicit Types (ts : list (LpVariable * Q)).

Lemma eval_cons a t ts k :
  eval a (mkExpr (t :: ts) k) = snd t * a (name (fst t)) + eval a (mkExpr ts k).
Proof. reflexivity. Qed.

Lemma eval_nil a k : eval a (mkExpr [] k) = k.
Proof. reflexivity. Qed.

Lemma eval_addterm a v c ts k :
  eval a (mkExpr (addterm v c ts) k) == c * a (name v) + eval a (mkExpr ts k).
Proof.
  induction ts as [|[v' c'] ts IH]; simpl addterm.
  - rewrite !eval_cons, eval_nil. simpl. reflexivity.
  - destruct (String.eqb (name v') (name v)) eqn:E.
    + apply String.eqb_eq in E. rewrite !eval_cons. simpl fst; simpl snd.
      rewrite E. ring.
    + rewrite !eval_cons, IH. simpl fst; simpl snd. ring.
Qed.

Lemma eval_addterms a other ts k :
  eval a (mkExpr (addterms ts other) k)
  == eval a (mkExpr other 0) + eval a (mkExpr ts k).
Proof.
  unfold addterms. revert ts.
  induction other as [|[v c] other IH]; intros ts; simpl fold_left.
  - rewrite eval_nil. ring.
  - rewrite IH, eval_addterm, eval_cons. simpl fst; simpl snd. ring.
Qed.

Lemma eval_const_shift a ts k : eval a (mkExpr ts k) == eval a (mkExpr ts 0) + k.
Proof.
  induction ts as [|t ts IH].
  - rewrite !eval_nil. ring.
  - rewrite !eval_cons, IH. ring.
Qed.

Lemma eval_expr_eta a e : eval a e = eval a (mkExpr (terms e) (constant e)).
Proof. destruct e; reflexivity. Qed.

Lemma eval_addInPlace a e other :
  eval a (addInPlace e other) == eval a e + eval a other.
Proof.
  unfold addInPlace. rewrite eval_addterms.
  rewrite (eval_const_shift a (terms e)).
  rewrite (eval_expr_eta a e), (eval_expr_eta a other).
  rewrite (eval_const_shift a (terms e) (constant e)).
  rewrite (eval_const_shift a (terms other) (constant other)). ring.
Qed.

Lemma eval_negate a ts :
  eval a (mkExpr (map (fun t => (fst t, - snd t)) ts) 0) == - eval a (mkExpr ts 0).
Proof.
  induction ts as [|t ts IH]; simpl map.
  - rewrite !eval_nil. ring.
  - rewrite !eval_cons, IH. simpl fst; simpl snd. ring.
Qed.

Lemma eval_subInPlace a e other :
  eval a (subInPlace e other) == eval a e - eval a other.
Proof.
  unfold subInPlace. rewrite eval_addterms, eval_negate.
  rewrite (eval_const_shift a (terms e)).
  rewrite (eval_expr_eta a e), (eval_expr_eta a other).
  rewrite (eval_const_shift a (terms e) (constant e)).
  rewrite (eval_const_shift a (terms other) (constant other)). ring.
Qed.

Lemma eval_sub_const a e c : eval a (sub_const e c) == eval a e - c.
Proof.
  unfold sub_const. rewrite (eval_expr_eta a e).
  rewrite (eval_const_shift a (terms e) (constant e - c)).
  rewrite (eval_const_shift a (terms e) (constant e)). ring.
Qed.

Lemma eval_of_var a v : eval a (of_var v) == a (name v).
Proof. unfold of_var. rewrite eval_cons, eval_nil. simpl. ring. Qed.

Lemma eval_empty a : eval a empty_expr == 0.
Proof. reflexivity. Qed.

Lemma eval_scale a k ts c :
  eval a (mkExpr (map (fun t => (fst t, k * snd t)) ts) (c * k))
  == k * eval a (mkExpr ts c).
Proof.
  induction ts as [|t ts IH]; simpl map.
  - rewrite !eval_nil. ring.
  - rewrite !eval_cons, IH. simpl fst; simpl snd. ring.
Qed.

Lemma eval_mul a e k : eval a (mul e k) == k * eval a e.
Proof.
  unfold mul. destruct (Qeq_bool k 0) eqn:E.
  - apply Qeq_bool_iff in E. rewrite E, eval_empty. ring.
  - rewrite eval_scale, <- eval_expr_eta. reflexivity.
Qed.

Lemma eval_div a e k : ~ k == 0 -> eval a (div e k) == eval a e / k.
Proof.
  intros Hk. unfold div. rewrite (eval_expr_eta a e).
  generalize (constant e) as c. induction (terms e) as [|t ts IH]; intros c; simpl map.
  - rewrite !eval_nil. reflexivity.
  - rewrite !eval_cons, IH. simpl fst; simpl snd. field. exact Hk.
Qed.

Lemma eval_fold_addInPlace a es e0 :
  eval a (fold_left addInPlace es e0)
  == eval a e0 + Pandas.sum (map (eval a) es).
Proof.
  revert e0. induction es as [|e es IH]; intros e0; simpl.
  - ring.
  - rewrite IH, eval_addInPlace. ring.
Qed.

Lemma eval_lpSum a es : eval a (lpSum es) == Pandas.sum (map (eval a) es).
Proof. unfold lpSum. rewrite eval_fold_addInPlace, eval_empty. ring. Qed.

End ExpressionAlgebra.

(** ** The executable feasibility test agrees with its specification *)

Lemma is_integerb_spec q : is_integerb q = true <-> is_integer q.
Proof.
  unfold is_integerb, is_integer. destruct q as [n d]. simpl. split.
  - intros H. apply Z.eqb_eq in H. exists (n / Zpos d)%Z.
    unfold Qeq, inject_Z. simpl.
    pose proof (Z.div_mod n (Zpos d) ltac:(lia)) as E. rewrite H in E. lia.
  - intros [k H]. unfold Qeq, inject_Z in H. simpl in H.
    apply Z.eqb_eq. rewrite Z.mul_1_r in H. rewrite H. apply Z.mod_mul. lia.
Qed.

Lemma holdsb_spec a c : holdsb a c = true <-> holds a c.
Proof.
  unfold holdsb, holds. destruct (csense c).
  - apply Qle_bool_iff.
  - apply Qle_bool_iff.
  - apply Qeq_bool_iff.
Qed.

Lemma in_domainb_spec a v : in_domainb a v = true <-> in_domain a v.
Proof.
  unfold in_domainb, in_domain. rewrite !andb_true_iff. split.
  - intros [[Hl Hu] Hc]. repeat split.
    + intros l E. rewrite E in Hl. now apply Qle_bool_iff.
    + intros u E. rewrite E in Hu. now apply Qle_bool_iff.
    + intros Hn. destruct (cat v); try congruence; now apply is_integerb_spec.
  - intros (Hl & Hu & Hc). repeat split.
    + destruct (lowBound v); [apply Qle_bool_iff; auto | reflexivity].
    + destruct (upBound v); [apply Qle_bool_iff; auto | reflexivity].
    + destruct (cat v); [reflexivity | | ]; apply is_integerb_spec, Hc; discriminate.
Qed.

Lemma forallb_Forall {A} (f : A -> bool) (P : A -> Prop) (l : list A) :
  (forall x, f x = true <-> P x) -> forallb f l = true <-> Forall P l.
Proof.
  intros H. induction l as [|x l IH]; simpl.
  - split; [constructor | reflexivity].
  - rewrite andb_true_iff, IH, H. split.
    + intros [? ?]. now constructor.
    + intros HF. inversion HF; subst. now split.
Qed.

Lemma feasibleb_spec p a : feasibleb p a = true <-> feasible p a.
Proof.
  unfold feasibleb, feasible. rewrite andb_true_iff.
  rewrite (forallb_Forall _ _ _ (in_domainb_spec a)).
  rewrite (forallb_Forall _ _ _ (holdsb_spec a)). reflexivity.
Qed.

(** ** Binary variables take the values 0 and 1 *)

Lemma integer_between_0_1 q : is_integer q -> 0 <= q -> q <= 1 -> q == 0 \/ q == 1.
Proof.
  intros [k Hk] H0 H1. rewrite Hk in *.
  assert (0 <= k <= 1)%Z as Hr.
  { split; rewrite Zle_Qle; assumption. }
  assert (k = 0 \/ k = 1)%Z as [-> | ->] by lia; [left | right]; reflexivity.
Qed.

Lemma binary_domain a n lb ub :
  in_domain a (LpVariable_init n lb ub LpBinary) -> a n == 0 \/ a n == 1.
Proof.
  intros (Hl & Hu & Hc). simpl in *.
  apply integer_between_0_1.
  - apply Hc. discriminate.
  - apply Hl. reflexivity.
  - apply Hu. reflexivity.
Qed.

Lemma in_domain_binary a n lb ub :
  a n == 0 \/ a n == 1 -> in_domain a (LpVariable_init n lb ub LpBinary).
Proof.
  intros Hn. repeat split; simpl.
  - intros l [= <-]. destruct Hn as [E | E]; lra.
  - intros u [= <-]. destruct Hn as [E | E]; lra.
  - intros _. destruct Hn as [E | E]; [exists 0%Z | exists 1%Z]; rewrite E; reflexivity.
Qed.

(** ** Consulta 1 on the three records *)

Lemma selection_model_three_records df :
  nrows df = 3%nat ->
  columns df !! "charges" = Some (NumCol [10000; 16000; 20000]) ->
  selection_model df = Ok prob_three_records.
Proof.
  destruct df as [n cols]. simpl. intros -> H.
  unfold selection_model, derive1, setitem_scalar, setitem, getitem. simpl.
  rewrite lookup_insert_ne; last done. rewrite H. simpl.
  unfold prob, loc_num, getitem, clientes, index. simpl.
  rewrite lookup_insert_eq. rewrite lookup_insert_ne; last done.
  rewrite lookup_insert_eq. simpl.
  vm_compute. reflexivity.
Qed.

Lemma three_records_feasible a :
  feasible prob_three_records a <->
  (a "x_0" == 0 \/ a "x_0" == 1) /\ (a "x_1" == 0 \/ a "x_1" == 1) /\
  (a "x_2" == 0 \/ a "x_2" == 1) /\
  10000 * a "x_0" + 16000 * a "x_1" + 20000 * a "x_2"
    <= 15000 * (a "x_0" + a "x_1" + a "x_2").
Proof.
  unfold feasible, prob_three_records, variables.
  cbn [objective constraints terms expr map fst flat_map app].
  rewrite !Forall_cons, !Forall_nil.
  change (mkVar "x_0" (Some 0) (Some 1) LpInteger)
    with (LpVariable_init "x_0" (Some 0) (Some 1) LpBinary).
  change (mkVar "x_1" (Some 0) (Some 1) LpInteger)
    with (LpVariable_init "x_1" (Some 0) (Some 1) LpBinary).
  change (mkVar "x_2" (Some 0) (Some 1) LpInteger)
    with (LpVariable_init "x_2" (Some 0) (Some 1) LpBinary).
  unfold holds. cbn [csense expr eval terms constant fold_right fst snd name LpVariable_init].
  split.
  - intros [(H0 & H1 & H2 & _) [Hc _]].
    apply (binary_domain a _ (Some 0) (Some 1)) in H0, H1, H2.
    repeat split; try assumption. lra.
  - intros (H0 & H1 & H2 & Hc).
    repeat match goal with
           | |- in_domain _ _ =>
               apply (in_domain_binary a _ (Some 0) (Some 1)); assumption
           | |- True => exact I
           | |- _ /\ _ => split
           end.
    lra.
Qed.

Lemma three_records_optimal a :
  optimal prob_three_records a <->
  a "x_0" == 1 /\
  ((a "x_1" == 1 /\ a "x_2" == 0) \/ (a "x_1" == 0 /\ a "x_2" == 1)).
Proof.
  unfold optimal. split.
  - intros [Hf Hopt].
    assert (feasible prob_three_records select_0_1) as F
      by (apply feasibleb_spec; vm_compute; reflexivity).
    specialize (Hopt _ F).
    apply three_records_feasible in Hf. destruct Hf as (H0 & H1 & H2 & Hc).
    unfold better, prob_three_records in Hopt.
    cbn [sense objective eval terms constant fold_right fst snd name] in Hopt.
    change (select_0_1 "x_0") with 1 in Hopt.
    change (select_0_1 "x_1") with 1 in Hopt.
    change (select_0_1 "x_2") with 0 in Hopt.
    destruct H0 as [E0|E0], H1 as [E1|E1], H2 as [E2|E2];
      rewrite E0, E1, E2 in Hc, Hopt; try lra; auto.
  - intros [E0 HE]. split.
    + apply three_records_feasible.
      destruct HE as [[E1 E2]|[E1 E2]]; rewrite E0, E1, E2; repeat split; auto; lra.
    + intros b Hb. apply three_records_feasible in Hb.
      destruct Hb as (H0 & H1 & H2 & Hc).
      unfold better, prob_three_records.
      cbn [sense objective eval terms constant fold_right fst snd name].
      destruct HE as [[E1 E2]|[E1 E2]]; rewrite E0, E1, E2;
      destruct H0 as [F0|F0], H1 as [F1|F1], H2 as [F2|F2];
      rewrite F0, F1, F2 in Hc |- *; lra.
Qed.

Lemma three_records_objective a :
  eval a (objective prob_three_records)
  == 5000 * a "x_0" + 5000 * a "x_1" + 5000 * a "x_2".
Proof.
  unfold prob_three_records.
  cbn [objective eval terms constant fold_right fst snd name]. ring.
Qed.

(** C1, as stated: on the three records every optimal selection takes the
    records costing 10000 and 16000 and leaves out the one costing 20000.
    This fails: selecting the records costing 10000 and 20000 has mean cost
    exactly 15000, is feasible, and has the same revenue. *)
Lemma selection_claim_fails :
  ~ (forall p a,
        selection_model three_records = Ok p -> optimal p a ->
        a "x_0" == 1 /\ a "x_1" == 1 /\ a "x_2" == 0 /\
        eval a (objective p) == 10000).
Proof.
  intros H.
  destruct (H prob_three_records select_0_2) as (_ & E & _).
  - apply selection_model_three_records; reflexivity.
  - apply three_records_optimal.
    split; [reflexivity | right; split; reflexivity].
  - vm_compute in E. discriminate E.
Qed.

(** C1, amended: for a table of exactly three records with costs 10000,
    16000 and 20000 the selection model is built, its optimal objective value
    is 10000, and the optimal selections are exactly the two that take the
    record costing 10000 together with one of the other two records: the one
    of the claim (10000 and 16000) and also 10000 with 20000. *)
Theorem selection_three_records df :
  nrows df = 3%nat ->
  columns df !! "charges" = Some (NumCol [10000; 16000; 20000]) ->
  exists p,
    selection_model df = Ok p /\
    (forall a, optimal p a <->
       a "x_0" == 1 /\
       ((a "x_1" == 1 /\ a "x_2" == 0) \/ (a "x_1" == 0 /\ a "x_2" == 1))) /\
    (forall a, optimal p a -> eval a (objective p) == 10000) /\
    optimal p select_0_1 /\ optimal p select_0_2.
Proof.
  intros Hn Hc. exists prob_three_records. split; [|split; [|split; [|split]]].
  - now apply selection_model_three_records.
  - apply three_records_optimal.
  - intros a Ha. apply three_records_optimal in Ha.
    rewrite three_records_objective.
    destruct Ha as [E0 [[E1 E2]|[E1 E2]]]; rewrite E0, E1, E2; reflexivity.
  - apply three_records_optimal.
    split; [reflexivity | left; split; reflexivity].
  - apply three_records_optimal.
    split; [reflexivity | right; split; reflexivity].
Qed.

Lemma selection_three_records_witness :
  exists p,
    selection_model three_records = Ok p /\
    (forall a, optimal p a <->
       a "x_0" == 1 /\
       ((a "x_1" == 1 /\ a "x_2" == 0) \/ (a "x_1" == 0 /\ a "x_2" == 1))) /\
    (forall a, optimal p a -> eval a (objective p) == 10000) /\
    optimal p select_0_1 /\ optimal p select_0_2.
Proof. apply (selection_three_records three_records); reflexivity. Defined.

(** ** Lists: [unique], sums *)

Lemma unique_from_spec seen l :
  NoDup (unique_from seen l) /\
  forall s, s ∈ unique_from seen l <-> s ∈ l /\ s ∉ seen.
Proof.
  revert seen. induction l as [|s0 l IH]; intros seen; simpl.
  - split; [constructor|]. intros s. rewrite elem_of_nil. tauto.
  - case_bool_decide as Hs.
    + destruct (IH seen) as [ND M]. split; [exact ND|].
      intros s. rewrite M, elem_of_cons. split; [tauto|].
      intros [[-> | Hl] Hn]; [contradiction | tauto].
    + destruct (IH (s0 :: seen)) as [ND M]. split.
      * constructor; [|exact ND]. rewrite M, elem_of_cons. tauto.
      * intros s. rewrite !elem_of_cons, M, elem_of_cons.
        destruct (decide (s = s0)) as [-> | Hne]; tauto.
Qed.

Lemma unique_NoDup l : NoDup (unique l).
Proof. apply unique_from_spec. Qed.

Lemma elem_of_unique l s : s ∈ unique l <-> s ∈ l.
Proof.
  unfold unique. destruct (unique_from_spec [] l) as [_ M].
  rewrite M, elem_of_nil. tauto.
Qed.

Lemma sum_map_ext {A} (f g : A -> Q) (l : list A) :
  (forall x, x ∈ l -> f x == g x) ->
  Pandas.sum (map f l) == Pandas.sum (map g l).
Proof.
  induction l as [|x l IH]; intros H; simpl.
  - reflexivity.
  - rewrite (H x), IH; [reflexivity | | left].
    intros x' Hx'. apply H. now right.
Qed.

Lemma sum_map_le {A} (f : A -> Q) (c : Q) (l : list A) :
  (forall x, x ∈ l -> f x <= c) ->
  Pandas.sum (map f l) <= inject_Z (Z.of_nat (length l)) * c.
Proof.
  induction l as [|x l IH]; intros H.
  - change (0 <= 0 * c). lra.
  - change (length (x :: l)) with (S (length l)).
    rewrite Nat2Z.inj_succ. unfold Z.succ. rewrite inject_Z_plus.
    simpl Pandas.sum. change (fold_right Qplus 0 (map f l)) with (Pandas.sum (map f l)).
    assert (f x <= c) by (apply H; left).
    assert (Pandas.sum (map f l) <= inject_Z (Z.of_nat (length l)) * c).
    { apply IH. intros x' Hx'. apply H. now right. }
    change (inject_Z 1) with 1. lra.
Qed.

Lemma eval_lpSum_vars a {A} (v : A -> LpVariable) (l : list A) :
  eval a (lpSum (map (fun i => of_var (v i)) l))
  == Pandas.sum (map (fun i => a (name (v i))) l).
Proof.
  rewrite eval_lpSum, map_map. apply sum_map_ext.
  intros i _. apply eval_of_var.
Qed.

(** ** Consulta 2: the regional model has no feasible point *)

Lemma regiao_of_bmi_cases b :
  regiao_of_bmi b ∈ ["Norte"; "Sul"; "Centro"].
Proof.
  unfold regiao_of_bmi.
  destruct (negb (Qle_bool 25 b)); [set_solver|].
  destruct (negb (Qle_bool 30 b)); set_solver.
Qed.

Lemma regioes_derive2 df df' rs :
  derive2 df = Ok df' -> regioes df' = Ok rs ->
  NoDup rs /\ (forall r, r ∈ rs -> r ∈ ["Norte"; "Sul"; "Centro"]).
Proof.
  unfold derive2, regioes, getitem, setitem.
  destruct (columns df !! "bmi") as [col|]; simpl; [|discriminate].
  destruct col as [l| |]; simpl; try discriminate.
  intros [= <-]. simpl. rewrite lookup_insert_eq. simpl. intros [= <-].
  split; [apply unique_NoDup|].
  intros r Hr. apply elem_of_unique, list_elem_of_fmap in Hr.
  destruct Hr as (b & -> & _). apply regiao_of_bmi_cases.
Qed.

Lemma at_most_three_regions (rs : list string) :
  NoDup rs -> (forall r, r ∈ rs -> r ∈ ["Norte"; "Sul"; "Centro"]) ->
  (length rs <= 3)%nat.
Proof.
  intros ND Hin.
  change 3%nat with (length ["Norte"; "Sul"; "Centro"]).
  apply submseteq_length, NoDup_submseteq; assumption.
Qed.

Lemma constraints2_infeasible rs a :
  (length rs <= 3)%nat -> ~ Forall (holds a) (constraints2 rs).
Proof.
  intros Hlen HF. unfold constraints2 in HF.
  apply Forall_cons in HF. destruct HF as [Htot HF].
  apply Forall_app in HF. destruct HF as [Hshare _].
  unfold holds in Htot. cbn [csense expr ge_const] in Htot.
  rewrite eval_sub_const, eval_lpSum_vars in Htot.
  set (T := Pandas.sum (map (fun r => a (name (y r))) rs)) in *.
  assert (forall r, r ∈ rs -> a (name (y r)) <= 0.3 * T) as Hle.
  { intros r Hr. rewrite Forall_forall in Hshare.
    specialize (Hshare (le (of_var (y r)) (mul (total_clientes rs) 0.3))).
    unfold holds in Hshare. cbn [csense expr le] in Hshare.
    rewrite eval_subInPlace, eval_mul, eval_of_var in Hshare.
    unfold total_clientes in Hshare. rewrite eval_lpSum_vars in Hshare.
    fold T in Hshare.
    assert (a (name (y r)) - 0.3 * T <= 0); [|lra].
    apply Hshare. apply list_elem_of_fmap. exists r. split; [reflexivity | exact Hr]. }
  pose proof (sum_map_le (fun r => a (name (y r))) (0.3 * T) rs Hle) as Hsum.
  fold T in Hsum.
  assert (length rs = 0 \/ length rs = 1 \/ length rs = 2 \/ length rs = 3)%nat
    as [E|[E|[E|E]]] by lia; rewrite E in Hsum.
  - change (inject_Z (Z.of_nat 0)) with 0 in Hsum. lra.
  - change (inject_Z (Z.of_nat 1)) with 1 in Hsum. lra.
  - change (inject_Z (Z.of_nat 2)) with 2 in Hsum. lra.
  - change (inject_Z (Z.of_nat 3)) with 3 in Hsum. lra.
Qed.

Lemma prob2_constraints df p :
  prob2 df = Ok p -> exists rs, regioes df = Ok rs /\ constraints p = constraints2 rs.
Proof.
  unfold prob2. destruct (regioes df) as [rs|]; simpl; [|discriminate].
  destruct (custos_por_regiao df) as [cs|]; simpl; [|discriminate].
  destruct (mapM _ rs) as [obj|]; simpl; [|discriminate].
  intros [= <-]. exists rs. split; reflexivity.
Qed.

Lemma portfolio_no_feasible df df' p :
  derive2 df = Ok df' -> prob2 df' = Ok p -> forall a, ~ feasible p a.
Proof.
  intros Hd Hp a [_ Hc].
  destruct (prob2_constraints _ _ Hp) as (rs & Hrs & Ecs).
  destruct (regioes_derive2 _ _ _ Hd Hrs) as [ND Hin].
  rewrite Ecs in Hc.
  exact (constraints2_infeasible rs a (at_most_three_regions rs ND Hin) Hc).
Qed.

Lemma sample_prob2_infeasible a : ~ feasible sample_prob2 a.
Proof.
  apply (portfolio_no_feasible sample_consulta1 sample_consulta2 sample_prob2);
    vm_compute; reflexivity.
Qed.

(** C2: the regional-portfolio model built by the script has no feasible
    assignment, whatever the table: at most three regions exist, each is
    capped at 0.3 of the total, so the total would be at most 0.9 of itself
    while it must be at least 50.  An exact solver therefore reports
    Infeasible, never Optimal. *)
Theorem portfolio_infeasible df df' p :
  derive2 df = Ok df' -> prob2 df' = Ok p ->
  (forall a, ~ feasible p a) /\
  (forall r, solves p r -> status r = LpStatusInfeasible).
Proof.
  intros Hd Hp.
  pose proof (portfolio_no_feasible df df' p Hd Hp) as Hinf.
  split; [exact Hinf|].
  intros r Hr. destruct Hr as [r _ [Hf _] | r Hs _ | r _ [a Ha] _].
  - exfalso. exact (Hinf _ Hf).
  - exact Hs.
  - exfalso. exact (Hinf _ Ha).
Qed.

Lemma portfolio_infeasible_witness :
  (forall a, ~ feasible sample_prob2 a) /\
  (forall r, solves sample_prob2 r -> status r = LpStatusInfeasible).
Proof.
  apply (portfolio_infeasible sample_consulta1 sample_consulta2 sample_prob2);
    vm_compute; reflexivity.
Defined.

(** ** Consulta 2: the report does not look at the status *)

(** C3, on the code: the report of the regional scenario is the same
    whatever the status.  For the (always infeasible) regional model and a
    result whose status is Infeasible it prints one number per region and a
    total cost, and no other message; when the solver left no values it stops
    with a [TypeError] after the heading. *)
Theorem report2_prints_numbers_when_infeasible :
  (forall rs p s s' vals,
      report2 rs p (mkResult s vals) = report2 rs p (mkResult s' vals)) /\
  solves sample_prob2 infeasible_with_values /\
  (exists total,
      total == 543496.4706 /\
      report2 sample_regioes sample_prob2 infeasible_with_values
      = mkOut [ [Text "=== CONSULTA 2: OTIMIZAÇÃO DE PORTFÓLIO POR REGIÃO ==="];
                [Text "Clientes da região "; Text "Sul"; Text ": "; Int 15];
                [Text "Clientes da região "; Text "Norte"; Text ": "; Int 15];
                [Text "Clientes da região "; Text "Centro"; Text ": "; Int 20];
                [Text "Custo total estimado: $"; Fmt ",.2f" total];
                separator ]
              (Ok tt)) /\
  report2 sample_regioes sample_prob2 infeasible_without_values
  = mkOut [ [Text "=== CONSULTA 2: OTIMIZAÇÃO DE PORTFÓLIO POR REGIÃO ==="] ]
          (Raise TypeError).
Proof.
  split; [reflexivity|]. split; [|split].
  - apply solves_infeasible; [reflexivity|].
    apply sample_prob2_infeasible.
  - eexists. split; [|vm_compute; reflexivity]. vm_compute. reflexivity.
  - vm_compute. reflexivity.
Qed.

(** ** Which variables an expression mentions *)

Lemma mapM_Forall2 {A B} (f : A -> result B) l bs :
  mapM f l = Ok bs -> Forall2 (fun i b => f i = Ok b) l bs.
Proof.
  revert bs. induction l as [|i l IH]; simpl; intros bs.
  - intros [= <-]. constructor.
  - destruct (f i) as [b|] eqn:E; simpl; [|discriminate].
    destruct (mapM f l) as [bs'|]; simpl; [|discriminate].
    intros [= <-]. constructor; [exact E | now apply IH].
Qed.

Lemma mapM_elem {A B} (f : A -> result B) l bs b :
  mapM f l = Ok bs -> In b bs -> exists i, In i l /\ f i = Ok b.
Proof.
  intros H. apply mapM_Forall2 in H. induction H as [|i b' l bs Hib HF IH].
  - intros [].
  - intros [<- | Hb].
    + exists i. split; [now left | exact Hib].
    + destruct (IH Hb) as (i' & Hi' & E). exists i'. split; [now right | exact E].
Qed.

Lemma vars_addterm v c ts u :
  In u (map fst (addterm v c ts)) -> u = v \/ In u (map fst ts).
Proof.
  induction ts as [|[v' c'] ts IH]; simpl.
  - intros [<- | []]. now left.
  - destruct (String.eqb (name v') (name v)); simpl.
    + intros [<- | H]; right; [now left | now right].
    + intros [<- | H]; [right; now left|].
      destruct (IH H) as [-> | H']; [now left | right; now right].
Qed.

Lemma vars_addterms ts other u :
  In u (map fst (addterms ts other)) -> In u (map fst ts) \/ In u (map fst other).
Proof.
  unfold addterms. revert ts.
  induction other as [|[v c] other IH]; intros ts; simpl.
  - now left.
  - intros H. destruct (IH _ H) as [H' | H'].
    + apply vars_addterm in H'. destruct H' as [-> | H']; [right; now left | now left].
    + right. now right.
Qed.

Lemma vars_addInPlace e other u :
  In u (vars (addInPlace e other)) -> In u (vars e) \/ In u (vars other).
Proof. apply vars_addterms. Qed.

Lemma vars_subInPlace e other u :
  In u (vars (subInPlace e other)) -> In u (vars e) \/ In u (vars other).
Proof.
  unfold vars, subInPlace. cbn [terms]. intros H.
  apply vars_addterms in H. rewrite map_map in H. exact H.
Qed.

Lemma vars_lpSum es u :
  In u (vars (lpSum es)) -> exists e, In e es /\ In u (vars e).
Proof.
  unfold lpSum.
  assert (forall e0, In u (vars (fold_left addInPlace es e0)) ->
                     In u (vars e0) \/ exists e, In e es /\ In u (vars e)) as G.
  { induction es as [|e es IH]; intros e0; simpl.
    - now left.
    - intros H. destruct (IH _ H) as [H' | (e' & He' & Hu)].
      + apply vars_addInPlace in H'. destruct H' as [H' | H'].
        * now left.
        * right. exists e. split; [now left | exact H'].
      + right. exists e'. split; [now right | exact Hu]. }
  intros H. destruct (G _ H) as [[] | H']. exact H'.
Qed.

Lemma vars_mul e k u : In u (vars (mul e k)) -> In u (vars e).
Proof.
  unfold mul, vars. destruct (Qeq_bool k 0); cbn [terms empty_expr].
  - intros [].
  - rewrite map_map. exact (fun H => H).
Qed.

Lemma vars_div e k u : In u (vars (div e k)) -> In u (vars e).
Proof. unfold div, vars. cbn [terms]. rewrite map_map. exact (fun H => H). Qed.

Lemma vars_of_var v u : In u (vars (of_var v)) -> u = v.
Proof. intros [<- | []]. reflexivity. Qed.

Lemma vars_lpSum_of_vars {A} (f : A -> LpVariable) l u :
  In u (vars (lpSum (map (fun i => of_var (f i)) l))) -> exists i, In i l /\ u = f i.
Proof.
  intros H. apply vars_lpSum in H. destruct H as (e & He & Hu).
  apply in_map_iff in He. destruct He as (i & <- & Hi).
  apply vars_of_var in Hu. eauto.
Qed.

(** ** Consulta 6: the feasible assignments of the network model *)

Lemma in_pairs i j :
  In (i, j) pairs <-> (i < n_clientes_sample)%nat /\ (j < n_centros)%nat.
Proof.
  unfold pairs. rewrite in_flat_map. split.
  - intros (i' & Hi & Hj). apply in_map_iff in Hj. destruct Hj as (j' & [= <- <-] & Hj).
    apply in_seq in Hi, Hj. lia.
  - intros [Hi Hj]. exists i. split; [apply in_seq; lia|].
    apply in_map_iff. exists j. split; [reflexivity | apply in_seq; lia].
Qed.

Lemma vars_w_le_z i j : vars (expr (le (of_var (w i j)) (of_var (z j)))) = [w i j; z j].
Proof. reflexivity. Qed.

Lemma eval_w_le_z a i j :
  holds a (le (of_var (w i j)) (of_var (z j))) <-> a (name (w i j)) <= a (name (z j)).
Proof.
  unfold holds. cbn [csense expr le].
  rewrite eval_subInPlace, !eval_of_var. split; intros; lra.
Qed.

Lemma constraints6_spec a :
  Forall (holds a) constraints6 <->
  (forall i, (i < n_clientes_sample)%nat -> assigned_count a i == 1) /\
  (forall i j, (i < n_clientes_sample)%nat -> (j < n_centros)%nat ->
               a (name (w i j)) <= a (name (z j))) /\
  2 <= open_count a /\ open_count a <= 4.
Proof.
  unfold constraints6. rewrite !Forall_app, Forall_fmap, Forall_flat_map.
  rewrite !Forall_cons, Forall_nil.
  unfold holds at 3 4. cbn [csense expr ge_const le_const].
  rewrite !eval_sub_const, !eval_lpSum_vars. fold (open_count a).
  rewrite !List.Forall_forall.
  split.
  - intros (H1 & H2 & H3 & H4 & _). repeat split; try lra.
    + intros i Hi. specialize (H1 i). unfold compose, holds in H1.
      cbn [csense expr eq_const] in H1.
      rewrite eval_sub_const, eval_lpSum_vars in H1. fold (assigned_count a i) in H1.
      assert (assigned_count a i - 1 == 0) by (apply H1, in_seq; lia). lra.
    + intros i j Hi Hj. specialize (H2 i). rewrite Forall_fmap, List.Forall_forall in H2.
      apply eval_w_le_z. apply (H2 ltac:(apply in_seq; lia) j). apply in_seq. lia.
  - intros (H1 & H2 & H3 & H4). repeat split; try lra.
    + intros i Hi. apply in_seq in Hi. unfold compose, holds.
      cbn [csense expr eq_const].
      rewrite eval_sub_const, eval_lpSum_vars. fold (assigned_count a i).
      rewrite (H1 i) by lia. reflexivity.
    + intros i Hi. apply in_seq in Hi. rewrite Forall_fmap, List.Forall_forall.
      intros j Hj. apply in_seq in Hj. apply eval_w_le_z. apply H2; lia.
Qed.

Lemma prob6_inv d p :
  prob6 d = Ok p ->
  constraints p = constraints6 /\ sense p = LpMinimize /\
  forall u, In u (vars (objective p)) ->
    (exists i j, In (i, j) pairs /\ u = w i j) \/
    (exists j, In j (seq 0 n_centros) /\ u = z j).
Proof.
  unfold prob6. destruct (mapM _ pairs) as [dist|] eqn:E; simpl; [|discriminate].
  intros [= <-]. cbn [constraints sense objective]. repeat split.
  intros u Hu. apply vars_addInPlace in Hu. destruct Hu as [Hu | Hu].
  - left. apply vars_lpSum in Hu. destruct Hu as (e & He & Hu).
    destruct (mapM_elem _ _ _ _ E He) as ([i j] & Hij & Ee).
    destruct (dist_get d (i, j)); simpl in Ee; [|discriminate].
    injection Ee as <-. apply vars_mul, vars_of_var in Hu.
    exists i, j. split; [exact Hij | exact Hu].
  - right. apply vars_lpSum in Hu. destruct Hu as (e & He & Hu).
    change (In e (map (fun j => mul (of_var (z j)) custo_fixo_centro) (seq 0 n_centros)))
      in He.
    apply in_map_iff in He. destruct He as (j & <- & Hj).
    apply vars_mul, vars_of_var in Hu. exists j. split; [exact Hj | exact Hu].
Qed.

Lemma constraints6_vars u :
  In u (flat_map (fun c => map fst (terms (expr c))) constraints6) ->
  (exists i j, In (i, j) pairs /\ u = w i j) \/
  (exists j, In j (seq 0 n_centros) /\ u = z j).
Proof.
  rewrite in_flat_map. intros (c & Hc & Hu). unfold constraints6 in Hc.
  rewrite !in_app_iff in Hc. destruct Hc as [Hc | [Hc | Hc]].
  - apply in_map_iff in Hc. destruct Hc as (i & <- & Hi).
    apply (vars_lpSum_of_vars (w i)) in Hu. destruct Hu as (j & Hj & ->).
    left. exists i, j. split; [|reflexivity]. apply in_pairs.
    apply in_seq in Hi, Hj. lia.
  - apply in_flat_map in Hc. destruct Hc as (i & Hi & Hc).
    apply in_map_iff in Hc. destruct Hc as (j & <- & Hj).
    change (In u (vars (expr (le (of_var (w i j)) (of_var (z j)))))) in Hu.
    rewrite vars_w_le_z in Hu. destruct Hu as [<- | [<- | []]].
    + left. exists i, j. split; [|reflexivity]. apply in_pairs.
      apply in_seq in Hi, Hj. lia.
    + right. exists j. split; [exact Hj | reflexivity].
  - right. destruct Hc as [<- | [<- | []]];
      apply (vars_lpSum_of_vars z) in Hu; destruct Hu as (j & Hj & ->);
      exists j; (split; [exact Hj | reflexivity]).
Qed.

Lemma w_z_in_constraints6 i j :
  (i < n_clientes_sample)%nat -> (j < n_centros)%nat ->
  In (w i j) (flat_map (fun c => map fst (terms (expr c))) constraints6) /\
  In (z j) (flat_map (fun c => map fst (terms (expr c))) constraints6).
Proof.
  intros Hi Hj.
  assert (In (le (of_var (w i j)) (of_var (z j))) constraints6) as Hc.
  { unfold constraints6. rewrite !in_app_iff. right. left.
    apply in_flat_map. exists i. split; [apply in_seq; lia|].
    apply in_map_iff. exists j. split; [reflexivity | apply in_seq; lia]. }
  split; apply in_flat_map; exists (le (of_var (w i j)) (of_var (z j)));
    (split; [exact Hc|]).
  - left. reflexivity.
  - right. left. reflexivity.
Qed.

(** The feasible assignments of the network model are exactly the 0/1
    assignments that serve every client from one center, only from open
    centers, with two to four centers open. *)
Lemma network_feasible_iff d p a :
  prob6 d = Ok p ->
  feasible p a <->
  (forall i j, (i < n_clientes_sample)%nat -> (j < n_centros)%nat ->
               a (name (w i j)) == 0 \/ a (name (w i j)) == 1) /\
  (forall j, (j < n_centros)%nat -> a (name (z j)) == 0 \/ a (name (z j)) == 1) /\
  (forall i, (i < n_clientes_sample)%nat -> assigned_count a i == 1) /\
  (forall i j, (i < n_clientes_sample)%nat -> (j < n_centros)%nat ->
               a (name (w i j)) <= a (name (z j))) /\
  2 <= open_count a /\ open_count a <= 4.
Proof.
  intros Hp. destruct (prob6_inv d p Hp) as (Ec & _ & Hobj).
  unfold feasible, variables. rewrite Ec, constraints6_spec, Forall_app.
  rewrite !List.Forall_forall. split.
  - intros [[_ Hdom] Hcs]. split; [|split]; [| |exact Hcs].
    + intros i j Hi Hj. apply (binary_domain a _ None None).
      apply Hdom. now apply w_z_in_constraints6.
    + intros j Hj. apply (binary_domain a _ None None).
      apply Hdom. apply (w_z_in_constraints6 0 j); [unfold n_clientes_sample; lia | exact Hj].
  - intros (Hw & Hz & Hcs). split; [|exact Hcs].
    assert (forall u,
      (exists i j, In (i, j) pairs /\ u = w i j) \/
      (exists j, In j (seq 0 n_centros) /\ u = z j) -> in_domain a u) as D.
    { intros u [(i & j & Hij & ->) | (j & Hj & ->)]; apply in_domain_binary.
      - apply in_pairs in Hij. now apply Hw.
      - apply in_seq in Hj. apply Hz. lia. }
    split; intros u Hu; apply D; [now apply Hobj | now apply constraints6_vars].
Qed.



Lemma one_center_binary n : one_center n == 0 \/ one_center n == 1.
Proof.
  unfold one_center. repeat case_bool_decide; (left; reflexivity) || (right; reflexivity).
Qed.






(** ** Binary variables of the models *)

Lemma prob_vars df p v :
  prob df = Ok p -> In v (variables p) -> exists i, In i (clientes df) /\ v = x i.
Proof.
  unfold prob.
  destruct (mapM (fun i => r ← loc_num df i "receita"; Ok (mul (of_var (x i)) r))
                 (clientes df)) as [receitas|] eqn:E1; simpl; [|discriminate].
  destruct (mapM (fun i => r ← loc_num df i "custo"; Ok (mul (of_var (x i)) r))
                 (clientes df)) as [custos|] eqn:E2; simpl; [|discriminate].
  intros [= <-]. unfold variables. cbn [objective constraints flat_map].
  rewrite app_nil_r, in_app_iff.
  assert (forall c es,
    mapM (fun i => r ← loc_num df i c; Ok (mul (of_var (x i)) r)) (clientes df) = Ok es ->
    In v (vars (lpSum es)) -> exists i, In i (clientes df) /\ v = x i) as G.
  { intros c es E Hv. apply vars_lpSum in Hv. destruct Hv as (e & He & Hv).
    destruct (mapM_elem _ _ _ _ E He) as (i & Hi & Ee).
    destruct (loc_num df i c); simpl in Ee; [|discriminate].
    injection Ee as <-. apply vars_mul, vars_of_var in Hv. eauto. }
  intros [Hv | Hv].
  - exact (G _ _ E1 Hv).
  - apply vars_subInPlace in Hv. destruct Hv as [Hv | Hv].
    + exact (G _ _ E2 Hv).
    + apply vars_mul, (vars_lpSum_of_vars x) in Hv.
      destruct Hv as (i & Hi & ->). eauto.
Qed.

Lemma prob6_vars d p v :
  prob6 d = Ok p -> In v (variables p) ->
  (exists i j, In (i, j) pairs /\ v = w i j) \/
  (exists j, In j (seq 0 n_centros) /\ v = z j).
Proof.
  intros Hp. destruct (prob6_inv d p Hp) as (Ec & _ & Hobj).
  unfold variables. rewrite Ec, in_app_iff. intros [Hv | Hv].
  - now apply Hobj.
  - now apply constraints6_vars.
Qed.

(** C5, as stated: creating a Binary variable with bounds other than 0 and
    1 fails.  It does not: the constructor returns a variable, whose bounds
    it has replaced by 0 and 1. *)
Lemma binary_bounds_not_rejected :
  LpVariable_init "v" (Some 2) (Some 5) LpBinary = mkVar "v" (Some 0) (Some 1) LpInteger.
Proof. reflexivity. Qed.

(** C5, amended: creating a Binary variable never fails; whatever bounds are
    passed, the variable gets lower bound 0 and upper bound 1 and takes only
    the values 0 and 1.  Every variable of the selection model and of the
    network model (the models with Binary variables) has lower bound exactly
    0 and upper bound exactly 1. *)
Theorem binary_variables_unit_bounds :
  (forall n lb ub,
      lowBound (LpVariable_init n lb ub LpBinary) = Some 0 /\
      upBound (LpVariable_init n lb ub LpBinary) = Some 1 /\
      forall a, in_domain a (LpVariable_init n lb ub LpBinary)
                <-> a n == 0 \/ a n == 1) /\
  (forall df p v, prob df = Ok p -> In v (variables p) ->
                  lowBound v = Some 0 /\ upBound v = Some 1) /\
  (forall d p v, prob6 d = Ok p -> In v (variables p) ->
                 lowBound v = Some 0 /\ upBound v = Some 1).
Proof.
  split; [|split].
  - intros n lb ub. split; [reflexivity|]. split; [reflexivity|].
    intros a. split; [apply binary_domain | apply in_domain_binary].
  - intros df p v Hp Hv. destruct (prob_vars df p v Hp Hv) as (i & _ & ->).
    split; reflexivity.
  - intros d p v Hp Hv.
    destruct (prob6_vars d p v Hp Hv) as [(i & j & _ & ->) | (j & _ & ->)];
      split; reflexivity.
Qed.

(** ** The sum of expressions as a linear form *)

Lemma coefficient_cons t ts k n :
  coefficient (mkExpr (t :: ts) k) n
  = if String.eqb (name (fst t)) n then snd t + coefficient (mkExpr ts k) n
    else coefficient (mkExpr ts k) n.
Proof. reflexivity. Qed.

Lemma coefficient_const ts k k' n :
  coefficient (mkExpr ts k) n = coefficient (mkExpr ts k') n.
Proof. reflexivity. Qed.

Lemma coefficient_addterm v c ts k n :
  coefficient (mkExpr (addterm v c ts) k) n
  == coefficient (mkExpr ts k) n + (if String.eqb (name v) n then c else 0).
Proof.
  induction ts as [|[v' c'] ts IH]; simpl addterm.
  - rewrite coefficient_cons. simpl fst; simpl snd.
    destruct (String.eqb (name v) n); unfold coefficient; simpl; ring.
  - destruct (String.eqb (name v') (name v)) eqn:E.
    + apply String.eqb_eq in E. rewrite !coefficient_cons. simpl fst; simpl snd.
      rewrite E. destruct (String.eqb (name v) n); ring.
    + rewrite !coefficient_cons. simpl fst; simpl snd.
      destruct (String.eqb (name v') n); rewrite IH; ring.
Qed.

Lemma coefficient_addterms ts other k n :
  coefficient (mkExpr (addterms ts other) k) n
  == coefficient (mkExpr ts k) n + coefficient (mkExpr other k) n.
Proof.
  unfold addterms. revert ts.
  induction other as [|[v c] other IH]; intros ts; simpl fold_left.
  - unfold coefficient at 3. simpl. ring.
  - rewrite IH, coefficient_addterm, (coefficient_cons (v, c)). simpl fst; simpl snd.
    destruct (String.eqb (name v) n); ring.
Qed.

Lemma coefficient_eta e n : coefficient e n = coefficient (mkExpr (terms e) 0) n.
Proof. reflexivity. Qed.

Lemma coefficient_addInPlace e other n :
  coefficient (addInPlace e other) n == coefficient e n + coefficient other n.
Proof.
  unfold addInPlace. rewrite coefficient_addterms.
  rewrite (coefficient_eta e), (coefficient_eta other). reflexivity.
Qed.

Lemma coefficient_fold es e0 n :
  coefficient (fold_left addInPlace es e0) n
  == coefficient e0 n + Pandas.sum (map (fun e => coefficient e n) es).
Proof.
  revert e0. induction es as [|e es IH]; intros e0; simpl.
  - ring.
  - rewrite IH, coefficient_addInPlace. ring.
Qed.

Lemma coefficient_lpSum es n :
  coefficient (lpSum es) n == Pandas.sum (map (fun e => coefficient e n) es).
Proof.
  unfold lpSum. rewrite coefficient_fold. unfold coefficient at 1. simpl. ring.
Qed.

Lemma constant_fold es e0 :
  constant (fold_left addInPlace es e0) == constant e0 + Pandas.sum (map constant es).
Proof.
  revert e0. induction es as [|e es IH]; intros e0; simpl.
  - ring.
  - rewrite IH. simpl. ring.
Qed.

Lemma constant_lpSum es : constant (lpSum es) == Pandas.sum (map constant es).
Proof. unfold lpSum. rewrite constant_fold. simpl. ring. Qed.

Lemma sum_Permutation (l l' : list Q) : Permutation l l' -> Pandas.sum l == Pandas.sum l'.
Proof.
  induction 1 as [|q l l' _ IH|q q' l|l l' l'' _ IH1 _ IH2]; simpl.
  - reflexivity.
  - unfold Pandas.sum in IH. rewrite IH. reflexivity.
  - ring.
  - rewrite IH1. exact IH2.
Qed.

(** Over the rationals, where no addition rounds, [lpSum] is commutative
    and associative as a linear form: the coefficient of every variable and
    the constant agree, and in any order of construction the sum has, for
    every variable, the sum of the coefficients of the summands.  This is the
    mathematical sum; the sums PuLP computes on Python floats are those of
    [Float64], treated below. *)
Lemma lpSum_over_rationals :
  (forall a b, same_form (lpSum [a; b]) (lpSum [b; a])) /\
  (forall a b c, same_form (lpSum [lpSum [a; b]; c]) (lpSum [a; lpSum [b; c]])) /\
  (forall es,
      (forall n, coefficient (lpSum es) n
                 == Pandas.sum (map (fun e => coefficient e n) es)) /\
      constant (lpSum es) == Pandas.sum (map constant es)) /\
  (forall es es', Permutation es es' -> same_form (lpSum es) (lpSum es')).
Proof.
  split; [|split; [|split]].
  - intros a b. split.
    + intros n. rewrite !coefficient_lpSum. unfold Pandas.sum. cbn [map fold_right]. ring.
    + rewrite !constant_lpSum. unfold Pandas.sum. cbn [map fold_right]. ring.
  - intros a b c. split.
    + intros n. rewrite !coefficient_lpSum. unfold Pandas.sum. cbn [map fold_right].
      rewrite !coefficient_lpSum. unfold Pandas.sum. cbn [map fold_right]. ring.
    + rewrite !constant_lpSum. unfold Pandas.sum. cbn [map fold_right].
      rewrite !constant_lpSum. unfold Pandas.sum. cbn [map fold_right]. ring.
  - intros es. split; [intros n; apply coefficient_lpSum | apply constant_lpSum].
  - intros es es' HP. split.
    + intros n. rewrite !coefficient_lpSum. apply sum_Permutation.
      now apply Permutation_map.
    + rewrite !constant_lpSum. apply sum_Permutation. now apply Permutation_map.
Qed.

(** ** Sums of expressions in binary64 *)

Lemma SFadd_comm prec emax a b : SpecFloat.SFadd prec emax a b = SpecFloat.SFadd prec emax b a.
Proof.
  destruct a as [sa|sa| |sa ma ea], b as [sb|sb| |sb mb eb]; try reflexivity;
    try (destruct sa, sb; reflexivity).
  unfold SpecFloat.SFadd. rewrite (Z.min_comm ea eb), Z.add_comm. reflexivity.
Qed.

Lemma float_add_comm (a b : float) : (a + b = b + a)%float.
Proof. apply Prim2SF_inj. rewrite !add_spec. apply SFadd_comm. Qed.

Lemma float_add_zero_swap (a b : float) : (0 + a + b = 0 + b + a)%float.
Proof.
  apply Prim2SF_inj. rewrite !add_spec.
  change (Prim2SF 0) with (SpecFloat.S754_zero false).
  unfold SF64add.
  destruct (Prim2SF a) as [sa|sa| |sa ma ea], (Prim2SF b) as [sb|sb| |sb mb eb];
    try reflexivity; try (destruct sa; reflexivity); try (destruct sb; reflexivity);
    try (destruct sa, sb; reflexivity).
  exact (SFadd_comm prec emax (SpecFloat.S754_finite sa ma ea) (SpecFloat.S754_finite sb mb eb)).
Qed.

Section Binary64Sums.

Import Float64.

Lemma get_None ts n : ~ In n (map (fun t => name (fst t)) ts) -> get ts n = None.
Proof.
  induction ts as [|[v c] ts IH]; cbn [get map fst]; [reflexivity|].
  intros H. destruct (String.eqb (name v) n) eqn:E.
  - apply String.eqb_eq in E. exfalso. apply H. now left.
  - apply IH. intros H'. apply H. now right.
Qed.

Lemma get_addterm v c ts n :
  get (addterm v c ts) n
  = if String.eqb (name v) n
    then Some (match get ts n with Some c' => (c' + c)%float | None => c end)
    else get ts n.
Proof.
  induction ts as [|[v' c'] ts IH]; cbn [addterm get].
  - reflexivity.
  - destruct (String.eqb (name v') (name v)) eqn:E; cbn [get].
    + apply String.eqb_eq in E. rewrite E. destruct (String.eqb (name v) n); reflexivity.
    + rewrite IH. destruct (String.eqb (name v') n) eqn:E'; [|reflexivity].
      apply String.eqb_eq in E'. subst n.
      rewrite String.eqb_sym, E. reflexivity.
Qed.

Lemma get_addterms ts other n :
  NoDup (map (fun t => name (fst t)) other) ->
  get (addterms ts other) n
  = match get other n with
    | Some c => Some (match get ts n with Some c' => (c' + c)%float | None => c end)
    | None => get ts n
    end.
Proof.
  unfold addterms. revert ts.
  induction other as [|[v c] other IH]; intros ts ND; cbn [fold_left get fst snd map] in *.
  - reflexivity.
  - apply NoDup_cons in ND. destruct ND as [Hv ND]. rewrite (IH _ ND), get_addterm.
    destruct (String.eqb (name v) n) eqn:E.
    + apply String.eqb_eq in E. subst n.
      rewrite get_None; [reflexivity|]. intros H. apply Hv. now apply list_elem_of_In.
    + reflexivity.
Qed.

Lemma coefficient_lpSum_two a b n :
  NoDup (names a) -> NoDup (names b) ->
  coefficient (lpSum [a; b]) n
  = match coefficient b n with
    | Some cb => Some (match coefficient a n with Some ca => (ca + cb)%float | None => cb end)
    | None => coefficient a n
    end.
Proof.
  intros Ha Hb. unfold coefficient, lpSum. cbn [fold_left addInPlace terms empty_expr].
  rewrite (get_addterms _ _ n Hb), (get_addterms _ _ n Ha). cbn [get].
  destruct (get (terms a) n); reflexivity.
Qed.

Lemma names64_addterm v c ts n :
  In n (map (fun t => name (fst t)) (addterm v c ts))
  <-> In n (map (fun t => name (fst t)) ts) \/ n = name v.
Proof.
  induction ts as [|[v' c'] ts IH]; cbn [addterm map fst].
  - cbn. intuition.
  - destruct (String.eqb (name v') (name v)) eqn:E; cbn [map fst In].
    + apply String.eqb_eq in E. rewrite <- E. intuition.
    + rewrite IH. intuition.
Qed.

Lemma names64_addterms ts other n :
  In n (map (fun t => name (fst t)) (addterms ts other))
  <-> In n (map (fun t => name (fst t)) ts) \/ In n (map (fun t => name (fst t)) other).
Proof.
  unfold addterms. revert ts.
  induction other as [|[v c] other IH]; intros ts; cbn [fold_left map fst snd In].
  - intuition.
  - rewrite IH, names64_addterm. intuition.
Qed.

Lemma names64_lpSum es n :
  In n (names (lpSum es)) <-> exists e, In e es /\ In n (names e).
Proof.
  unfold lpSum.
  assert (forall e0, In n (names (fold_left addInPlace es e0))
                     <-> In n (names e0) \/ exists e, In e es /\ In n (names e)) as G.
  { induction es as [|e es IH]; intros e0; cbn [fold_left].
    - split; [now left | intros [H | (e & [] & _)]; exact H].
    - rewrite IH. unfold names at 1, addInPlace. cbn [terms]. rewrite names64_addterms.
      fold (names e0). fold (names e). split.
      + intros [[H | H] | (e' & He' & H)].
        * now left.
        * right. exists e. split; [now left | exact H].
        * right. exists e'. split; [now right | exact H].
      + intros [H | (e' & [<- | He'] & H)].
        * left. now left.
        * left. now right.
        * right. exists e'. split; assumption. }
  rewrite G. cbn. split; [intros [[] | H]; exact H | now right].
Qed.

End Binary64Sums.

(** C7, as claimed, fails for the sums PuLP computes: coefficients are added
    in binary64 in the order in which the summands arrive.  With [a = 0.1 x],
    [b = 0.2 x], [c = 0.3 x], the sum of [sum([a, b])] and [c] has coefficient
    0.6000000000000001 and the sum of [a] and [sum([b, c])] has 0.6; the list
    [[a, b, c]] gives 0.6000000000000001 and its permutation [[b, c, a]]
    gives 0.6.  So neither associativity nor independence of the order of
    construction holds for the coefficient mapping. *)
Theorem lpSum_binary64_not_associative :
  (Float64.coefficient (Float64.lpSum [Float64.lpSum [tenth_x; fifth_x]; three_tenths_x]) "x_0"
   = Some 0.6000000000000001%float /\
   Float64.coefficient (Float64.lpSum [tenth_x; Float64.lpSum [fifth_x; three_tenths_x]]) "x_0"
   = Some 0.6%float /\
   Float64.coefficient (Float64.lpSum [tenth_x; fifth_x; three_tenths_x]) "x_0"
   = Some 0.6000000000000001%float /\
   Float64.coefficient (Float64.lpSum [fifth_x; three_tenths_x; tenth_x]) "x_0"
   = Some 0.6%float /\
   (0.6000000000000001 =? 0.6)%float = false) /\
  ~ (forall a b c,
       NoDup (Float64.names a) -> NoDup (Float64.names b) -> NoDup (Float64.names c) ->
       Float64.same_form (Float64.lpSum [Float64.lpSum [a; b]; c])
                   (Float64.lpSum [a; Float64.lpSum [b; c]])) /\
  ~ (forall es es', Permutation es es' ->
       Float64.same_form (Float64.lpSum es) (Float64.lpSum es')).
Proof.
  assert (forall o : option float,
            o = Some 0.6%float ->
            o = Some 0.6000000000000001%float -> False) as Hne.
  { intros o -> E.
    apply (f_equal (fun o => match o with
                             | Some f => (f =? 0.6)%float
                             | None => false
                             end)) in E.
    vm_compute in E. discriminate E. }
  split; [|split].
  - repeat split; vm_compute; reflexivity.
  - intros H.
    destruct (H tenth_x fifth_x three_tenths_x) as [Hc _];
      try (refine (bool_decide_unpack _ _); vm_compute; exact I).
    specialize (Hc "x_0").
    apply (Hne (Float64.coefficient
                  (Float64.lpSum [tenth_x; Float64.lpSum [fifth_x; three_tenths_x]]) "x_0")).
    + vm_compute. reflexivity.
    + rewrite <- Hc. vm_compute. reflexivity.
  - intros H.
    destruct (H [tenth_x; fifth_x; three_tenths_x] [fifth_x; three_tenths_x; tenth_x])
      as [Hc _].
    { apply (Permutation_cons_append [fifth_x; three_tenths_x] tenth_x). }
    specialize (Hc "x_0").
    apply (Hne (Float64.coefficient
                  (Float64.lpSum [fifth_x; three_tenths_x; tenth_x]) "x_0")).
    + vm_compute. reflexivity.
    + rewrite <- Hc. vm_compute. reflexivity.
Qed.

(** C7, amended: for two expressions [a] and [b] (dictionaries, so without
    repeated keys), [sum([a, b])] and [sum([b, a])] are identical: every key
    holds the same binary64 coefficient and the constants are equal.  For any
    summands, the set of variables of the sum depends neither on their order
    nor on their grouping. *)
Theorem lpSum_binary64_commutative (a b : Float64.LpAffineExpression) :
  NoDup (Float64.names a) -> NoDup (Float64.names b) ->
  Float64.same_form (Float64.lpSum [a; b]) (Float64.lpSum [b; a]) /\
  (forall es es' n, Permutation es es' ->
     In n (Float64.names (Float64.lpSum es)) <-> In n (Float64.names (Float64.lpSum es'))) /\
  (forall c n,
     In n (Float64.names (Float64.lpSum [Float64.lpSum [a; b]; c]))
     <-> In n (Float64.names (Float64.lpSum [a; Float64.lpSum [b; c]]))).
Proof.
  intros Ha Hb. split; [split|split].
  - intros n. rewrite (coefficient_lpSum_two a b n Ha Hb), (coefficient_lpSum_two b a n Hb Ha).
    destruct (Float64.coefficient a n) as [ca|], (Float64.coefficient b n) as [cb|];
      try reflexivity.
    now rewrite float_add_comm.
  - cbn. apply float_add_zero_swap.
  - intros es es' n HP. rewrite !names64_lpSum. split; intros (e & He & Hn); exists e; split;
      try exact Hn; [exact (Permutation_in _ HP He) | exact (Permutation_in _ (Permutation_sym HP) He)].
  - intros c n. rewrite !names64_lpSum. split.
    + intros (e & [<- | [<- | []]] & Hn).
      * apply names64_lpSum in Hn. destruct Hn as (e & [<- | [<- | []]] & Hn).
        -- exists a. split; [now left | exact Hn].
        -- exists (Float64.lpSum [b; c]). split; [right; now left|].
           apply names64_lpSum. exists b. split; [now left | exact Hn].
      * exists (Float64.lpSum [b; c]). split; [right; now left|].
        apply names64_lpSum. exists c. split; [right; now left | exact Hn].
    + intros (e & [<- | [<- | []]] & Hn).
      * exists (Float64.lpSum [a; b]). split; [now left|].
        apply names64_lpSum. exists a. split; [now left | exact Hn].
      * apply names64_lpSum in Hn. destruct Hn as (e & [<- | [<- | []]] & Hn).
        -- exists (Float64.lpSum [a; b]). split; [now left|].
           apply names64_lpSum. exists b. split; [right; now left | exact Hn].
        -- exists c. split; [right; now left | exact Hn].
Qed.

Lemma lpSum_binary64_commutative_witness :
  Float64.same_form (Float64.lpSum [sample_a; sample_b]) (Float64.lpSum [sample_b; sample_a]) /\
  Float64.coefficient (Float64.lpSum [sample_a; sample_b]) "x_1" = Some 0.5%float.
Proof.
  split; [|vm_compute; reflexivity].
  apply (lpSum_binary64_commutative sample_a sample_b);
    refine (bool_decide_unpack _ _); vm_compute; exact I.
Defined.

(** ** Consulta 5: the marketing budget *)

Lemma in_domain_lower_bound a n :
  in_domain a (mkVar n (Some 0) None LpContinuous) <-> 0 <= a n.
Proof.
  unfold in_domain. cbn [lowBound upBound cat name]. split.
  - intros (H & _ & _). now apply H.
  - intros H. repeat split; [intros l [= <-]; exact H | discriminate | congruence].
Qed.

Lemma prob5_built : prob5 = Ok prob5_model.
Proof. vm_compute. reflexivity. Qed.

Lemma prob5_feasible a :
  feasible prob5_model a <->
  let d := a "orcamento_Digital" in
  let t := a "orcamento_TV" in
  let r := a "orcamento_Radio" in
  let i := a "orcamento_Impresso" in
  d + t + r + i <= 500000 /\
  20000 <= d /\ 20000 <= t /\ 20000 <= r /\ 20000 <= i /\
  d <= 0.4 * (d + t + r + i) /\ t <= 0.4 * (d + t + r + i) /\
  r <= 0.4 * (d + t + r + i) /\ i <= 0.4 * (d + t + r + i).
Proof.
  unfold feasible, prob5_model, variables.
  cbn [objective constraints terms expr map fst flat_map app].
  rewrite !Forall_cons, !Forall_nil, !in_domain_lower_bound.
  unfold holds. cbn [csense expr eval terms constant fold_right fst snd name].
  cbv zeta. split; intros H; decompose [and] H; clear H; repeat split; lra.
Qed.

Lemma prob5_objective a :
  eval a (objective prob5_model)
  == 0.003 * a "orcamento_Digital" + 0.0004 * a "orcamento_TV"
     + (1 # 750) * a "orcamento_Radio" + 0.0005 * a "orcamento_Impresso".
Proof.
  unfold prob5_model. cbn [objective eval terms constant fold_right fst snd name].
  ring.
Qed.

Lemma prob5_optimal a :
  optimal prob5_model a <->
  a "orcamento_Digital" == 200000 /\ a "orcamento_Radio" == 200000 /\
  a "orcamento_Impresso" == 80000 /\ a "orcamento_TV" == 20000.
Proof.
  unfold optimal. change (sense prob5_model) with LpMaximize. unfold better. split.
  - intros [Hf Hopt].
    assert (feasible prob5_model best_split) as F
      by (apply feasibleb_spec; vm_compute; reflexivity).
    specialize (Hopt _ F). rewrite !prob5_objective in Hopt.
    change (best_split "orcamento_Digital") with 200000 in Hopt.
    change (best_split "orcamento_TV") with 20000 in Hopt.
    change (best_split "orcamento_Radio") with 200000 in Hopt.
    change (best_split "orcamento_Impresso") with 80000 in Hopt.
    apply prob5_feasible in Hf. cbv zeta in Hf. decompose [and] Hf. clear Hf.
    repeat split; lra.
  - intros (Ed & Er & Ei & Et). split.
    + apply prob5_feasible. cbv zeta. rewrite Ed, Er, Ei, Et. repeat split; lra.
    + intros b Hb. apply prob5_feasible in Hb. cbv zeta in Hb. decompose [and] Hb. clear Hb.
      rewrite !prob5_objective. rewrite Ed, Er, Ei, Et. lra.
Qed.

(** C10: the marketing model does not depend on the table.  It has exactly
    one optimal assignment: Digital 200000, Radio 200000, Impresso 80000 and
    TV 20000, which spends the whole 500000; the optimal objective value is
    2744/3. *)
Theorem marketing_optimum :
  exists p,
    prob5 = Ok p /\
    (forall a, optimal p a <->
       a "orcamento_Digital" == 200000 /\ a "orcamento_Radio" == 200000 /\
       a "orcamento_Impresso" == 80000 /\ a "orcamento_TV" == 20000) /\
    (forall a, optimal p a -> eval a (objective p) == 2744 # 3) /\
    optimal p best_split.
Proof.
  exists prob5_model. split; [exact prob5_built|]. split; [exact prob5_optimal|]. split.
  - intros a Ha. apply prob5_optimal in Ha. destruct Ha as (Ed & Er & Ei & Et).
    rewrite prob5_objective, Ed, Er, Ei, Et. reflexivity.
  - apply prob5_optimal. repeat split; reflexivity.
Qed.

(** ** Consulta 3: hospital capacity *)

Lemma zip_map_map {A B C D} (f : A -> C) (g : B -> D) (l : list A) (l' : list B) :
  zip (map f l) (map g l') = map (fun p => (f (fst p), g (snd p))) (zip l l').
Proof.
  revert l'. induction l as [|x l IH]; intros [|y l']; simpl; try reflexivity.
  now rewrite IH.
Qed.

Lemma sum_replicate_one n : Pandas.sum (replicate n 1) == inject_Z (Z.of_nat n).
Proof.
  induction n as [|n IH].
  - reflexivity.
  - change (replicate (S n) 1) with (1 :: replicate n 1).
    rewrite Nat2Z.inj_succ. unfold Z.succ. rewrite inject_Z_plus.
    change (Pandas.sum (1 :: replicate n 1)) with (1 + Pandas.sum (replicate n 1)).
    rewrite IH. change (inject_Z 1) with 1. ring.
Qed.

Lemma is_integer_proper q q' : q == q' -> is_integer q -> is_integer q'.
Proof. intros E [k Hk]. exists k. rewrite <- E. exact Hk. Qed.

#[global] Instance is_integer_Proper : Proper (Qeq ==> iff) is_integer.
Proof.
  intros q q' E. split; apply is_integer_proper; [exact E | symmetry; exact E].
Qed.

Lemma count_is_integer {A} (f : A -> bool) (l : list A) :
  is_integer (Pandas.sum (map (fun r => if f r then 1 else 0) l)) /\
  0 <= Pandas.sum (map (fun r => if f r then 1 else 0) l).
Proof.
  induction l as [|r l [[k Hk] Hpos]].
  - split; [exists 0%Z; reflexivity | apply Qle_refl].
  - change (Pandas.sum (map (fun r => if f r then 1 else 0) (r :: l)))
      with ((if f r then 1 else 0) + Pandas.sum (map (fun r => if f r then 1 else 0) l)).
    destruct (f r); split; try lra.
    + exists (1 + k)%Z. rewrite inject_Z_plus, Hk. reflexivity.
    + exists k. rewrite Hk. ring.
Qed.

Lemma eval_custo_capacidade a :
  eval a custo_capacidade
  == 10000 * a "cap_emergencia" + 15000 * a "cap_cirurgia" + 2000 * a "cap_consulta".
Proof.
  unfold custo_capacidade. rewrite !eval_addInPlace, !eval_mul, !eval_of_var.
  reflexivity.
Qed.

Lemma in_domain_capacity a n :
  in_domain a (LpVariable_init n (Some 0) None LpInteger)
  <-> 0 <= a n /\ is_integer (a n).
Proof.
  unfold in_domain. cbn [LpVariable_init lowBound upBound cat name]. split.
  - intros (Hl & _ & Hc). split; [now apply Hl | apply Hc; discriminate].
  - intros [Hl Hc]. repeat split; [intros l [= <-]; exact Hl | discriminate | auto].
Qed.

Lemma capacity_feasible e s c a :
  feasible (capacity_model e s c) a <->
  (0 <= a "cap_emergencia" /\ is_integer (a "cap_emergencia")) /\
  (0 <= a "cap_cirurgia" /\ is_integer (a "cap_cirurgia")) /\
  (0 <= a "cap_consulta" /\ is_integer (a "cap_consulta")) /\
  e <= a "cap_emergencia" /\ s <= a "cap_cirurgia" /\ c <= a "cap_consulta" /\
  10000 * a "cap_emergencia" + 15000 * a "cap_cirurgia" + 2000 * a "cap_consulta"
    <= 2000000.
Proof.
  unfold feasible, variables.
  change (map fst (terms (objective (capacity_model e s c))))
    with [cap_emergencia; cap_cirurgia; cap_consulta].
  change (flat_map (fun c0 => map fst (terms (expr c0))) (constraints (capacity_model e s c)))
    with [cap_emergencia; cap_cirurgia; cap_consulta;
          cap_emergencia; cap_cirurgia; cap_consulta].
  cbn [capacity_model constraints app].
  rewrite !Forall_cons, !Forall_nil.
  unfold cap_emergencia, cap_cirurgia, cap_consulta at 1 2 3.
  rewrite !in_domain_capacity.
  unfold holds. cbn [csense expr ge_const le_const].
  rewrite !eval_sub_const, !eval_of_var, eval_custo_capacidade.
  cbn [name cap_emergencia cap_cirurgia cap_consulta LpVariable_init].
  split; intros H; decompose [and] H; clear H; repeat split; auto; lra.
Qed.

Lemma capacity_optimal e s c a :
  is_integer e -> is_integer s -> is_integer c -> 0 <= e -> 0 <= s -> 0 <= c ->
  10000 * e + 15000 * s + 2000 * c <= 2000000 ->
  optimal (capacity_model e s c) a <->
  a "cap_emergencia" == e /\ a "cap_cirurgia" == s /\ a "cap_consulta" == c.
Proof.
  intros Ie Is Ic He Hs Hc Hb. unfold optimal.
  change (sense (capacity_model e s c)) with LpMinimize. unfold better.
  change (objective (capacity_model e s c)) with custo_capacidade. split.
  - intros [Hf Hopt].
    assert (feasible (capacity_model e s c) (capacities e s c)) as F.
    { apply capacity_feasible.
      change (capacities e s c "cap_emergencia") with e.
      change (capacities e s c "cap_cirurgia") with s.
      change (capacities e s c "cap_consulta") with c.
      repeat split; auto; lra. }
    specialize (Hopt _ F). rewrite !eval_custo_capacidade in Hopt.
    change (capacities e s c "cap_emergencia") with e in Hopt.
    change (capacities e s c "cap_cirurgia") with s in Hopt.
    change (capacities e s c "cap_consulta") with c in Hopt.
    apply capacity_feasible in Hf. decompose [and] Hf. clear Hf.
    repeat split; lra.
  - intros (Ee & Es & Ec). split.
    + apply capacity_feasible. rewrite Ee, Es, Ec.
      repeat split; auto; try lra.
    + intros b Hb'. apply capacity_feasible in Hb'. decompose [and] Hb'. clear Hb'.
      rewrite !eval_custo_capacidade, Ee, Es, Ec. lra.
Qed.

Lemma capacity_infeasible e s c a :
  ~ 10000 * e + 15000 * s + 2000 * c <= 2000000 ->
  ~ feasible (capacity_model e s c) a.
Proof.
  intros Hb Hf. apply capacity_feasible in Hf. decompose [and] Hf. clear Hf.
  apply Hb. lra.
Qed.

Ltac simpl_lookup :=
  repeat first [ rewrite lookup_insert_eq
               | rewrite lookup_insert_ne; [|done]
               | rewrite lookup_delete_ne; [|done] ].

Lemma capacity_pipeline df ages smokers bmis :
  columns df !! "age" = Some (NumCol ages) ->
  columns df !! "smoker" = Some (StrCol smokers) ->
  columns df !! "bmi" = Some (NumCol bmis) ->
  exists df',
    derive3 df = Ok df' /\
    prob3 df' = Ok (capacity_model (demanda_emergencia_total ages smokers)
                                   (demanda_cirurgia_total bmis ages)
                                   (Pandas.sum (replicate (nrows df) 1))).
Proof.
  destruct df as [n cols]. cbn [columns nrows]. intros Ha Hs Hb.
  unfold derive3, getitem, setitem_scalar, setitem, gt, numeric.
  cbn [columns nrows]. rewrite Ha, Hs. cbn [mbind result_bind].
  simpl_lookup. rewrite Ha, Hb. cbn [mbind result_bind].
  eexists. split; [reflexivity|].
  unfold prob3, col_sum, getitem, numeric. cbn [columns nrows].
  simpl_lookup. cbn [mbind result_bind or_astype_int eq_str].
  unfold capacity_model, demanda_emergencia_total, demanda_cirurgia_total.
  rewrite !zip_map_map, !map_map. reflexivity.
Qed.

(** C9: let E, S and C be the table's totals of emergency demand (age over
    50 or smoker), surgery demand (bmi over 35 or age over 60) and
    consultation demand (one per record).  The capacity model is built; if
    10000 E + 15000 S + 2000 C is at most 2000000 its optimal assignments
    are exactly those giving each capacity its demand total, and the optimal
    cost is 10000 E + 15000 S + 2000 C; otherwise no assignment is
    feasible. *)
Theorem capacity_optimum df ages smokers bmis :
  columns df !! "age" = Some (NumCol ages) ->
  columns df !! "smoker" = Some (StrCol smokers) ->
  columns df !! "bmi" = Some (NumCol bmis) ->
  let E := demanda_emergencia_total ages smokers in
  let S := demanda_cirurgia_total bmis ages in
  let C := inject_Z (Z.of_nat (nrows df)) in
  exists df' p,
    derive3 df = Ok df' /\ prob3 df' = Ok p /\
    (10000 * E + 15000 * S + 2000 * C <= 2000000 ->
       (forall a, optimal p a <->
          a "cap_emergencia" == E /\ a "cap_cirurgia" == S /\ a "cap_consulta" == C) /\
       (forall a, optimal p a ->
          eval a (objective p) == 10000 * E + 15000 * S + 2000 * C) /\
       optimal p (capacities E S C)) /\
    (~ 10000 * E + 15000 * S + 2000 * C <= 2000000 -> forall a, ~ feasible p a).
Proof.
  intros Ha Hs Hb E S C.
  destruct (capacity_pipeline df ages smokers bmis Ha Hs Hb) as (df' & Hd & Hp).
  fold E S in Hp. set (C' := Pandas.sum (replicate (nrows df) 1)) in Hp.
  assert (C' == C) as EC by apply sum_replicate_one.
  exists df', (capacity_model E S C'). split; [exact Hd|]. split; [exact Hp|].
  destruct (count_is_integer
              (fun r : Q * string => negb (Qle_bool (fst r) 50) || String.eqb (snd r) "yes")
              (zip ages smokers)) as [IE PE].
  destruct (count_is_integer
              (fun r : Q * Q => negb (Qle_bool (fst r) 35) || negb (Qle_bool (snd r) 60))
              (zip bmis ages)) as [IS PS].
  fold (demanda_emergencia_total ages smokers) in IE, PE.
  fold (demanda_cirurgia_total bmis ages) in IS, PS. fold E in IE, PE. fold S in IS, PS.
  assert (is_integer C') as IC.
  { rewrite EC. exists (Z.of_nat (nrows df)). reflexivity. }
  assert (0 <= C') as PC.
  { rewrite EC. unfold C. change 0 with (inject_Z 0). rewrite <- Zle_Qle. lia. }
  split.
  - intros Hbud. rewrite <- EC in Hbud.
    pose proof (fun a => capacity_optimal E S C' a IE IS IC PE PS PC Hbud) as Hopt.
    split; [|split].
    + intros a. rewrite Hopt, EC. reflexivity.
    + intros a Hoa. apply Hopt in Hoa. destruct Hoa as (Ee & Es & Ec).
      change (objective (capacity_model E S C')) with custo_capacidade.
      rewrite eval_custo_capacidade, Ee, Es, Ec, EC. reflexivity.
    + apply Hopt.
      change (capacities E S C "cap_emergencia") with E.
      change (capacities E S C "cap_cirurgia") with S.
      change (capacities E S C "cap_consulta") with C.
      repeat split; try reflexivity. symmetry. exact EC.
  - intros Hbud a. apply capacity_infeasible. rewrite EC. exact Hbud.
Qed.

Lemma capacity_optimum_witness :
  let E := demanda_emergencia_total [19; 55; 62; 33] ["yes"; "no"; "no"; "no"] in
  let S := demanda_cirurgia_total [27.9; 22; 36.5; 31] [19; 55; 62; 33] in
  let C := inject_Z (Z.of_nat (nrows sample_table)) in
  exists df' p,
    derive3 sample_table = Ok df' /\ prob3 df' = Ok p /\
    (10000 * E + 15000 * S + 2000 * C <= 2000000 ->
       (forall a, optimal p a <->
          a "cap_emergencia" == E /\ a "cap_cirurgia" == S /\ a "cap_consulta" == C) /\
       (forall a, optimal p a ->
          eval a (objective p) == 10000 * E + 15000 * S + 2000 * C) /\
       optimal p (capacities E S C)) /\
    (~ 10000 * E + 15000 * S + 2000 * C <= 2000000 -> forall a, ~ feasible p a).
Proof.
  apply (capacity_optimum sample_table [19; 55; 62; 33] ["yes"; "no"; "no"; "no"]
                          [27.9; 22; 36.5; 31]); reflexivity.
Defined.

(** ** Laws of the output monad *)

Lemma out_eta {A} (m : Out A) : m = mkOut (printed m) (outcome m).
Proof. destruct m; reflexivity. Qed.

Lemma out_bind_ok {A B} (m : Out A) (f : A -> Out B) o a :
  m = mkOut o (Ok a) -> m ≫= f = mkOut (o ++ printed (f a)) (outcome (f a)).
Proof. intros ->. reflexivity. Qed.

Lemma out_bind_raise {A B} (m : Out A) (f : A -> Out B) o e :
  m = mkOut o (Raise e) -> m ≫= f = mkOut o (Raise e).
Proof. intros ->. reflexivity. Qed.

Lemma out_bind_inv {A B} (m : Out A) (f : A -> Out B) o b :
  m ≫= f = mkOut o (Ok b) ->
  exists o1 a o2, m = mkOut o1 (Ok a) /\ f a = mkOut o2 (Ok b) /\ o = o1 ++ o2.
Proof.
  destruct m as [o1 [a|e]]; unfold mbind, out_bind; cbn [outcome printed].
  - intros [= <- E]. exists o1, a, (printed (f a)). repeat split.
    rewrite (out_eta (f a)) at 1. now rewrite E.
  - discriminate.
Qed.

Lemma out_bind_ext {A B} (m : Out A) (f g : A -> Out B) :
  (forall a, f a = g a) -> m ≫= f = m ≫= g.
Proof.
  intros H. destruct m as [o [a|e]]; unfold mbind, out_bind; cbn [outcome printed].
  - now rewrite H.
  - reflexivity.
Qed.

Lemma out_map_bind {A B C} (h : A -> B) (m : Out A) (g : B -> Out C) :
  out_map h m ≫= g = m ≫= (fun a => g (h a)).
Proof. destruct m as [o [a|e]]; reflexivity. Qed.

Lemma out_bind_map {A B C} (h : B -> C) (m : Out A) (g : A -> Out B) :
  out_map h (m ≫= g) = m ≫= (fun a => out_map h (g a)).
Proof. destruct m as [o [a|e]]; reflexivity. Qed.

Lemma out_map_lift {A B} (h : A -> B) (r : result A) :
  out_map h (lift r) = lift (rmap h r).
Proof. destruct r; reflexivity. Qed.

Lemma mapM_ext {A B} (f g : A -> result B) l :
  (forall i, f i = g i) -> mapM f l = mapM g l.
Proof.
  intros H. induction l as [|i l IH]; simpl; [reflexivity|]. now rewrite H, IH.
Qed.

Lemma for_each_ext {A} (l : list A) (f g : A -> Out unit) :
  (forall i, f i = g i) -> for_each l f = for_each l g.
Proof.
  intros H. induction l as [|i l IH]; simpl; [reflexivity|]. now rewrite H, IH.
Qed.

(** ** What each step reads *)

Lemma agree_getitem ks df1 df2 k :
  agree ks df1 df2 -> In k ks -> getitem df1 k = getitem df2 k.
Proof. intros [_ H] Hk. unfold getitem. now rewrite (H k Hk). Qed.

Lemma agree_weaken ks ks' df1 df2 :
  agree ks df1 df2 -> (forall k, In k ks' -> In k ks) -> agree ks' df1 df2.
Proof. intros [Hn H] Hs. split; [exact Hn|]. intros k Hk. apply H, Hs, Hk. Qed.

Lemma drop_agree c ks df :
  ~ In c ks -> agree ks (drop c df) df.
Proof.
  intros Hc. split; [reflexivity|]. intros k Hk. unfold drop. cbn [columns].
  apply lookup_delete_ne. intros ->. contradiction.
Qed.

Lemma agree_loc_num ks df1 df2 i k :
  agree ks df1 df2 -> In k ks -> loc_num df1 i k = loc_num df2 i k.
Proof. intros H Hk. unfold loc_num. now rewrite (agree_getitem ks df1 df2 k H Hk). Qed.

Lemma agree_prob df1 df2 :
  agree ["receita"; "custo"] df1 df2 -> prob df1 = prob df2.
Proof.
  intros H. unfold prob, clientes, index. destruct H as [Hn H]. rewrite Hn.
  assert (agree ["receita"; "custo"] df1 df2) as Ha by (split; assumption).
  rewrite (mapM_ext (fun i => r ← loc_num df1 i "receita"; Ok (mul (of_var (x i)) r))
                    (fun i => r ← loc_num df2 i "receita"; Ok (mul (of_var (x i)) r))).
  2: { intros i. rewrite (agree_loc_num _ _ _ i "receita" Ha); [reflexivity | now left]. }
  rewrite (mapM_ext (fun i => c ← loc_num df1 i "custo"; Ok (mul (of_var (x i)) c))
                    (fun i => c ← loc_num df2 i "custo"; Ok (mul (of_var (x i)) c))).
  2: { intros i. rewrite (agree_loc_num _ _ _ i "custo" Ha); [reflexivity | right; now left]. }
  reflexivity.
Qed.

Lemma agree_report1 df1 df2 p r :
  agree ["custo"] df1 df2 -> report1 df1 p r = report1 df2 p r.
Proof.
  intros Ha. unfold report1, clientes, index. destruct Ha as [Hn H]. rewrite Hn.
  assert (agree ["custo"] df1 df2) as Ha by (split; assumption).
  rewrite (mapM_ext (fun i => loc_num df1 i "custo") (fun i => loc_num df2 i "custo")).
  2: { intros i. apply (agree_loc_num _ _ _ i "custo" Ha). now left. }
  reflexivity.
Qed.

Lemma agree_regioes df1 df2 :
  agree ["regiao"] df1 df2 -> regioes df1 = regioes df2.
Proof.
  intros Ha. unfold regioes. rewrite (agree_getitem _ _ _ "regiao" Ha); [reflexivity | now left].
Qed.

Lemma agree_prob2 df1 df2 :
  agree ["regiao"; "custo"] df1 df2 -> prob2 df1 = prob2 df2.
Proof.
  intros Ha. unfold prob2, custos_por_regiao.
  rewrite (agree_regioes df1 df2) by (apply (agree_weaken _ _ _ _ Ha); simpl; tauto).
  rewrite (agree_getitem _ _ _ "regiao" Ha) by (now left).
  rewrite (agree_getitem _ _ _ "custo" Ha) by (right; now left).
  reflexivity.
Qed.

Lemma agree_prob3 df1 df2 :
  agree ["demanda_emergencia"; "demanda_cirurgia"; "demanda_consulta"] df1 df2 ->
  prob3 df1 = prob3 df2.
Proof.
  intros Ha. unfold prob3, col_sum.
  rewrite (agree_getitem _ _ _ "demanda_emergencia" Ha) by (now left).
  rewrite (agree_getitem _ _ _ "demanda_cirurgia" Ha) by (right; now left).
  rewrite (agree_getitem _ _ _ "demanda_consulta" Ha) by (right; right; now left).
  reflexivity.
Qed.

Lemma agree_faixas df1 df2 :
  agree ["faixa_etaria"] df1 df2 -> faixas df1 = faixas df2.
Proof.
  intros Ha. unfold faixas.
  rewrite (agree_getitem _ _ _ "faixa_etaria" Ha); [reflexivity | now left].
Qed.

Lemma agree_custo_faixa df1 df2 :
  agree ["faixa_etaria"; "charges"] df1 df2 -> custo_faixa df1 = custo_faixa df2.
Proof.
  intros Ha. unfold custo_faixa.
  rewrite (agree_getitem _ _ _ "faixa_etaria" Ha) by (now left).
  rewrite (agree_getitem _ _ _ "charges" Ha) by (right; now left).
  reflexivity.
Qed.

Lemma agree_prob4 df1 df2 :
  agree ["faixa_etaria"; "charges"] df1 df2 -> prob4 df1 = prob4 df2.
Proof.
  intros Ha. unfold prob4, disponivel_faixa.
  rewrite (agree_faixas df1 df2) by (apply (agree_weaken _ _ _ _ Ha); simpl; tauto).
  rewrite (agree_custo_faixa df1 df2 Ha).
  rewrite (agree_getitem _ _ _ "faixa_etaria" Ha) by (now left).
  reflexivity.
Qed.

(** ** A column the script does not use can be removed *)

Lemma lift_ok_bind {A B} (a : A) (f : A -> Out B) : lift (Ok a) ≫= f = f a.
Proof. unfold mbind, out_bind, lift. cbn [outcome printed app]. symmetry. apply out_eta. Qed.

Lemma lift_raise_bind {A B} e (f : A -> Out B) :
  lift (Raise e) ≫= f = mkOut [] (Raise e).
Proof. reflexivity. Qed.

Lemma getitem_drop c df k : c <> k -> getitem (drop c df) k = getitem df k.
Proof. intros H. unfold getitem, drop. cbn [columns]. now rewrite lookup_delete_ne. Qed.

Lemma setitem_drop c df k col :
  c <> k -> setitem (drop c df) k col = drop c (setitem df k col).
Proof.
  intros H. unfold setitem, drop. cbn [columns nrows]. now rewrite delete_insert_ne.
Qed.

Lemma setitem_scalar_drop c df k q :
  c <> k -> setitem_scalar (drop c df) k q = drop c (setitem_scalar df k q).
Proof. intros H. unfold setitem_scalar. now rewrite setitem_drop. Qed.

Ltac not_used H :=
  let E := fresh in intros E; apply H; rewrite E; unfold used_columns; simpl; tauto.

Lemma derive1_drop c df :
  ~ In c used_columns -> derive1 (drop c df) = rmap (drop c) (derive1 df).
Proof.
  intros H. unfold derive1.
  rewrite setitem_scalar_drop by not_used H. rewrite getitem_drop by not_used H.
  destruct (getitem _ "charges"); [|reflexivity].
  cbn [mbind result_bind rmap]. now rewrite setitem_drop by not_used H.
Qed.

Lemma derive2_drop c df :
  ~ In c used_columns -> derive2 (drop c df) = rmap (drop c) (derive2 df).
Proof.
  intros H. unfold derive2. rewrite getitem_drop by not_used H.
  destruct (getitem df "bmi") as [col|]; [|reflexivity]. cbn [mbind result_bind].
  destruct (numeric col); [|reflexivity].
  cbn [mbind result_bind rmap]. now rewrite setitem_drop by not_used H.
Qed.

Lemma derive3_drop c df :
  ~ In c used_columns -> derive3 (drop c df) = rmap (drop c) (derive3 df).
Proof.
  intros H. unfold derive3.
  rewrite (getitem_drop c df "age") by not_used H.
  rewrite (getitem_drop c df "smoker") by not_used H.
  destruct (getitem df "age") as [age|]; [|reflexivity]. cbn [mbind result_bind].
  destruct (gt age 50) as [age50|]; [|reflexivity]. cbn [mbind result_bind].
  destruct (getitem df "smoker") as [smoker|]; [|reflexivity]. cbn [mbind result_bind].
  rewrite setitem_drop by not_used H.
  rewrite (getitem_drop c _ "bmi") by not_used H.
  rewrite (getitem_drop c _ "age") by not_used H.
  destruct (getitem _ "bmi") as [bmi|]; [|reflexivity]. cbn [mbind result_bind].
  destruct (gt bmi 35) as [bmi35|]; [|reflexivity]. cbn [mbind result_bind].
  destruct (getitem _ "age") as [age'|]; [|reflexivity]. cbn [mbind result_bind].
  destruct (gt age' 60) as [age60|]; [|reflexivity]. cbn [mbind result_bind rmap].
  rewrite setitem_drop by not_used H. now rewrite setitem_scalar_drop by not_used H.
Qed.

Lemma derive4_drop c df :
  ~ In c used_columns -> derive4 (drop c df) = rmap (drop c) (derive4 df).
Proof.
  intros H. unfold derive4. rewrite getitem_drop by not_used H.
  destruct (getitem df "age") as [col|]; [|reflexivity]. cbn [mbind result_bind].
  destruct (numeric col); [|reflexivity].
  cbn [mbind result_bind rmap]. now rewrite setitem_drop by not_used H.
Qed.

Lemma drop_agree_used c ks df :
  ~ In c used_columns -> (forall k, In k ks -> In k used_columns) ->
  agree ks (drop c df) df.
Proof. intros H Hs. apply drop_agree. intros Hc. apply H, Hs, Hc. Qed.

Ltac used := unfold used_columns; simpl; intuition.

Section RunProperties.

Variable solve : LpProblem -> Result.
Variable RngState : Type.
Variable seed : Z -> RngState.
Variable uniform : Q -> Q -> RngState -> Q * RngState.
Variable sqrt : Q -> Q.

Local Abbreviation run := (main solve RngState seed uniform sqrt).

Lemma consulta1_drop c df :
  ~ In c used_columns ->
  consulta1 solve (drop c df) = out_map (drop c) (consulta1 solve df).
Proof.
  intros H. unfold consulta1. rewrite derive1_drop by exact H.
  destruct (derive1 df) as [d1|e]; [|reflexivity]. cbn [rmap].
  rewrite !lift_ok_bind.
  rewrite (agree_prob (drop c d1) d1) by (apply drop_agree_used; [exact H | used]).
  destruct (prob d1) as [p|e]; [|reflexivity]. rewrite !lift_ok_bind.
  rewrite (agree_report1 (drop c d1) d1) by (apply drop_agree_used; [exact H | used]).
  destruct (report1 d1 (solved solve p) (solution solve p)) as [o [[]|e]]; reflexivity.
Qed.

Lemma consulta2_drop c df :
  ~ In c used_columns ->
  consulta2 solve (drop c df) = out_map (drop c) (consulta2 solve df).
Proof.
  intros H. unfold consulta2. rewrite derive2_drop by exact H.
  destruct (derive2 df) as [d1|e]; [|reflexivity]. cbn [rmap].
  rewrite !lift_ok_bind.
  rewrite (agree_prob2 (drop c d1) d1) by (apply drop_agree_used; [exact H | used]).
  destruct (prob2 d1) as [p|e]; [|reflexivity]. rewrite !lift_ok_bind.
  rewrite (agree_regioes (drop c d1) d1) by (apply drop_agree_used; [exact H | used]).
  destruct (regioes d1) as [rs|e]; [|reflexivity]. rewrite !lift_ok_bind.
  destruct (report2 rs (solved solve p) (solution solve p)) as [o [[]|e]]; reflexivity.
Qed.

Lemma consulta3_drop c df :
  ~ In c used_columns ->
  consulta3 solve (drop c df) = out_map (drop c) (consulta3 solve df).
Proof.
  intros H. unfold consulta3. rewrite derive3_drop by exact H.
  destruct (derive3 df) as [d1|e]; [|reflexivity]. cbn [rmap].
  rewrite !lift_ok_bind.
  rewrite (agree_prob3 (drop c d1) d1) by (apply drop_agree_used; [exact H | used]).
  destruct (prob3 d1) as [p|e]; [|reflexivity]. rewrite !lift_ok_bind.
  destruct (report3 (solved solve p) (solution solve p)) as [o [[]|e]]; reflexivity.
Qed.

Lemma consulta4_drop c df :
  ~ In c used_columns ->
  consulta4 solve (drop c df) = out_map (drop c) (consulta4 solve df).
Proof.
  intros H. unfold consulta4. rewrite derive4_drop by exact H.
  destruct (derive4 df) as [d1|e]; [|reflexivity]. cbn [rmap].
  rewrite !lift_ok_bind.
  rewrite (agree_prob4 (drop c d1) d1) by (apply drop_agree_used; [exact H | used]).
  destruct (prob4 d1) as [p|e]; [|reflexivity]. rewrite !lift_ok_bind.
  rewrite (agree_faixas (drop c d1) d1) by (apply drop_agree_used; [exact H | used]).
  destruct (faixas d1) as [fs|e]; [|reflexivity]. rewrite !lift_ok_bind.
  rewrite (agree_custo_faixa (drop c d1) d1) by (apply drop_agree_used; [exact H | used]).
  destruct (custo_faixa d1) as [cs|e]; [|reflexivity]. rewrite !lift_ok_bind.
  destruct (report4 fs cs (solved solve p) (solution solve p)) as [o [[]|e]]; reflexivity.
Qed.

Lemma run_drop c df rng :
  ~ In c used_columns ->
  run (drop c df) rng = out_map (fun s => (drop c (fst s), snd s)) (run df rng).
Proof.
  intros H. unfold main.
  rewrite consulta1_drop, out_map_bind, out_bind_map by exact H.
  apply out_bind_ext. intros d1.
  rewrite consulta2_drop, out_map_bind, out_bind_map by exact H.
  apply out_bind_ext. intros d2.
  rewrite consulta3_drop, out_map_bind, out_bind_map by exact H.
  apply out_bind_ext. intros d3.
  rewrite consulta4_drop, out_map_bind, out_bind_map by exact H.
  apply out_bind_ext. intros d4.
  rewrite out_bind_map. apply out_bind_ext. intros _.
  rewrite out_bind_map. apply out_bind_ext. intros rng'. reflexivity.
Qed.

Lemma run_missing_charges df rng :
  columns df !! "charges" = None -> run df rng = mkOut [] (Raise (KeyError "charges")).
Proof.
  intros H. unfold main, consulta1, derive1, getitem, setitem_scalar, setitem.
  cbn [columns]. rewrite lookup_insert_ne by done. rewrite H. reflexivity.
Qed.

Lemma consulta1_inv df o d1 :
  consulta1 solve df = mkOut o (Ok d1) ->
  derive1 df = Ok d1 /\ exists rest, o = heading1 :: rest.
Proof.
  unfold consulta1. destruct (derive1 df) as [d|e]; [|discriminate].
  rewrite lift_ok_bind. destruct (prob d) as [p|e]; [|discriminate].
  rewrite lift_ok_bind. intros H.
  apply out_bind_inv in H. destruct H as (o1 & [] & o2 & Hr & Hm & ->).
  injection Hm as <- <-. split; [reflexivity|].
  unfold report1 in Hr. apply out_bind_inv in Hr.
  destruct Hr as (oh & [] & o3 & Hh & _ & ->). injection Hh as <-.
  eexists. reflexivity.
Qed.

Lemma derive1_columns df d1 k :
  derive1 df = Ok d1 -> k <> "receita" -> k <> "custo" ->
  columns d1 !! k = columns df !! k.
Proof.
  unfold derive1. destruct (getitem _ "charges") as [ch|]; [|discriminate].
  intros [= <-] H1 H2. unfold setitem_scalar, setitem. cbn [columns].
  rewrite !lookup_insert_ne by congruence. reflexivity.
Qed.

Lemma run_missing_bmi df rng o d1 :
  columns df !! "bmi" = None ->
  consulta1 solve df = mkOut o (Ok d1) ->
  run df rng = mkOut o (Raise (KeyError "bmi")) /\ exists rest, o = heading1 :: rest.
Proof.
  intros Hb Hc. destruct (consulta1_inv df o d1 Hc) as [Hd Hh]. split; [|exact Hh].
  unfold main. rewrite (out_bind_ok _ _ _ _ Hc).
  assert (consulta2 solve d1 = mkOut [] (Raise (KeyError "bmi"))) as E.
  { unfold consulta2, derive2, getitem.
    rewrite (derive1_columns df d1 "bmi" Hd) by done. rewrite Hb. reflexivity. }
  rewrite (out_bind_raise _ _ _ _ E). cbn [printed outcome]. now rewrite app_nil_r.
Qed.

End RunProperties.

(** C6, as stated: a table that lacks one of the seven fields makes the
    program fail with a schema error before any model is built, without
    output.  It does not: without [sex] the run ends normally after printing
    all six reports (61 lines), and without [bmi] it prints the report of
    consulta 1 and only then stops, with a [KeyError]. *)
Lemma missing_field_not_rejected :
  columns (drop "sex" sample_table) !! "sex" = None /\
  (exists out st,
      main stub_solver unit stub_seed stub_uniform stub_sqrt (drop "sex" sample_table) tt
      = mkOut out (Ok st) /\ length out = 61%nat) /\
  main stub_solver unit stub_seed stub_uniform stub_sqrt (drop "bmi" sample_table) tt
  = mkOut [ heading1;
            [Text "Clientes escolhidos: "; Int 0];
            [Text "Receita total: $"; Fmt ",.2f" 0];
            separator ]
          (Raise (KeyError "bmi")).
Proof.
  split; [reflexivity|]. split.
  - eexists. eexists. split; [vm_compute; reflexivity | reflexivity].
  - vm_compute. reflexivity.
Qed.

(** C6, amended: the program has no schema check.  Without [charges] it
    stops with a [KeyError] before any model is built and prints nothing.
    Without [bmi] it stops with a [KeyError] only after consulta 1 has been
    built, solved and reported.  The absence of [sex], [children] or
    [region], or of any other column the script does not use, goes
    unnoticed: the run prints the same lines and ends the same way as with
    the column present. *)
Theorem missing_fields
    (solve : LpProblem -> Result) (RngState : Type) (seed : Z -> RngState)
    (uniform : Q -> Q -> RngState -> Q * RngState) (sqrt : Q -> Q)
    (df : DataFrame) (rng : RngState) :
  (columns df !! "charges" = None ->
     main solve RngState seed uniform sqrt df rng
     = mkOut [] (Raise (KeyError "charges"))) /\
  (columns df !! "bmi" = None ->
     forall o d1, consulta1 solve df = mkOut o (Ok d1) ->
       main solve RngState seed uniform sqrt df rng = mkOut o (Raise (KeyError "bmi")) /\
       exists rest, o = heading1 :: rest) /\
  (forall c, ~ In c used_columns ->
     main solve RngState seed uniform sqrt (drop c df) rng
     = out_map (fun s => (drop c (fst s), snd s))
               (main solve RngState seed uniform sqrt df rng)) /\
  ~ In "sex" used_columns /\ ~ In "children" used_columns /\ ~ In "region" used_columns.
Proof.
  split; [|split; [|split]].
  - apply run_missing_charges.
  - intros Hb o d1. now apply run_missing_bmi.
  - intros c Hc. now apply run_drop.
  - unfold used_columns. simpl. repeat split; intros H;
      repeat (destruct H as [H|H]; [discriminate H|]); exact H.
Qed.

(** ** Running the script again on the table it leaves *)

Lemma agree_sym ks df1 df2 : agree ks df1 df2 -> agree ks df2 df1.
Proof. intros [Hn H]. split; [now symmetry|]. intros k Hk. symmetry. now apply H. Qed.

Lemma agree_trans ks df1 df2 df3 :
  agree ks df1 df2 -> agree ks df2 df3 -> agree ks df1 df3.
Proof.
  intros [Hn H] [Hn' H']. split; [congruence|]. intros k Hk.
  rewrite (H k Hk). now apply H'.
Qed.

Lemma agree_refl ks df : agree ks df df.
Proof. split; reflexivity. Qed.

Lemma setitem_id df k col : columns df !! k = Some col -> setitem df k col = df.
Proof.
  intros H. destruct df as [n cols]. unfold setitem. cbn [columns nrows] in *.
  now rewrite insert_id.
Qed.

Lemma setitem_agree ks df k col : ~ In k ks -> agree ks (setitem df k col) df.
Proof.
  intros Hk. split; [reflexivity|]. intros k' Hk'. unfold setitem. cbn [columns].
  apply lookup_insert_ne. intros ->. contradiction.
Qed.

Lemma getitem_setitem df k col : getitem (setitem df k col) k = Ok col.
Proof. unfold getitem, setitem. cbn [columns]. now rewrite lookup_insert_eq. Qed.

Lemma getitem_setitem_ne df k k' col :
  k <> k' -> getitem (setitem df k col) k' = getitem df k'.
Proof. intros H. unfold getitem, setitem. cbn [columns]. now rewrite lookup_insert_ne. Qed.

Lemma getitem_Ok df k col : getitem df k = Ok col <-> columns df !! k = Some col.
Proof.
  unfold getitem. destruct (columns df !! k); split; intros H; try discriminate;
    injection H as ->; reflexivity.
Qed.

(** Each derivation writes its own columns and leaves the others alone. *)
Lemma derive1_frame ks df d1 :
  derive1 df = Ok d1 -> ~ In "receita" ks -> ~ In "custo" ks -> agree ks d1 df.
Proof.
  unfold derive1. destruct (getitem _ "charges") as [ch|]; [|discriminate].
  intros [= <-] H1 H2.
  eapply agree_trans; [apply setitem_agree; exact H2|].
  apply setitem_agree; exact H1.
Qed.

Lemma derive2_frame ks df d2 :
  derive2 df = Ok d2 -> ~ In "regiao" ks -> agree ks d2 df.
Proof.
  unfold derive2. destruct (getitem df "bmi") as [col|]; [|discriminate].
  cbn [mbind result_bind]. destruct (numeric col); [|discriminate].
  intros [= <-] H. now apply setitem_agree.
Qed.

Lemma derive3_frame ks df d3 :
  derive3 df = Ok d3 ->
  ~ In "demanda_emergencia" ks -> ~ In "demanda_cirurgia" ks ->
  ~ In "demanda_consulta" ks -> agree ks d3 df.
Proof.
  unfold derive3.
  destruct (getitem df "age") as [age|]; [|discriminate]. cbn [mbind result_bind].
  destruct (gt age 50) as [age50|]; [|discriminate]. cbn [mbind result_bind].
  destruct (getitem df "smoker") as [smoker|]; [|discriminate]. cbn [mbind result_bind].
  destruct (getitem _ "bmi") as [bmi|]; [|discriminate]. cbn [mbind result_bind].
  destruct (gt bmi 35) as [bmi35|]; [|discriminate]. cbn [mbind result_bind].
  destruct (getitem _ "age") as [age'|]; [|discriminate]. cbn [mbind result_bind].
  destruct (gt age' 60) as [age60|]; [|discriminate]. cbn [mbind result_bind].
  intros [= <-] H1 H2 H3. unfold setitem_scalar.
  eapply agree_trans; [apply setitem_agree; exact H3|].
  eapply agree_trans; [apply setitem_agree; exact H2|].
  apply setitem_agree; exact H1.
Qed.

Lemma derive4_frame ks df d4 :
  derive4 df = Ok d4 -> ~ In "faixa_etaria" ks -> agree ks d4 df.
Proof.
  unfold derive4. destruct (getitem df "age") as [col|]; [|discriminate].
  cbn [mbind result_bind]. destruct (numeric col); [|discriminate].
  intros [= <-] H. now apply setitem_agree.
Qed.

(** A derivation run on a table that already carries its result changes
    nothing. *)
Lemma derive1_fix df d1 dF :
  derive1 df = Ok d1 -> agree ["charges"; "receita"; "custo"] dF d1 ->
  derive1 dF = Ok dF.
Proof.
  unfold derive1 at 1.
  destruct (getitem _ "charges") as [ch|] eqn:Ech; [|discriminate].
  intros [= <-] [Hn Ha]. unfold setitem_scalar in *.
  rewrite getitem_setitem_ne in Ech by done.
  assert (columns dF !! "charges" = Some ch) as H1.
  { rewrite (Ha "charges") by (simpl; tauto). apply getitem_Ok.
    rewrite !getitem_setitem_ne by done. exact Ech. }
  assert (columns dF !! "receita" = Some (NumCol (replicate (nrows dF) 5000))) as H2.
  { rewrite (Ha "receita") by (simpl; tauto). apply getitem_Ok.
    rewrite getitem_setitem_ne by done. rewrite getitem_setitem. now rewrite Hn. }
  assert (columns dF !! "custo" = Some ch) as H3.
  { rewrite (Ha "custo") by (simpl; tauto). apply getitem_Ok. apply getitem_setitem. }
  unfold derive1, setitem_scalar. rewrite (setitem_id dF "receita" _ H2).
  apply getitem_Ok in H1. rewrite H1. cbn [mbind result_bind].
  now rewrite (setitem_id dF "custo" _ H3).
Qed.

Lemma derive2_fix df d2 dF :
  derive2 df = Ok d2 -> agree ["bmi"; "regiao"] dF d2 -> derive2 dF = Ok dF.
Proof.
  unfold derive2 at 1. destruct (getitem df "bmi") as [col|] eqn:Eb; [|discriminate].
  cbn [mbind result_bind]. destruct (numeric col) as [l|] eqn:El; [|discriminate].
  intros [= <-] [Hn Ha].
  assert (getitem dF "bmi" = Ok col) as H1.
  { apply getitem_Ok. rewrite (Ha "bmi") by (simpl; tauto). apply getitem_Ok.
    rewrite getitem_setitem_ne by done. exact Eb. }
  assert (columns dF !! "regiao" = Some (StrCol (map regiao_of_bmi l))) as H2.
  { rewrite (Ha "regiao") by (simpl; tauto). apply getitem_Ok, getitem_setitem. }
  unfold derive2. rewrite H1. cbn [mbind result_bind]. rewrite El.
  cbn [mbind result_bind]. now rewrite (setitem_id dF "regiao" _ H2).
Qed.

Lemma derive4_fix df d4 dF :
  derive4 df = Ok d4 -> agree ["age"; "faixa_etaria"] dF d4 -> derive4 dF = Ok dF.
Proof.
  unfold derive4 at 1. destruct (getitem df "age") as [col|] eqn:Eb; [|discriminate].
  cbn [mbind result_bind]. destruct (numeric col) as [l|] eqn:El; [|discriminate].
  intros [= <-] [Hn Ha].
  assert (getitem dF "age" = Ok col) as H1.
  { apply getitem_Ok. rewrite (Ha "age") by (simpl; tauto). apply getitem_Ok.
    rewrite getitem_setitem_ne by done. exact Eb. }
  assert (columns dF !! "faixa_etaria"
          = Some (CatCol (map (cut3 "Jovem" "Adulto" "Senior") l))) as H2.
  { rewrite (Ha "faixa_etaria") by (simpl; tauto). apply getitem_Ok, getitem_setitem. }
  unfold derive4. rewrite H1. cbn [mbind result_bind]. rewrite El.
  cbn [mbind result_bind]. now rewrite (setitem_id dF "faixa_etaria" _ H2).
Qed.

Lemma derive3_fix df d3 dF :
  derive3 df = Ok d3 ->
  agree ["age"; "smoker"; "bmi"; "demanda_emergencia"; "demanda_cirurgia";
         "demanda_consulta"] dF d3 ->
  derive3 dF = Ok dF.
Proof.
  unfold derive3 at 1.
  destruct (getitem df "age") as [age|] eqn:E1; [|discriminate]. cbn [mbind result_bind].
  destruct (gt age 50) as [age50|] eqn:E2; [|discriminate]. cbn [mbind result_bind].
  destruct (getitem df "smoker") as [smoker|] eqn:E3; [|discriminate].
  cbn [mbind result_bind].
  rewrite !getitem_setitem_ne by done.
  destruct (getitem df "bmi") as [bmi|] eqn:E4; [|discriminate]. cbn [mbind result_bind].
  destruct (gt bmi 35) as [bmi35|] eqn:E5; [|discriminate]. cbn [mbind result_bind].
  rewrite E1. cbn [mbind result_bind].
  destruct (gt age 60) as [age60|] eqn:E6; [|discriminate]. cbn [mbind result_bind].
  intros [= <-] [Hn Ha]. unfold setitem_scalar in *.
  assert (forall k col, In k ["age"; "smoker"; "bmi"] -> getitem df k = Ok col ->
                        getitem dF k = Ok col) as Hraw.
  { intros k col Hk Hg. apply getitem_Ok. rewrite (Ha k) by (simpl in *; tauto).
    apply getitem_Ok. rewrite !getitem_setitem_ne; [exact Hg | | |];
      intros <-; simpl in Hk; intuition discriminate. }
  assert (columns dF !! "demanda_emergencia"
          = Some (or_astype_int age50 (eq_str smoker "yes"))) as H1.
  { rewrite (Ha "demanda_emergencia") by (simpl; tauto). apply getitem_Ok.
    rewrite !getitem_setitem_ne by done. apply getitem_setitem. }
  assert (columns dF !! "demanda_cirurgia" = Some (or_astype_int bmi35 age60)) as H2.
  { rewrite (Ha "demanda_cirurgia") by (simpl; tauto). apply getitem_Ok.
    rewrite !getitem_setitem_ne by done. apply getitem_setitem. }
  assert (columns dF !! "demanda_consulta" = Some (NumCol (replicate (nrows dF) 1))) as H3.
  { rewrite (Ha "demanda_consulta") by (simpl; tauto). apply getitem_Ok.
    rewrite getitem_setitem. now rewrite Hn. }
  unfold derive3, setitem_scalar.
  rewrite (Hraw "age" age) by (simpl; tauto || exact E1). cbn [mbind result_bind].
  rewrite E2. cbn [mbind result_bind].
  rewrite (Hraw "smoker" smoker) by (simpl; tauto || exact E3). cbn [mbind result_bind].
  rewrite (setitem_id dF "demanda_emergencia" _ H1).
  rewrite (Hraw "bmi" bmi) by (simpl; tauto || exact E4). cbn [mbind result_bind].
  rewrite E5. cbn [mbind result_bind].
  rewrite (Hraw "age" age) by (simpl; tauto || exact E1). cbn [mbind result_bind].
  rewrite E6. cbn [mbind result_bind].
  rewrite (setitem_id dF "demanda_cirurgia" _ H2).
  now rewrite (setitem_id dF "demanda_consulta" _ H3).
Qed.

Section Rerun.

Variable solve : LpProblem -> Result.
Variable RngState : Type.
Variable seed : Z -> RngState.
Variable uniform : Q -> Q -> RngState -> Q * RngState.
Variable sqrt : Q -> Q.

Local Abbreviation run := (main solve RngState seed uniform sqrt).

Lemma consulta1_rerun df o d1 dF :
  consulta1 solve df = mkOut o (Ok d1) ->
  derive1 dF = Ok dF -> agree ["receita"; "custo"] dF d1 ->
  derive1 df = Ok d1 /\ consulta1 solve dF = mkOut o (Ok dF).
Proof.
  unfold consulta1. intros H HF Ha.
  destruct (derive1 df) as [d|e]; [|discriminate]. rewrite HF.
  rewrite lift_ok_bind in *.
  rewrite (agree_prob dF d1 Ha).
  assert (d = d1) as ->.
  { destruct (prob d) as [p|]; [|discriminate]. rewrite lift_ok_bind in H.
    destruct (report1 d (solved solve p) (solution solve p)) as [o' [[]|]]; [|discriminate].
    now injection H. }
  split; [reflexivity|].
  destruct (prob d1) as [p|]; [|discriminate]. rewrite lift_ok_bind in *.
  rewrite (agree_report1 dF d1) by (apply (agree_weaken _ _ _ _ Ha); simpl; tauto).
  destruct (report1 d1 (solved solve p) (solution solve p)) as [o' [[]|]]; [|discriminate].
  injection H as <-. reflexivity.
Qed.

Lemma consulta2_rerun df o d1 dF :
  consulta2 solve df = mkOut o (Ok d1) ->
  derive2 dF = Ok dF -> agree ["regiao"; "custo"] dF d1 ->
  derive2 df = Ok d1 /\ consulta2 solve dF = mkOut o (Ok dF).
Proof.
  unfold consulta2. intros H HF Ha.
  destruct (derive2 df) as [d|e]; [|discriminate]. rewrite HF.
  rewrite lift_ok_bind in *.
  rewrite (agree_prob2 dF d1 Ha).
  rewrite (agree_regioes dF d1) by (apply (agree_weaken _ _ _ _ Ha); simpl; tauto).
  assert (d = d1) as ->.
  { destruct (prob2 d) as [p|]; [|discriminate]. rewrite lift_ok_bind in H.
    destruct (regioes d) as [rs|]; [|discriminate]. rewrite lift_ok_bind in H.
    destruct (report2 rs (solved solve p) (solution solve p)) as [o' [[]|]]; [|discriminate].
    now injection H. }
  split; [reflexivity|].
  destruct (prob2 d1) as [p|]; [|discriminate]. rewrite lift_ok_bind in *.
  destruct (regioes d1) as [rs|]; [|discriminate]. rewrite lift_ok_bind in *.
  destruct (report2 rs (solved solve p) (solution solve p)) as [o' [[]|]]; [|discriminate].
  injection H as <-. reflexivity.
Qed.

Lemma consulta3_rerun df o d1 dF :
  consulta3 solve df = mkOut o (Ok d1) ->
  derive3 dF = Ok dF ->
  agree ["demanda_emergencia"; "demanda_cirurgia"; "demanda_consulta"] dF d1 ->
  derive3 df = Ok d1 /\ consulta3 solve dF = mkOut o (Ok dF).
Proof.
  unfold consulta3. intros H HF Ha.
  destruct (derive3 df) as [d|e]; [|discriminate]. rewrite HF.
  rewrite lift_ok_bind in *.
  rewrite (agree_prob3 dF d1 Ha).
  assert (d = d1) as ->.
  { destruct (prob3 d) as [p|]; [|discriminate]. rewrite lift_ok_bind in H.
    destruct (report3 (solved solve p) (solution solve p)) as [o' [[]|]]; [|discriminate].
    now injection H. }
  split; [reflexivity|].
  destruct (prob3 d1) as [p|]; [|discriminate]. rewrite lift_ok_bind in *.
  destruct (report3 (solved solve p) (solution solve p)) as [o' [[]|]]; [|discriminate].
  injection H as <-. reflexivity.
Qed.

Lemma consulta4_rerun df o d1 dF :
  consulta4 solve df = mkOut o (Ok d1) ->
  derive4 dF = Ok dF -> agree ["faixa_etaria"; "charges"] dF d1 ->
  derive4 df = Ok d1 /\ consulta4 solve dF = mkOut o (Ok dF).
Proof.
  unfold consulta4. intros H HF Ha.
  destruct (derive4 df) as [d|e]; [|discriminate]. rewrite HF.
  rewrite lift_ok_bind in *.
  rewrite (agree_prob4 dF d1 Ha).
  rewrite (agree_faixas dF d1) by (apply (agree_weaken _ _ _ _ Ha); simpl; tauto).
  rewrite (agree_custo_faixa dF d1 Ha).
  assert (d = d1) as ->.
  { destruct (prob4 d) as [p|]; [|discriminate]. rewrite lift_ok_bind in H.
    destruct (faixas d) as [fs|]; [|discriminate]. rewrite lift_ok_bind in H.
    destruct (custo_faixa d) as [cs|]; [|discriminate]. rewrite lift_ok_bind in H.
    destruct (report4 fs cs (solved solve p) (solution solve p)) as [o' [[]|]]; [|discriminate].
    now injection H. }
  split; [reflexivity|].
  destruct (prob4 d1) as [p|]; [|discriminate]. rewrite lift_ok_bind in *.
  destruct (faixas d1) as [fs|]; [|discriminate]. rewrite lift_ok_bind in *.
  destruct (custo_faixa d1) as [cs|]; [|discriminate]. rewrite lift_ok_bind in *.
  destruct (report4 fs cs (solved solve p) (solution solve p)) as [o' [[]|]]; [|discriminate].
  injection H as <-. reflexivity.
Qed.

Lemma consulta6_any_state rng rng' :
  consulta6 solve RngState seed uniform sqrt rng
  = consulta6 solve RngState seed uniform sqrt rng'.
Proof. reflexivity. Qed.

Lemma run_any_state df rng rng' : run df rng = run df rng'.
Proof. reflexivity. Qed.

Ltac frame_tac := simpl; intuition discriminate.

Lemma run_rerun df rng o dF rngF rng' :
  run df rng = mkOut o (Ok (dF, rngF)) -> run dF rng' = mkOut o (Ok (dF, rngF)).
Proof.
  intros H. rewrite (run_any_state dF rng' rng). unfold main in *.
  apply out_bind_inv in H. destruct H as (o1 & d1 & o1' & H1 & H & ->).
  apply out_bind_inv in H. destruct H as (o2 & d2 & o2' & H2 & H & ->).
  apply out_bind_inv in H. destruct H as (o3 & d3 & o3' & H3 & H & ->).
  apply out_bind_inv in H. destruct H as (o4 & d4 & o4' & H4 & H & ->).
  apply out_bind_inv in H. destruct H as (o5 & [] & o5' & H5 & H & ->).
  apply out_bind_inv in H. destruct H as (o6 & r6 & o6' & H6 & H & ->).
  injection H as <- <- <-.
  destruct (consulta1_inv solve df o1 d1 H1) as [D1 _].
  assert (derive2 d1 = Ok d2) as D2.
  { unfold consulta2 in H2. destruct (derive2 d1) as [d|]; [|discriminate].
    rewrite lift_ok_bind in H2. destruct (prob2 d) as [p|]; [|discriminate].
    rewrite lift_ok_bind in H2. destruct (regioes d) as [rs|]; [|discriminate].
    rewrite lift_ok_bind in H2.
    destruct (report2 rs (solved solve p) (solution solve p)) as [o' [[]|]]; [|discriminate].
    injection H2 as _ ->. reflexivity. }
  assert (derive3 d2 = Ok d3) as D3.
  { unfold consulta3 in H3. destruct (derive3 d2) as [d|]; [|discriminate].
    rewrite lift_ok_bind in H3. destruct (prob3 d) as [p|]; [|discriminate].
    rewrite lift_ok_bind in H3.
    destruct (report3 (solved solve p) (solution solve p)) as [o' [[]|]]; [|discriminate].
    injection H3 as _ ->. reflexivity. }
  assert (derive4 d3 = Ok d4) as D4.
  { unfold consulta4 in H4. destruct (derive4 d3) as [d|]; [|discriminate].
    rewrite lift_ok_bind in H4. destruct (prob4 d) as [p|]; [|discriminate].
    rewrite lift_ok_bind in H4. destruct (faixas d) as [fs|]; [|discriminate].
    rewrite lift_ok_bind in H4. destruct (custo_faixa d) as [cs|]; [|discriminate].
    rewrite lift_ok_bind in H4.
    destruct (report4 fs cs (solved solve p) (solution solve p)) as [o' [[]|]]; [|discriminate].
    injection H4 as _ ->. reflexivity. }
  assert (forall ks, ~ In "faixa_etaria" ks -> agree ks d4 d3) as A43
    by (intros ks; apply derive4_frame, D4).
  assert (forall ks, ~ In "faixa_etaria" ks -> ~ In "demanda_emergencia" ks ->
                     ~ In "demanda_cirurgia" ks -> ~ In "demanda_consulta" ks ->
                     agree ks d4 d2) as A42.
  { intros ks ? ? ? ?. eapply agree_trans; [now apply A43|].
    now apply (derive3_frame ks d2 d3 D3). }
  assert (forall ks, ~ In "faixa_etaria" ks -> ~ In "demanda_emergencia" ks ->
                     ~ In "demanda_cirurgia" ks -> ~ In "demanda_consulta" ks ->
                     ~ In "regiao" ks -> agree ks d4 d1) as A41.
  { intros ks ? ? ? ? ?. eapply agree_trans; [now apply A42|].
    now apply (derive2_frame ks d1 d2 D2). }
  assert (derive1 d4 = Ok d4) as F1
    by (apply (derive1_fix df d1 d4 D1), A41; frame_tac).
  assert (derive2 d4 = Ok d4) as F2
    by (apply (derive2_fix d1 d2 d4 D2), A42; frame_tac).
  assert (derive3 d4 = Ok d4) as F3
    by (apply (derive3_fix d2 d3 d4 D3), A43; frame_tac).
  assert (derive4 d4 = Ok d4) as F4
    by (apply (derive4_fix d3 d4 d4 D4), agree_refl).
  destruct (consulta1_rerun df o1 d1 d4 H1 F1) as [_ R1]; [apply A41; frame_tac|].
  destruct (consulta2_rerun d1 o2 d2 d4 H2 F2) as [_ R2]; [apply A42; frame_tac|].
  destruct (consulta3_rerun d2 o3 d3 d4 H3 F3) as [_ R3]; [apply A43; frame_tac|].
  destruct (consulta4_rerun d3 o4 d4 d4 H4 F4) as [_ R4]; [apply agree_refl|].
  rewrite (out_bind_ok _ _ _ _ R1). rewrite (out_bind_ok _ _ _ _ R2).
  rewrite (out_bind_ok _ _ _ _ R3). rewrite (out_bind_ok _ _ _ _ R4).
  rewrite (out_bind_ok _ _ _ _ H5). rewrite (out_bind_ok _ _ _ _ H6).
  reflexivity.
Qed.

End Rerun.

Section RerunModels.

Variable solve : LpProblem -> Result.
Variable RngState : Type.
Variable seed : Z -> RngState.
Variable uniform : Q -> Q -> RngState -> Q * RngState.
Variable sqrt : Q -> Q.

Local Abbreviation run := (main solve RngState seed uniform sqrt).

Lemma consulta6_builds_network_model rng :
  consulta6 solve RngState seed uniform sqrt rng
  = (let rng := seed 42 in
     let (centros, rng) := draw_points RngState uniform n_centros rng in
     let (clientes_coords, rng) := draw_points RngState uniform n_clientes_sample rng in
     p ← lift (network_model RngState seed uniform sqrt rng);
     _ ← report6 (distancias sqrt clientes_coords centros) (solved solve p)
           (solution solve p);
     mret rng).
Proof.
  unfold consulta6, network_model.
  destruct (draw_points RngState uniform n_centros (seed 42%Z)) as [centros r1].
  destruct (draw_points RngState uniform n_clientes_sample r1) as [cc r2].
  reflexivity.
Qed.

Lemma models_rerun df rng o dF rngF :
  run df rng = mkOut o (Ok (dF, rngF)) ->
  models dF = models df /\ exists ps, models df = Ok ps.
Proof.
  intros H. unfold main in H.
  apply out_bind_inv in H. destruct H as (o1 & d1 & o1' & H1 & H & ->).
  apply out_bind_inv in H. destruct H as (o2 & d2 & o2' & H2 & H & ->).
  apply out_bind_inv in H. destruct H as (o3 & d3 & o3' & H3 & H & ->).
  apply out_bind_inv in H. destruct H as (o4 & d4 & o4' & H4 & H & ->).
  apply out_bind_inv in H. destruct H as (o5 & [] & o5' & H5 & H & ->).
  apply out_bind_inv in H. destruct H as (o6 & r6 & o6' & H6 & H & ->).
  injection H as <- <- <-.
  assert (derive1 df = Ok d1 /\ exists p, prob d1 = Ok p) as [D1 [p1 P1]].
  { unfold consulta1 in H1. destruct (derive1 df) as [d|]; [|discriminate].
    rewrite lift_ok_bind in H1. destruct (prob d) as [p|] eqn:E; [|discriminate].
    rewrite lift_ok_bind in H1.
    destruct (report1 d (solved solve p) (solution solve p)) as [o' [[]|]]; [|discriminate].
    injection H1 as _ ->. split; [reflexivity | eauto]. }
  assert (derive2 d1 = Ok d2 /\ exists p, prob2 d2 = Ok p) as [D2 [p2 P2]].
  { unfold consulta2 in H2. destruct (derive2 d1) as [d|]; [|discriminate].
    rewrite lift_ok_bind in H2. destruct (prob2 d) as [p|] eqn:E; [|discriminate].
    rewrite lift_ok_bind in H2. destruct (regioes d) as [rs|]; [|discriminate].
    rewrite lift_ok_bind in H2.
    destruct (report2 rs (solved solve p) (solution solve p)) as [o' [[]|]]; [|discriminate].
    injection H2 as _ ->. split; [reflexivity | eauto]. }
  assert (derive3 d2 = Ok d3 /\ exists p, prob3 d3 = Ok p) as [D3 [p3 P3]].
  { unfold consulta3 in H3. destruct (derive3 d2) as [d|]; [|discriminate].
    rewrite lift_ok_bind in H3. destruct (prob3 d) as [p|] eqn:E; [|discriminate].
    rewrite lift_ok_bind in H3.
    destruct (report3 (solved solve p) (solution solve p)) as [o' [[]|]]; [|discriminate].
    injection H3 as _ ->. split; [reflexivity | eauto]. }
  assert (derive4 d3 = Ok d4 /\ exists p, prob4 d4 = Ok p) as [D4 [p4 P4]].
  { unfold consulta4 in H4. destruct (derive4 d3) as [d|]; [|discriminate].
    rewrite lift_ok_bind in H4. destruct (prob4 d) as [p|] eqn:E; [|discriminate].
    rewrite lift_ok_bind in H4. destruct (faixas d) as [fs|]; [|discriminate].
    rewrite lift_ok_bind in H4. destruct (custo_faixa d) as [cs|]; [|discriminate].
    rewrite lift_ok_bind in H4.
    destruct (report4 fs cs (solved solve p) (solution solve p)) as [o' [[]|]]; [|discriminate].
    injection H4 as _ ->. split; [reflexivity | eauto]. }
  assert (exists p, prob5 = Ok p) as [p5 P5] by (eexists; apply prob5_built).
  assert (forall ks, ~ In "faixa_etaria" ks -> agree ks d4 d3) as A43
    by (intros ks; apply derive4_frame, D4).
  assert (forall ks, ~ In "faixa_etaria" ks -> ~ In "demanda_emergencia" ks ->
                     ~ In "demanda_cirurgia" ks -> ~ In "demanda_consulta" ks ->
                     agree ks d4 d2) as A42.
  { intros ks ? ? ? ?. eapply agree_trans; [now apply A43|].
    now apply (derive3_frame ks d2 d3 D3). }
  assert (forall ks, ~ In "faixa_etaria" ks -> ~ In "demanda_emergencia" ks ->
                     ~ In "demanda_cirurgia" ks -> ~ In "demanda_consulta" ks ->
                     ~ In "regiao" ks -> agree ks d4 d1) as A41.
  { intros ks ? ? ? ? ?. eapply agree_trans; [now apply A42|].
    now apply (derive2_frame ks d1 d2 D2). }
  assert (derive1 d4 = Ok d4) as F1
    by (apply (derive1_fix df d1 d4 D1), A41; simpl; intuition discriminate).
  assert (derive2 d4 = Ok d4) as F2
    by (apply (derive2_fix d1 d2 d4 D2), A42; simpl; intuition discriminate).
  assert (derive3 d4 = Ok d4) as F3
    by (apply (derive3_fix d2 d3 d4 D3), A43; simpl; intuition discriminate).
  assert (derive4 d4 = Ok d4) as F4
    by (apply (derive4_fix d3 d4 d4 D4), agree_refl).
  assert (models df = Ok [p1; p2; p3; p4; p5]) as M.
  { unfold models. rewrite D1. cbn [mbind result_bind]. rewrite P1. cbn [mbind result_bind].
    rewrite D2. cbn [mbind result_bind]. rewrite P2. cbn [mbind result_bind].
    rewrite D3. cbn [mbind result_bind]. rewrite P3. cbn [mbind result_bind].
    rewrite D4. cbn [mbind result_bind]. rewrite P4. cbn [mbind result_bind].
    rewrite P5. reflexivity. }
  split; [|eauto]. rewrite M. unfold models.
  rewrite F1. cbn [mbind result_bind].
  rewrite (agree_prob d4 d1), P1 by (apply A41; simpl; intuition discriminate).
  cbn [mbind result_bind]. rewrite F2. cbn [mbind result_bind].
  rewrite (agree_prob2 d4 d2), P2 by (apply A42; simpl; intuition discriminate).
  cbn [mbind result_bind]. rewrite F3. cbn [mbind result_bind].
  rewrite (agree_prob3 d4 d3), P3 by (apply A43; simpl; intuition discriminate).
  cbn [mbind result_bind]. rewrite F4. cbn [mbind result_bind].
  rewrite P4. cbn [mbind result_bind]. rewrite P5. reflexivity.
Qed.

End RerunModels.

(** C8: a run is a function of the table alone.  Whatever the state of the
    random generator, [random.seed(42)] fixes the coordinates, so the network
    model and the whole run are the same.  Running the script again on the
    table that a completed run leaves (the same records, with the derived
    columns already attached) derives the same columns, builds the same five
    table-based models with the same variable names and constraints, prints
    the same report under the same solver, and leaves the table unchanged. *)
Theorem rerun_identical
    (solve : LpProblem -> Result) (RngState : Type) (seed : Z -> RngState)
    (uniform : Q -> Q -> RngState -> Q * RngState) (sqrt : Q -> Q)
    (df dF : DataFrame) (rng rngF : RngState) (o : list Line) :
  main solve RngState seed uniform sqrt df rng = mkOut o (Ok (dF, rngF)) ->
  (forall rng', main solve RngState seed uniform sqrt df rng' = mkOut o (Ok (dF, rngF))) /\
  (forall rng', main solve RngState seed uniform sqrt dF rng' = mkOut o (Ok (dF, rngF))) /\
  (models dF = models df /\ exists ps, models df = Ok ps) /\
  (forall r r', network_model RngState seed uniform sqrt r
                = network_model RngState seed uniform sqrt r').
Proof.
  intros H. split; [|split; [|split]].
  - intros rng'. rewrite <- H. reflexivity.
  - intros rng'. exact (run_rerun solve RngState seed uniform sqrt df rng o dF rngF rng' H).
  - exact (models_rerun solve RngState seed uniform sqrt df rng o dF rngF H).
  - reflexivity.
Qed.

Lemma rerun_identical_witness :
  exists o dF,
    main stub_solver unit stub_seed stub_uniform stub_sqrt sample_table tt
    = mkOut o (Ok (dF, tt)) /\
    (forall rng', main stub_solver unit stub_seed stub_uniform stub_sqrt sample_table rng'
                  = mkOut o (Ok (dF, tt))) /\
    (forall rng', main stub_solver unit stub_seed stub_uniform stub_sqrt dF rng'
                  = mkOut o (Ok (dF, tt))) /\
    (models dF = models sample_table /\ exists ps, models sample_table = Ok ps) /\
    (forall r r', network_model unit stub_seed stub_uniform stub_sqrt r
                  = network_model unit stub_seed stub_uniform stub_sqrt r').
Proof.
  eexists. eexists.
  split; [vm_compute; reflexivity|].
  apply (rerun_identical stub_solver unit stub_seed stub_uniform stub_sqrt
                         sample_table _ tt tt _).
  vm_compute. reflexivity.
Defined.

(** ** What the reports read from a result *)

Lemma value_fold r ts :
  fold_left (fun s t => match s, value_var r (fst t) with
                        | Some s', Some v => Some (s' + v * snd t)
                        | _, _ => None
                        end) ts None = None.
Proof. induction ts as [|t ts IH]; simpl; [reflexivity | exact IH]. Qed.

Lemma value_eval_terms r ts k v :
  value r (mkExpr ts k) = Some v -> v == eval (assignment_of r) (mkExpr ts k).
Proof.
  unfold value. cbn [terms constant]. revert k.
  induction ts as [|[u c] ts IH]; intros k; cbn [fold_left fst snd].
  - intros [= <-]. reflexivity.
  - destruct (value_var r u) as [q|] eqn:E.
    + intros H. apply (IH (k + q * c)) in H. rewrite H.
      rewrite eval_cons, (eval_const_shift _ ts (k + q * c)), (eval_const_shift _ ts k).
      cbn [fst snd].
      assert (assignment_of r (name u) = q) as ->.
      { unfold assignment_of. unfold value_var in E. now rewrite E. }
      ring.
    + rewrite (value_fold r ts). discriminate.
Qed.

(** [pulp.value(e)], when it is a number, is the expression evaluated at the
    values the result gives to the variables. *)
Lemma value_eval r e v : value r e = Some v -> v == eval (assignment_of r) e.
Proof. destruct e as [ts k]. apply value_eval_terms. Qed.

Lemma value_is_Some r e :
  (forall u, In u (vars e) -> is_Some (value_var r u)) <-> is_Some (value r e).
Proof.
  destruct e as [ts k]. unfold value, vars. cbn [terms constant]. revert k.
  induction ts as [|[u c] ts IH]; intros k; cbn [fold_left fst snd map].
  - split; [intros _; eexists; reflexivity | intros _ u []].
  - destruct (value_var r u) as [q|] eqn:E.
    + rewrite <- IH. split.
      * intros H u' Hu'. apply H. now right.
      * intros H u' [<- | Hu']; [rewrite E; eexists; reflexivity | now apply H].
    + rewrite (value_fold r ts). split.
      * intros H. destruct (H u (or_introl eq_refl)) as [q Hq]. congruence.
      * intros [q Hq]. discriminate.
Qed.

(** ** When the reports complete *)

Lemma outcome_bind {A B} (m : Out A) (f : A -> Out B) :
  outcome (m ≫= f)
  = match outcome m with
    | Ok a => outcome (f a)
    | Raise e => Raise e
    end.
Proof. destruct m as [o [a|e]]; reflexivity. Qed.

Lemma outcome_lift {A} (r : result A) : outcome (lift r) = r.
Proof. reflexivity. Qed.

Lemma outcome_print l : outcome (print l) = Ok tt.
Proof. reflexivity. Qed.

Lemma for_each_completes {A} (l : list A) (body : A -> Out unit) :
  outcome (for_each l body) = Ok tt <-> forall a, In a l -> outcome (body a) = Ok tt.
Proof.
  induction l as [|a l IH]; cbn [for_each].
  - split; [intros _ a [] | reflexivity].
  - rewrite outcome_bind. destruct (outcome (body a)) as [[]|e] eqn:E.
    + rewrite IH. split.
      * intros H a' [<- | Ha']; [exact E | now apply H].
      * intros H a' Ha'. apply H. now right.
    + split; [discriminate|]. intros H. rewrite <- E. apply H. now left.
Qed.

Lemma for_each_raises_TypeError {A} (l : list A) (body : A -> Out unit) :
  (forall a, outcome (body a) = Ok tt \/ outcome (body a) = Raise TypeError) ->
  outcome (for_each l body) = Ok tt \/ outcome (for_each l body) = Raise TypeError.
Proof.
  intros H. induction l as [|a l IH]; cbn [for_each].
  - now left.
  - rewrite outcome_bind. destruct (H a) as [-> | ->]; [exact IH | now right].
Qed.

Lemma report2_outcome rs p r :
  (outcome (report2 rs p r) = Ok tt <->
     (forall g, In g rs -> is_Some (value_var r (y g))) /\
     is_Some (value r (objective p))) /\
  (outcome (report2 rs p r) = Ok tt \/ outcome (report2 rs p r) = Raise TypeError).
Proof.
  unfold report2. rewrite outcome_bind, outcome_print. cbv beta iota.
  set (body := fun g : string =>
     n ← lift (int (value_var r (y g)));
     print [Text "Clientes da região "; Text g; Text ": "; Int n]).
  assert (forall g, outcome (body g) = Ok tt <-> is_Some (value_var r (y g))) as Hb.
  { intros g. unfold body. rewrite outcome_bind, outcome_lift.
    destruct (value_var r (y g)) as [q|]; cbn [int].
    - split; [intros _; eexists; reflexivity | reflexivity].
    - split; [discriminate | intros [q Hq]; discriminate]. }
  assert (forall g, outcome (body g) = Ok tt \/ outcome (body g) = Raise TypeError) as Hb'.
  { intros g. unfold body. rewrite outcome_bind, outcome_lift.
    destruct (value_var r (y g)) as [q|]; cbn [int]; [now left | now right]. }
  pose proof (for_each_completes rs body) as Hfe.
  rewrite outcome_bind.
  destruct (for_each_raises_TypeError rs body Hb') as [E | E]; rewrite E in *.
  - rewrite outcome_bind, outcome_lift.
    destruct (value r (objective p)) as [v|]; cbn [fmt].
    + rewrite outcome_bind, outcome_print. cbv beta iota. rewrite outcome_print.
      split; [|now left]. split; [|reflexivity].
      intros _. split; [|eexists; reflexivity].
      intros g Hg. apply Hb. now apply Hfe.
    + split; [|now right]. split; [discriminate|]. intros [_ [v Hv]]. discriminate.
  - split; [|now right]. split; [discriminate|]. intros [Hall _].
    assert (Raise TypeError = Ok tt) as Habs; [|discriminate Habs].
    apply Hfe. intros g Hg. apply Hb. now apply Hall.
Qed.

Lemma cut3_label l1 l2 l3 q s : cut3 l1 l2 l3 q = Some s -> In s [l1; l2; l3].
Proof.
  unfold cut3. destruct (Qle_bool q 0); [discriminate|].
  destruct (Qle_bool q 30); [intros [= <-]; simpl; tauto|].
  destruct (Qle_bool q 50); [intros [= <-]; simpl; tauto|].
  destruct (Qle_bool q 100); [intros [= <-]; simpl; tauto | discriminate].
Qed.

Lemma list_to_map_keys_is_Some {A} (f : string -> A) (ks : list string) k :
  k ∈ ks -> is_Some ((list_to_map (map (fun k => (k, f k)) ks) : gmap string A) !! k).
Proof.
  intros Hk.
  destruct (list_to_map (map (fun k => (k, f k)) ks) !! k) as [v|] eqn:E; [eauto|].
  apply not_elem_of_list_to_map_2 in E. exfalso. apply E.
  apply list_elem_of_fmap. exists (k, f k). split; [reflexivity|].
  apply list_elem_of_fmap. exists k. split; [reflexivity | exact Hk].
Qed.

Lemma groupby_mean_is_Some keys vals k :
  k ∈ unique (dropna keys) -> is_Some (groupby_mean keys vals !! k).
Proof. apply list_to_map_keys_is_Some. Qed.

Lemma value_counts_is_Some cats l k : k ∈ cats -> is_Some (value_counts cats l !! k).
Proof.
  apply (list_to_map_keys_is_Some
           (fun c => inject_Z (Z.of_nat (length (filter (fun o => o = Some c) l))))).
Qed.

Lemma receita_faixa_is_Some f : In f faixa_labels -> is_Some (receita_faixa !! f).
Proof.
  intros [<- | [<- | [<- | []]]]; eexists; reflexivity.
Qed.

Lemma dict_get_is_Some d k : is_Some (d !! k) -> exists v, dict_get d k = Ok v.
Proof. intros [v Hv]. exists v. unfold dict_get. now rewrite Hv. Qed.

Lemma faixas_derive4 df0 df fs cs :
  derive4 df0 = Ok df -> faixas df = Ok fs -> custo_faixa df = Ok cs ->
  forall f, In f fs -> In f faixa_labels /\ is_Some (cs !! f).
Proof.
  unfold derive4. destruct (getitem df0 "age") as [col|]; [|discriminate].
  cbn [mbind result_bind]. destruct (numeric col) as [l|]; [|discriminate].
  intros [= <-]. unfold faixas, custo_faixa. rewrite getitem_setitem.
  cbn [mbind result_bind categories_of]. intros [= <-].
  destruct (getitem _ "charges") as [ch|]; [|discriminate]. cbn [mbind result_bind].
  destruct (numeric ch) as [vals|]; [|discriminate]. intros [= <-] f Hf.
  apply list_elem_of_In in Hf. split.
  - apply elem_of_unique, list_elem_of_omap in Hf.
    destruct Hf as (o & Ho & Eo). apply list_elem_of_fmap in Ho.
    destruct Ho as (q & -> & _). exact (cut3_label _ _ _ q f Eo).
  - now apply groupby_mean_is_Some.
Qed.

Lemma report4_outcome df0 df fs cs p r :
  derive4 df0 = Ok df -> faixas df = Ok fs -> custo_faixa df = Ok cs ->
  outcome (report4 fs cs p r) = Ok tt.
Proof.
  intros Hd Hf Hc. pose proof (faixas_derive4 df0 df fs cs Hd Hf Hc) as Hin.
  unfold report4. rewrite outcome_bind, outcome_print. cbv beta iota.
  rewrite outcome_bind.
  match goal with |- context [for_each fs ?b] => set (body := b) end.
  assert (outcome (for_each fs body) = Ok tt) as ->.
  { apply for_each_completes. intros f Hfs. unfold body.
    destruct (value_var r (clientes_faixa f)) as [v|]; [|reflexivity].
    destruct (Hin f Hfs) as [Hl Hs].
    destruct (dict_get_is_Some _ _ (receita_faixa_is_Some f Hl)) as [rv ->].
    destruct (dict_get_is_Some _ _ Hs) as [cv ->]. reflexivity. }
  rewrite outcome_bind. destruct (value r (objective p)); reflexivity.
Qed.

Lemma report5_outcome r : outcome (report5 r) = Ok tt.
Proof.
  unfold report5, canais. cbn [report5_loop].
  destruct (value_var r (orcamento "Digital")); destruct (value_var r (orcamento "TV"));
    destruct (value_var r (orcamento "Radio"));
    destruct (value_var r (orcamento "Impresso")); reflexivity.
Qed.

Lemma report5_loop_total cs r t :
  (forall c, In c cs -> In c canais) ->
  exists o t',
    report5_loop cs r t = mkOut o (Ok t') /\
    t' == t + Pandas.sum (map (novos_clientes_canal r) cs).
Proof.
  revert t. induction cs as [|c cs IH]; intros t Hcs; cbn [report5_loop].
  - exists [], t. split; [reflexivity|]. simpl. ring.
  - assert (In c canais) as Hc by (apply Hcs; now left).
    assert (forall c', In c' cs -> In c' canais) as Hcs' by (intros; apply Hcs; now right).
    change (Pandas.sum (map (novos_clientes_canal r) (c :: cs)))
      with (novos_clientes_canal r c + Pandas.sum (map (novos_clientes_canal r) cs)).
    unfold novos_clientes_canal at 1.
    destruct (value_var r (orcamento c)) as [v|].
    + assert (exists k rate, custo_por_lead !! c = Some k /\ conversao_rate !! c = Some rate)
        as (k & rate & Ek & Er).
      { destruct Hc as [<- | [<- | [<- | [<- | []]]]]; eexists; eexists; split; reflexivity. }
      unfold dict_get. rewrite Ek, Er. rewrite !lift_ok_bind.
      destruct (IH (t + v / k * rate) Hcs') as (o & t' & E & Et).
      eexists. exists t'. split.
      * unfold mbind, out_bind. cbn [outcome printed print]. rewrite E. reflexivity.
      * rewrite Et. ring.
    + destruct (IH t Hcs') as (o & t' & E & Et). exists o, t'. split; [exact E|].
      rewrite Et. ring.
Qed.

(** X7: the report of consulta 5 always completes.  Its last lines are the total
    of new clients and the separator, and when the objective of the model
    has a value under the result, the total it prints is that value: the
    report's own arithmetic agrees with the model's objective. *)
Theorem report5_total_is_objective r :
  exists lines total,
    report5 r
    = mkOut ([Text "=== CONSULTA 5: ALOCAÇÃO ÓTIMA DE RECURSOS DE MARKETING ==="]
             :: lines
             ++ [[Text "Total de novos clientes: "; Fmt ".0f" total]; separator])
            (Ok tt) /\
    forall v, value r (objective prob5_model) = Some v -> total == v.
Proof.
  destruct (report5_loop_total canais r 0 (fun c H => H)) as (o & t' & E & Et).
  exists o, t'. split.
  - unfold report5. unfold mbind, out_bind. cbn [outcome printed print].
    rewrite E. cbn [outcome printed app]. reflexivity.
  - intros v Hv. pose proof (value_eval _ _ _ Hv) as Ev. rewrite prob5_objective in Ev.
    assert (is_Some (value r (objective prob5_model))) as Hs by eauto.
    pose proof (proj2 (value_is_Some r (objective prob5_model)) Hs) as Hall.
    assert (forall c, In c canais -> is_Some (value_var r (orcamento c))) as Hc.
    { intros c Hc. apply Hall. unfold prob5_model, vars. cbn [objective terms map fst].
      destruct Hc as [<- | [<- | [<- | [<- | []]]]]; simpl; tauto. }
    destruct (Hc "Digital") as [vd Ed]; [simpl; tauto|].
    destruct (Hc "TV") as [vt Et']; [simpl; tauto|].
    destruct (Hc "Radio") as [vr Er]; [simpl; tauto|].
    destruct (Hc "Impresso") as [vi Ei]; [simpl; tauto|].
    assert (assignment_of r "orcamento_Digital" = vd) as Ad
      by (unfold assignment_of;
          change (varValue r !! "orcamento_Digital" = Some vd) in Ed; now rewrite Ed).
    assert (assignment_of r "orcamento_TV" = vt) as At
      by (unfold assignment_of;
          change (varValue r !! "orcamento_TV" = Some vt) in Et'; now rewrite Et').
    assert (assignment_of r "orcamento_Radio" = vr) as Ar
      by (unfold assignment_of;
          change (varValue r !! "orcamento_Radio" = Some vr) in Er; now rewrite Er).
    assert (assignment_of r "orcamento_Impresso" = vi) as Ai
      by (unfold assignment_of;
          change (varValue r !! "orcamento_Impresso" = Some vi) in Ei; now rewrite Ei).
    rewrite Ad, At, Ar, Ai in Ev. rewrite Et, Ev.
    unfold canais, Pandas.sum. cbn [map fold_right]. unfold novos_clientes_canal.
    rewrite Ed, Et', Er, Ei.
    change (custo_por_lead !! "Digital") with (Some 50).
    change (custo_por_lead !! "TV") with (Some 200).
    change (custo_por_lead !! "Radio") with (Some 75).
    change (custo_por_lead !! "Impresso") with (Some 100).
    change (conversao_rate !! "Digital") with (Some 0.15).
    change (conversao_rate !! "TV") with (Some 0.08).
    change (conversao_rate !! "Radio") with (Some 0.10).
    change (conversao_rate !! "Impresso") with (Some 0.05).
    cbv beta iota. field.
Qed.

(** ** Consulta 3 on a large table *)

(** X4: with more than 1000 records the capacity model is infeasible: the
    consultations alone, at 2000 each, exceed the budget of 2000000. *)
Theorem capacity_infeasible_over_1000 df ages smokers bmis :
  columns df !! "age" = Some (NumCol ages) ->
  columns df !! "smoker" = Some (StrCol smokers) ->
  columns df !! "bmi" = Some (NumCol bmis) ->
  (1000 < nrows df)%nat ->
  exists df' p,
    derive3 df = Ok df' /\ prob3 df' = Ok p /\ forall a, ~ feasible p a.
Proof.
  intros Ha Hs Hb Hn.
  destruct (capacity_pipeline df ages smokers bmis Ha Hs Hb) as (df' & Hd & Hp).
  eexists. eexists. split; [exact Hd|]. split; [exact Hp|].
  intros a. apply capacity_infeasible.
  destruct (count_is_integer
              (fun r : Q * string => negb (Qle_bool (fst r) 50) || String.eqb (snd r) "yes")
              (zip ages smokers)) as [_ PE].
  destruct (count_is_integer
              (fun r : Q * Q => negb (Qle_bool (fst r) 35) || negb (Qle_bool (snd r) 60))
              (zip bmis ages)) as [_ PS].
  fold (demanda_emergencia_total ages smokers) in PE.
  fold (demanda_cirurgia_total bmis ages) in PS.
  rewrite sum_replicate_one.
  assert (1001 <= inject_Z (Z.of_nat (nrows df))).
  { change 1001 with (inject_Z 1001). rewrite <- Zle_Qle. lia. }
  lra.
Qed.

Lemma capacity_infeasible_over_1000_witness :
  exists df' p,
    derive3 big_table = Ok df' /\ prob3 df' = Ok p /\ forall a, ~ feasible p a.
Proof.
  apply (capacity_infeasible_over_1000 big_table (replicate 1001 30)
           (replicate 1001 "no") (replicate 1001 25)).
  - reflexivity.
  - reflexivity.
  - reflexivity.
  - unfold big_table. cbn [nrows]. lia.
Defined.

(** ** The names an expression keeps *)

Lemma names_addterm v c ts n :
  In n (map (fun t => name (fst t)) ts) \/ n = name v ->
  In n (map (fun t => name (fst t)) (addterm v c ts)).
Proof.
  induction ts as [|[v' c'] ts IH]; cbn [addterm map fst].
  - intros [[] | ->]. now left.
  - destruct (String.eqb (name v') (name v)) eqn:E; cbn [map fst].
    + apply String.eqb_eq in E. intros [[<- | H] | ->]; [now left | now right | left; exact E].
    + intros [[<- | H] | ->]; [now left | right; apply IH; now left | right; apply IH; now right].
Qed.

Lemma names_addterms ts other n :
  In n (map (fun t => name (fst t)) ts) \/ In n (map (fun t => name (fst t)) other) ->
  In n (map (fun t => name (fst t)) (addterms ts other)).
Proof.
  unfold addterms. revert ts.
  induction other as [|[v c] other IH]; intros ts; cbn [fold_left map fst snd].
  - intros [H | []]. exact H.
  - intros [H | [<- | H]]; apply IH.
    + left. apply names_addterm. now left.
    + left. apply names_addterm. now right.
    + now right.
Qed.

Lemma names_addInPlace e other n :
  In n (names e) \/ In n (names other) -> In n (names (addInPlace e other)).
Proof. apply names_addterms. Qed.

Lemma names_lpSum es e n : In e es -> In n (names e) -> In n (names (lpSum es)).
Proof.
  unfold lpSum. generalize empty_expr as e0.
  induction es as [|e' es IH]; intros e0 He Hn; [destruct He|].
  cbn [fold_left].
  assert (forall es e1, In n (names e1) -> In n (names (fold_left addInPlace es e1))) as K.
  { clear. induction es as [|e es IH]; intros e1 H; cbn [fold_left]; [exact H|].
    apply IH, names_addInPlace. now left. }
  destruct He as [-> | He].
  - apply K, names_addInPlace. now right.
  - now apply IH.
Qed.

Lemma names_mul e k n : ~ k == 0 -> In n (names (mul e k)) <-> In n (names e).
Proof.
  intros Hk. unfold mul. destruct (Qeq_bool k 0) eqn:E.
  - apply Qeq_bool_iff in E. contradiction.
  - unfold names. cbn [terms]. rewrite map_map. reflexivity.
Qed.

Lemma names_vars e n : In n (names e) <-> exists u, In u (vars e) /\ name u = n.
Proof.
  unfold names, vars. rewrite in_map_iff. split.
  - intros (t & <- & Ht). exists (fst t). split; [now apply in_map | reflexivity].
  - intros (u & Hu & <-). apply in_map_iff in Hu. destruct Hu as (t & <- & Ht).
    exists t. split; [reflexivity | exact Ht].
Qed.

(** ** Consulta 1 for any table *)

Lemma mapM_map_ok {A B} (f : A -> result B) (g : A -> B) l :
  (forall i, In i l -> f i = Ok (g i)) -> mapM f l = Ok (map g l).
Proof.
  induction l as [|i l IH]; intros H; cbn [mapM map]; [reflexivity|].
  rewrite (H i) by (now left). cbn [mbind result_bind].
  rewrite IH by (intros; apply H; now right). reflexivity.
Qed.

Lemma sum_map_scale {A} (k : Q) (f : A -> Q) (l : list A) :
  Pandas.sum (map (fun i => k * f i) l) == k * Pandas.sum (map f l).
Proof.
  induction l as [|i l IH].
  - change (0 == k * 0). ring.
  - change (k * f i + Pandas.sum (map (fun i => k * f i) l)
            == k * (f i + Pandas.sum (map f l))).
    rewrite IH. ring.
Qed.

Lemma nrows_setitem df k col : nrows (setitem df k col) = nrows df.
Proof. reflexivity. Qed.

Lemma selection_pipeline df l :
  columns df !! "charges" = Some (NumCol l) -> length l = nrows df ->
  selection_model df
  = Ok (mkProblem "SelecaoSeguros" LpMaximize
          (lpSum (map (fun i => mul (of_var (x i)) 5000) (seq 0 (nrows df))))
          [le (lpSum (map (fun i => mul (of_var (x i)) (cost_of l i)) (seq 0 (nrows df))))
              (mul (lpSum (map (fun i => of_var (x i)) (seq 0 (nrows df)))) 15000)]).
Proof.
  intros Hc Hl. unfold selection_model, derive1, setitem_scalar. cbv zeta.
  rewrite getitem_setitem_ne by done.
  apply getitem_Ok in Hc. rewrite Hc. cbn [mbind result_bind].
  unfold prob, clientes, index. rewrite !nrows_setitem.
  set (d1 := setitem (setitem df "receita" (NumCol (replicate (nrows df) 5000)))
                     "custo" (NumCol l)).
  rewrite (mapM_map_ok (fun i => r ← loc_num d1 i "receita"; Ok (mul (of_var (x i)) r))
                       (fun i => mul (of_var (x i)) 5000)).
  2: { intros i Hi. apply in_seq in Hi. unfold loc_num, d1.
       rewrite getitem_setitem_ne by done. rewrite getitem_setitem.
       cbn [mbind result_bind numeric]. unfold loc.
       rewrite lookup_replicate_2 by lia. reflexivity. }
  cbn [mbind result_bind].
  rewrite (mapM_map_ok (fun i => c ← loc_num d1 i "custo"; Ok (mul (of_var (x i)) c))
                       (fun i => mul (of_var (x i)) (cost_of l i))).
  2: { intros i Hi. apply in_seq in Hi. unfold loc_num, d1.
       rewrite getitem_setitem. cbn [mbind result_bind numeric]. unfold loc, cost_of.
       destruct (lookup_lt_is_Some_2 l i ltac:(lia)) as [q ->]. reflexivity. }
  reflexivity.
Qed.

(** X1: for a table with a numeric [charges] column the selection model is
    built and means what lines 28-31 say: an assignment is feasible exactly
    when every [x_i] is 0 or 1 and the total cost of the selected records is at
    most 15000 per selected record; the objective is 5000 per selected
    record.  Selecting nobody is always feasible, so the model is never
    infeasible. *)
Theorem selection_model_meaning df l :
  columns df !! "charges" = Some (NumCol l) -> length l = nrows df ->
  exists p,
    selection_model df = Ok p /\
    (forall a,
        feasible p a <->
        (forall i, (i < nrows df)%nat -> a (name (x i)) == 0 \/ a (name (x i)) == 1) /\
        Pandas.sum (map (fun i => cost_of l i * a (name (x i))) (seq 0 (nrows df)))
        <= 15000 * Pandas.sum (map (fun i => a (name (x i))) (seq 0 (nrows df)))) /\
    (forall a, eval a (objective p)
               == 5000 * Pandas.sum (map (fun i => a (name (x i))) (seq 0 (nrows df)))) /\
    feasible p (fun _ => 0).
Proof.
  intros Hc Hl. pose proof (selection_pipeline df l Hc Hl) as Hp.
  eexists. split; [exact Hp|].
  set (n := nrows df) in *.
  match type of Hp with _ = Ok ?q => set (p := q) in * end.
  assert (forall a, eval a (objective p)
                    == 5000 * Pandas.sum (map (fun i => a (name (x i))) (seq 0 n))) as Hobj.
  { intros a. unfold p. cbn [objective]. rewrite eval_lpSum, map_map.
    rewrite <- sum_map_scale. apply sum_map_ext.
    intros i _. rewrite eval_mul, eval_of_var. reflexivity. }
  assert (forall a, Forall (holds a) (constraints p) <->
            Pandas.sum (map (fun i => cost_of l i * a (name (x i))) (seq 0 n))
            <= 15000 * Pandas.sum (map (fun i => a (name (x i))) (seq 0 n))) as Hcon.
  { intros a. unfold p. cbn [constraints]. rewrite Forall_cons, Forall_nil.
    unfold holds. cbn [csense expr le].
    rewrite eval_subInPlace, eval_mul, eval_lpSum_vars, eval_lpSum, map_map.
    rewrite (sum_map_ext (fun i => eval a (mul (of_var (x i)) (cost_of l i)))
                         (fun i => cost_of l i * a (name (x i)))).
    2: { intros i _. rewrite eval_mul, eval_of_var. reflexivity. }
    split; [intros [H _] | intros H; split; [|exact I]]; lra. }
  set (d1 := setitem (setitem_scalar df "receita" 5000) "custo" (NumCol l)).
  assert (prob d1 = Ok p) as Hprob.
  { revert Hp. unfold selection_model, derive1, setitem_scalar. cbv zeta.
    rewrite getitem_setitem_ne by done.
    rewrite (proj2 (getitem_Ok df "charges" (NumCol l)) Hc).
    cbn [mbind result_bind]. exact (fun H => H). }
  assert (forall a,
    Forall (in_domain a) (variables p) <->
    (forall i, (i < n)%nat -> a (name (x i)) == 0 \/ a (name (x i)) == 1)) as Hdom.
  { intros a. rewrite List.Forall_forall. split.
    - intros H i Hi.
      assert (In (name (x i)) (names (objective p))) as Hn.
      { unfold p. cbn [objective].
        apply (names_lpSum _ (mul (of_var (x i)) 5000)).
        - apply in_map_iff. exists i. split; [reflexivity | apply in_seq; lia].
        - apply names_mul; [discriminate | now left]. }
      apply names_vars in Hn. destruct Hn as (u & Hu & En).
      assert (In u (variables p)) as Hu' by (unfold variables; apply in_app_iff; now left).
      destruct (prob_vars d1 p u Hprob Hu') as (i' & _ & ->).
      rewrite <- En. apply (binary_domain a _ (Some 0) (Some 1)). now apply H.
    - intros H u Hu.
      destruct (prob_vars d1 p u Hprob Hu) as (i' & Hi' & ->).
      apply in_domain_binary. apply H. unfold clientes, index in Hi'.
      apply in_seq in Hi'. unfold d1, setitem_scalar in Hi'.
      rewrite !nrows_setitem in Hi'.
      fold n in Hi'. lia. }
  split; [|split; [exact Hobj|]].
  - intros a. unfold feasible. rewrite Hdom, Hcon. reflexivity.
  - unfold feasible. rewrite Hdom, Hcon. split.
    + intros i _. left. reflexivity.
    + rewrite (sum_map_ext (fun i => cost_of l i * 0) (fun i => 0 * cost_of l i))
        by (intros; ring).
      rewrite (sum_map_ext (fun _ : nat => 0) (fun i => 0 * cost_of l i))
        by (intros; ring).
      rewrite sum_map_scale. lra.
Qed.

Lemma selection_model_meaning_witness :
  exists p,
    selection_model three_records = Ok p /\
    (forall a,
        feasible p a <->
        (forall i, (i < nrows three_records)%nat ->
                   a (name (x i)) == 0 \/ a (name (x i)) == 1) /\
        Pandas.sum (map (fun i => cost_of [10000; 16000; 20000] i * a (name (x i)))
                        (seq 0 (nrows three_records)))
        <= 15000 * Pandas.sum (map (fun i => a (name (x i)))
                                   (seq 0 (nrows three_records)))) /\
    (forall a, eval a (objective p)
               == 5000 * Pandas.sum (map (fun i => a (name (x i)))
                                         (seq 0 (nrows three_records)))) /\
    feasible p (fun _ => 0).
Proof.
  apply (selection_model_meaning three_records [10000; 16000; 20000]); reflexivity.
Defined.

(** ** Variable names *)

Lemma append_inj_r (s t t' : string) : s +:+ t = s +:+ t' -> t = t'.
Proof.
  induction s as [|c s IH]; cbn [String.append]; [exact (fun H => H)|].
  intros [= H]. now apply IH.
Qed.

(** X10: the variables created by one [LpVariable.dicts] call have different
    names for different indices, and the 255 variables of the network model
    have pairwise different names. *)
Theorem variable_names_distinct :
  (forall i j, name (x i) = name (x j) -> i = j) /\
  (forall r s, name (y r) = name (y s) -> r = s) /\
  (forall f g, name (clientes_faixa f) = name (clientes_faixa g) -> f = g) /\
  (forall c d, name (orcamento c) = name (orcamento d) -> c = d) /\
  (forall i j, name (z i) = name (z j) -> i = j) /\
  NoDup (map name (map (fun ij => w (fst ij) (snd ij)) pairs
                   ++ map z (seq 0 n_centros))).
Proof.
  repeat split.
  - intros i j H. apply append_inj_r in H. now apply (inj pretty) in H.
  - intros r s H. now apply append_inj_r in H.
  - intros f g H. now apply append_inj_r in H.
  - intros c d H. now apply append_inj_r in H.
  - intros i j H. apply append_inj_r in H. now apply (inj pretty) in H.
  - refine (bool_decide_unpack _ _). vm_compute. exact I.
Qed.

(** ** Consulta 6: the model is always built *)

Lemma draw_points_length (RngState : Type)
    (uniform : Q -> Q -> RngState -> Q * RngState) n s :
  length (fst (draw_points RngState uniform n s)) = n.
Proof.
  revert s. induction n as [|n IH]; intros s; cbn [draw_points]; [reflexivity|].
  destruct (draw_point RngState uniform s) as [pt s1].
  specialize (IH s1). destruct (draw_points RngState uniform n s1) as [ps s2].
  cbn [fst length] in *. now rewrite IH.
Qed.

Lemma distancias_is_Some (sqrt : Q -> Q) (cc ce : list (Q * Q)) i j :
  (i < length cc)%nat -> (j < length ce)%nat ->
  is_Some (distancias sqrt cc ce !! (i, j)).
Proof.
  intros Hi Hj. unfold distancias.
  match goal with |- is_Some (list_to_map ?l !! _) => set (kvs := l) end.
  destruct (list_to_map kvs !! (i, j)) as [v|] eqn:E; [eauto|].
  apply not_elem_of_list_to_map_2 in E. exfalso. apply E.
  destruct (lookup_lt_is_Some_2 cc i Hi) as [c Hc].
  destruct (lookup_lt_is_Some_2 ce j Hj) as [e He].
  apply list_elem_of_fmap. exists ((i, j), distancia sqrt c e). split; [reflexivity|].
  unfold kvs. apply list_elem_of_In, in_flat_map. exists (i, c). split.
  - apply list_elem_of_In. apply (elem_of_lookup_imap_2 pair cc c i Hc).
  - apply in_map_iff. exists (j, e). split; [reflexivity|].
    apply list_elem_of_In. apply (elem_of_lookup_imap_2 pair ce e j He).
Qed.

Lemma prob6_built d :
  (forall i j, (i < n_clientes_sample)%nat -> (j < n_centros)%nat -> is_Some (d !! (i, j))) ->
  prob6 d
  = Ok (mkProblem "RedeAtendimento" LpMinimize
          (addInPlace
             (lpSum (map (fun ij => mul (of_var (w (fst ij) (snd ij))) (default 0 (d !! ij)))
                         pairs))
             (lpSum (map (fun j => mul (of_var (z j)) custo_fixo_centro) (seq 0 n_centros))))
          constraints6).
Proof.
  intros H. unfold prob6.
  rewrite (mapM_map_ok _ (fun ij => mul (of_var (w (fst ij) (snd ij))) (default 0 (d !! ij)))).
  - reflexivity.
  - intros [i j] Hij. apply in_pairs in Hij. destruct Hij as [Hi Hj].
    unfold dist_get. destruct (H i j Hi Hj) as [v ->]. reflexivity.
Qed.

(** X8: the network model is built whatever the generator draws: the distance
    dictionary has an entry for each of the 50 x 5 pairs, so no lookup
    fails.  When [v ** 0.5] is never negative, every feasible assignment
    costs at least 20000, the fixed cost of two centers. *)
Theorem network_model_built
    (RngState : Type) (seed : Z -> RngState)
    (uniform : Q -> Q -> RngState -> Q * RngState) (sqrt : Q -> Q) (rng : RngState) :
  exists p,
    network_model RngState seed uniform sqrt rng = Ok p /\
    constraints p = constraints6 /\
    ((forall q, 0 <= sqrt q) ->
     forall a, feasible p a -> 20000 <= eval a (objective p)).
Proof.
  unfold network_model.
  pose proof (draw_points_length RngState uniform n_centros (seed 42%Z)) as L1.
  destruct (draw_points RngState uniform n_centros (seed 42%Z)) as [centros r1].
  pose proof (draw_points_length RngState uniform n_clientes_sample r1) as L2.
  destruct (draw_points RngState uniform n_clientes_sample r1) as [cc r2].
  cbn [fst] in L1, L2.
  set (d := distancias sqrt cc centros).
  assert (forall i j, (i < n_clientes_sample)%nat -> (j < n_centros)%nat ->
                      is_Some (d !! (i, j))) as Hd.
  { intros i j Hi Hj. apply distancias_is_Some; lia. }
  pose proof (prob6_built d Hd) as Hp.
  eexists. split; [exact Hp|]. split; [reflexivity|].
  intros Hsq a Ha. apply (network_feasible_iff d _ a Hp) in Ha.
  destruct Ha as (Hw & _ & _ & _ & Hopen & _).
  cbn [objective]. rewrite eval_addInPlace, !eval_lpSum, !map_map.
  assert (0 <= Pandas.sum (map (fun ij => eval a (mul (of_var (w (fst ij) (snd ij)))
                                                      (default 0 (d !! ij)))) pairs)) as Hdist.
  { assert (forall l : list (nat * nat), (forall ij, In ij l -> In ij pairs) ->
              0 <= Pandas.sum (map (fun ij => eval a (mul (of_var (w (fst ij) (snd ij)))
                                                          (default 0 (d !! ij)))) l)) as G.
    { induction l as [|[i j] l IH]; intros Hl.
      - apply Qle_refl.
      - change (0 <= eval a (mul (of_var (w i j)) (default 0 (d !! (i, j))))
                     + Pandas.sum (map (fun ij => eval a (mul (of_var (w (fst ij) (snd ij)))
                                                              (default 0 (d !! ij)))) l)).
        assert (0 <= Pandas.sum (map (fun ij => eval a (mul (of_var (w (fst ij) (snd ij)))
                                                            (default 0 (d !! ij)))) l)) as IH'
          by (apply IH; intros; apply Hl; now right).
        rewrite eval_mul, eval_of_var.
        assert (In (i, j) pairs) as Hij by (apply Hl; now left).
        apply in_pairs in Hij. destruct Hij as [Hi Hj].
        assert (0 <= default 0 (d !! (i, j))) as Hnn.
        { destruct (d !! (i, j)) as [v|] eqn:E; [|apply Qle_refl]. cbn [default].
          unfold d, distancias in E. apply elem_of_list_to_map_2 in E.
          apply list_elem_of_In, in_flat_map in E. destruct E as (ic & _ & E).
          apply in_map_iff in E. destruct E as (jc & [= _ _ <-] & _). apply Hsq. }
        destruct (Hw i j Hi Hj) as [E | E]; rewrite E; nra. }
    apply G. auto. }
  rewrite (sum_map_ext (fun j => eval a (mul (of_var (z j)) custo_fixo_centro))
                       (fun j => custo_fixo_centro * a (name (z j)))).
  2: { intros j _. rewrite eval_mul, eval_of_var. reflexivity. }
  rewrite sum_map_scale. fold (open_count a). unfold custo_fixo_centro. lra.
Qed.

(** ** Consulta 4: what feasibility requires of the table *)

Lemma mapM_elem_l {A B} (f : A -> result B) l bs i :
  mapM f l = Ok bs -> In i l -> exists b, In b bs /\ f i = Ok b.
Proof.
  intros H. apply mapM_Forall2 in H. induction H as [|i' b' l bs Hib HF IH].
  - intros [].
  - intros [<- | Hi].
    + exists b'. split; [now left | exact Hib].
    + destruct (IH Hi) as (b & Hb & E). exists b. split; [now right | exact E].
Qed.

(** X5: if the age-tier model has a feasible assignment, then every tier that
    occurs in the table has at least 20 records: each tier must receive at
    least 0.2 of a total of at least 100, and at most its own count. *)
Theorem tier_model_needs_20_per_tier df p fs disp a :
  prob4 df = Ok p -> faixas df = Ok fs -> disponivel_faixa df = Ok disp ->
  feasible p a ->
  forall f c, In f fs -> disp !! f = Some c -> 20 <= c.
Proof.
  unfold prob4. intros Hp Hf Hd [_ Hc] f c Hin Hdisp.
  rewrite Hf in Hp. cbn [mbind result_bind] in Hp.
  destruct (custo_faixa df) as [custos|]; [|discriminate]. cbn [mbind result_bind] in Hp.
  destruct (mapM _ fs) as [obj|]; [|discriminate]. cbn [mbind result_bind] in Hp.
  rewrite Hd in Hp. cbn [mbind result_bind] in Hp.
  destruct (mapM (fun f0 => d ← dict_get disp f0; Ok (le_const (of_var (clientes_faixa f0)) d))
                 fs) as [limites|] eqn:El; [|discriminate].
  cbn [mbind result_bind] in Hp. injection Hp as <-. cbn [constraints] in Hc.
  rewrite !Forall_app, Forall_cons in Hc.
  destruct Hc as (Hlim & Htot & Hshare).
  destruct (mapM_elem_l _ _ _ f El Hin) as (b & Hb & Eb).
  unfold dict_get in Eb. rewrite Hdisp in Eb. cbn [mbind result_bind] in Eb.
  injection Eb as <-.
  rewrite List.Forall_forall in Hlim. specialize (Hlim _ Hb).
  unfold holds in Hlim. cbn [csense expr le_const] in Hlim.
  rewrite eval_sub_const, eval_of_var in Hlim.
  unfold holds in Htot. cbn [csense expr ge_const] in Htot.
  rewrite eval_sub_const, eval_lpSum_vars in Htot.
  rewrite List.Forall_forall in Hshare.
  specialize (Hshare (ge (of_var (clientes_faixa f))
                         (mul (lpSum (map (fun f0 => of_var (clientes_faixa f0)) fs)) 0.2))).
  unfold holds in Hshare. cbn [csense expr ge] in Hshare.
  rewrite eval_subInPlace, eval_mul, eval_of_var, eval_lpSum_vars in Hshare.
  assert (In (ge (of_var (clientes_faixa f))
                 (mul (lpSum (map (fun f0 => of_var (clientes_faixa f0)) fs)) 0.2))
             (map (fun f0 => ge (of_var (clientes_faixa f0))
                                (mul (lpSum (map (fun f1 => of_var (clientes_faixa f1)) fs)) 0.2))
                  fs)) as Hmem.
  { apply in_map_iff. exists f. split; [reflexivity | exact Hin]. }
  specialize (Hshare Hmem). lra.
Qed.

Lemma tier_model_needs_20_per_tier_witness :
  feasible tier_prob (fun _ => 100) /\
  tier_disponivel !! "Jovem" = Some 100 /\
  20 <= 100.
Proof.
  assert (feasible tier_prob (fun _ => 100)) as F
    by (apply feasibleb_spec; vm_compute; reflexivity).
  assert (tier_disponivel !! "Jovem" = Some 100) as D by (vm_compute; reflexivity).
  split; [exact F|]. split; [exact D|].
  apply (tier_model_needs_20_per_tier tier_table_derived tier_prob ["Jovem"]
           tier_disponivel (fun _ => 100) eq_refl eq_refl eq_refl F "Jovem" 100).
  - now left.
  - exact D.
Defined.

(** ** The script runs to completion on well-formed tables *)

Lemma mapM_ok_exists {A B} (f : A -> result B) l :
  (forall i, In i l -> exists b, f i = Ok b) -> exists bs, mapM f l = Ok bs.
Proof.
  induction l as [|i l IH]; intros H; cbn [mapM]; [eexists; reflexivity|].
  destruct (H i (or_introl eq_refl)) as [b ->]. cbn [mbind result_bind].
  destruct IH as [bs ->]; [intros; apply H; now right|]. eexists. reflexivity.
Qed.

Lemma out_completes {A} (m : Out A) a : outcome m = Ok a -> m = mkOut (printed m) (Ok a).
Proof. destruct m as [o r]. cbn [outcome printed]. now intros ->. Qed.

Ltac step_out :=
  rewrite outcome_bind; try rewrite outcome_print; try rewrite outcome_lift; cbv beta iota.

Lemma report1_completes df p r :
  (forall i, In i (clientes df) -> exists q, loc_num df i "custo" = Ok q) ->
  is_Some (value r (objective p)) ->
  outcome (report1 df p r) = Ok tt.
Proof.
  intros Hloc [v Hv]. unfold report1. cbv zeta.
  step_out. step_out. step_out. rewrite Hv. cbn [fmt]. step_out. step_out.
  destruct (List.filter (fun i => is_one (value_var r (x i))) (clientes df))
    as [|i0 sel] eqn:E.
  - reflexivity.
  - destruct (mapM_ok_exists (fun i => loc_num df i "custo") (i0 :: sel)) as [cs Hcs].
    { intros i Hi. apply Hloc. rewrite <- E in Hi. now apply filter_In in Hi. }
    step_out. rewrite Hcs. reflexivity.
Qed.

Lemma report3_completes p r :
  is_Some (value_var r cap_emergencia) -> is_Some (value_var r cap_cirurgia) ->
  is_Some (value_var r cap_consulta) -> is_Some (value r (objective p)) ->
  outcome (report3 p r) = Ok tt.
Proof.
  intros [e He] [s Hs] [c Hc] [v Hv]. unfold report3.
  step_out. step_out. step_out. rewrite He. cbn [int]. step_out.
  step_out. rewrite Hs. cbn [int]. step_out.
  step_out. rewrite Hc. cbn [int]. step_out.
  step_out. rewrite Hv. cbn [fmt]. step_out. reflexivity.
Qed.

Lemma report6_completes d p r :
  (forall ij, In ij pairs -> is_Some (d !! ij)) ->
  is_Some (value r (objective p)) ->
  outcome (report6 d p r) = Ok tt.
Proof.
  intros Hd [v Hv]. unfold report6. cbv zeta.
  step_out. step_out. step_out.
  match goal with |- context [for_each ?l ?b] =>
    assert (outcome (for_each l b) = Ok tt) as -> by (apply for_each_completes; reflexivity)
  end.
  step_out.
  match goal with |- context [mapM ?f ?l] =>
    destruct (mapM_ok_exists f l) as [ps ->]
  end.
  { intros ij Hij. apply filter_In in Hij. destruct Hij as [Hij _].
    unfold dist_get. destruct (Hd ij Hij) as [q ->]. eexists. reflexivity. }
  cbv beta iota. step_out. step_out. rewrite Hv. cbn [fmt]. step_out. step_out.
  step_out. reflexivity.
Qed.

(** *** What [solve()] leaves behind *)

Lemma solve_nonconstant (solve : LpProblem -> Result) p :
  terms (objective p) <> [] ->
  solved solve p = p /\ solution solve p = assignVarsVals (solve p).
Proof.
  intros H. unfold solved, solution, LpProblem_solve, fixObjective, isNumericalConstant.
  destruct (terms (objective p)); [contradiction|]. split; reflexivity.
Qed.

Lemma value_var_assignVarsVals r u :
  name u <> "__dummy" -> value_var (assignVarsVals r) u = value_var r u.
Proof.
  intros H. unfold value_var, assignVarsVals. cbn [varValue].
  apply lookup_delete_ne. intros E. apply H. now rewrite E.
Qed.

Lemma value_var_dummy (solve : LpProblem -> Result) p :
  value_var (solution solve p) get_dummyVar = None.
Proof.
  unfold solution, LpProblem_solve. destruct (fixObjective p) as [p1 d]. cbn [snd].
  unfold value_var, assignVarsVals. cbn [varValue].
  change (name get_dummyVar) with "__dummy". apply lookup_delete_eq.
Qed.

(** After [solve()], an objective that had no variable has no value: it
    carries [__dummy], which never receives one. *)
Lemma constant_objective_no_value (solve : LpProblem -> Result) p :
  terms (objective p) = [] ->
  value (solution solve p) (objective (solved solve p)) = None.
Proof.
  intros H.
  assert (objective (solved solve p)
          = mkExpr [(get_dummyVar, 1 + -1)] (constant (objective p))) as ->.
  { unfold solved, LpProblem_solve, fixObjective, isNumericalConstant.
    rewrite H. reflexivity. }
  unfold value. cbn [terms fold_left fst]. rewrite value_var_dummy. reflexivity.
Qed.

Lemma variables_fixObjective p u :
  In u (variables p) -> In u (variables (fst (fixObjective p))).
Proof.
  unfold fixObjective, isNumericalConstant.
  destruct (terms (objective p)) as [|t ts] eqn:E; [|exact (fun H => H)].
  cbn [fst]. unfold variables. cbn [objective constraints terms].
  rewrite E, !in_app_iff. intros [[] | H]. now right.
Qed.

Lemma solution_assigned (solve : LpProblem -> Result) p u :
  assigns_all solve -> In u (variables p) -> name u <> "__dummy" ->
  is_Some (value_var (solution solve p) u).
Proof.
  intros Hs Hu Hn. pose proof (variables_fixObjective p u Hu) as Hu'.
  unfold solution, LpProblem_solve. destruct (fixObjective p) as [p1 d].
  cbn [snd fst] in *. rewrite value_var_assignVarsVals by exact Hn.
  exact (Hs p1 u Hu').
Qed.

Lemma objective_valued (solve : LpProblem -> Result) p :
  assigns_all solve -> terms (objective p) <> [] ->
  (forall u, In u (vars (objective p)) -> name u <> "__dummy") ->
  is_Some (value (solution solve p) (objective (solved solve p))).
Proof.
  intros Hs Hne Hn. destruct (solve_nonconstant solve p Hne) as [-> _].
  apply value_is_Some. intros u Hu. apply solution_assigned; [exact Hs | | now apply Hn].
  unfold variables. apply in_app_iff. now left.
Qed.

Lemma constraint_valued (solve : LpProblem -> Result) p c u :
  assigns_all solve -> In c (constraints p) -> In u (vars (expr c)) ->
  name u <> "__dummy" ->
  is_Some (value_var (solution solve p) u).
Proof.
  intros H Hc Hu Hn. apply solution_assigned; [exact H | | exact Hn].
  unfold variables. apply in_app_iff. right.
  apply in_flat_map. exists c. split; [exact Hc | exact Hu].
Qed.

Lemma names_nonempty e n : In n (names e) -> terms e <> [].
Proof. unfold names. destruct (terms e); [intros [] | discriminate]. Qed.

Lemma dropna_map_Some l : dropna (map Some l) = l.
Proof.
  unfold dropna. induction l as [|s l IH]; [reflexivity|].
  cbn [map omap list_omap]. cbn. now rewrite IH.
Qed.

(** *** The mean cost of a group of positive costs *)

Lemma sum_pos l : l <> [] -> Forall (fun q => 0 < q) l -> 0 < Pandas.sum l.
Proof.
  induction l as [|a l IH]; [contradiction|]. intros _ HF.
  apply Forall_cons in HF. destruct HF as [Ha HF].
  change (Pandas.sum (a :: l)) with (a + Pandas.sum l).
  destruct l as [|b l'].
  - change (Pandas.sum []) with 0. lra.
  - assert (0 < Pandas.sum (b :: l')) by (apply IH; [discriminate | exact HF]). lra.
Qed.

Lemma mean_pos l : l <> [] -> Forall (fun q => 0 < q) l -> 0 < mean l.
Proof.
  intros Hne HF. unfold mean. apply Qlt_shift_div_l.
  - change 0 with (inject_Z 0). rewrite <- Zlt_Qlt.
    destruct l; [contradiction | cbn [length]; lia].
  - rewrite Qmult_0_l. now apply sum_pos.
Qed.

Lemma group_nonempty keys vals k :
  length keys = length vals -> Some k ∈ keys -> group keys vals k <> [].
Proof.
  unfold group. revert vals. induction keys as [|o keys IH]; intros vals Hl Hk.
  - now apply elem_of_nil in Hk.
  - destruct vals as [|v vals]; [discriminate|]. cbn [zip zip_with].
    rewrite filter_cons. cbn [fst]. destruct (decide (o = Some k)) as [E | E].
    + discriminate.
    + apply elem_of_cons in Hk. destruct Hk as [Hk | Hk]; [congruence|].
      apply IH; [now injection Hl | exact Hk].
Qed.

Lemma group_Forall (P : Q -> Prop) keys vals k :
  Forall P vals -> Forall P (group keys vals k).
Proof.
  intros HF. unfold group. apply List.Forall_forall. intros q Hq.
  apply list_elem_of_In, list_elem_of_fmap in Hq. destruct Hq as ([o v] & -> & Hq).
  apply list_elem_of_filter in Hq. destruct Hq as [_ Hq].
  apply elem_of_zip_r in Hq. cbn [snd].
  rewrite List.Forall_forall in HF. apply HF. now apply list_elem_of_In.
Qed.

Lemma groupby_mean_lookup keys vals k :
  k ∈ unique (dropna keys) -> groupby_mean keys vals !! k = Some (mean (group keys vals k)).
Proof.
  intros Hk. unfold groupby_mean. apply elem_of_list_to_map_1.
  - rewrite <- list_fmap_compose.
    assert ((fun k0 : string => (k0, mean (group keys vals k0)).1) = id) as E by reflexivity.
    unfold compose. rewrite E, list_fmap_id. apply unique_NoDup.
  - apply list_elem_of_fmap. exists k. split; [reflexivity | exact Hk].
Qed.

Section Completes.

Variable solve : LpProblem -> Result.
Hypothesis solve_assigns : assigns_all solve.

Lemma consulta1_completes df l :
  columns df !! "charges" = Some (NumCol l) -> length l = nrows df ->
  (0 < nrows df)%nat ->
  exists o d1, consulta1 solve df = mkOut o (Ok d1) /\ derive1 df = Ok d1.
Proof.
  intros Hc Hl Hn. pose proof (selection_pipeline df l Hc Hl) as Hp.
  set (d1 := setitem (setitem_scalar df "receita" 5000) "custo" (NumCol l)).
  assert (derive1 df = Ok d1) as D1.
  { unfold derive1, setitem_scalar, d1. cbv zeta.
    rewrite getitem_setitem_ne by done.
    rewrite (proj2 (getitem_Ok df "charges" (NumCol l)) Hc). reflexivity. }
  unfold selection_model in Hp. rewrite D1 in Hp. cbn [mbind result_bind] in Hp.
  unfold consulta1. rewrite D1, lift_ok_bind, Hp, lift_ok_bind.
  match goal with |- context [report1 d1 ?p ?r] =>
    assert (outcome (report1 d1 p r) = Ok tt) as Hr;
    [|destruct (report1 d1 p r) as [o res]]
  end.
  - apply report1_completes.
    + intros i Hi. unfold clientes, index in Hi. apply in_seq in Hi.
      unfold d1, setitem_scalar in Hi. rewrite !nrows_setitem in Hi.
      unfold loc_num, d1. rewrite getitem_setitem. cbn [mbind result_bind numeric].
      unfold loc. destruct (lookup_lt_is_Some_2 l i ltac:(lia)) as [q ->]. eauto.
    + apply objective_valued; [exact solve_assigns | |]; cbn [objective].
      * apply (names_nonempty _ (name (x 0))).
        apply (names_lpSum _ (mul (of_var (x 0)) 5000)).
        -- apply in_map_iff. exists 0%nat. split; [reflexivity | apply in_seq; lia].
        -- apply names_mul; [intros E; discriminate E | now left].
      * intros u Hu. apply vars_lpSum in Hu. destruct Hu as (e & He & Hu).
        apply in_map_iff in He. destruct He as (i & <- & _).
        apply vars_mul, vars_of_var in Hu. subst u. discriminate.
  - cbn [outcome] in Hr. subst res. eexists. exists d1. split; reflexivity.
Qed.

Lemma consulta2_completes df bmis cs :
  columns df !! "bmi" = Some (NumCol bmis) ->
  columns df !! "custo" = Some (NumCol cs) ->
  length bmis = length cs -> bmis <> [] -> Forall (fun c => 0 < c) cs ->
  exists o d2, consulta2 solve df = mkOut o (Ok d2) /\ derive2 df = Ok d2.
Proof.
  intros Hb Hc Hlen Hne Hpos.
  set (rg := map regiao_of_bmi bmis).
  set (d2 := setitem df "regiao" (StrCol rg)).
  assert (derive2 df = Ok d2) as D2.
  { unfold derive2. rewrite (proj2 (getitem_Ok df "bmi" (NumCol bmis)) Hb). reflexivity. }
  assert (regioes d2 = Ok (unique rg)) as R2.
  { unfold regioes, d2. rewrite getitem_setitem. reflexivity. }
  assert (custos_por_regiao d2 = Ok (groupby_mean (map Some rg) cs)) as C2.
  { unfold custos_por_regiao, d2. rewrite getitem_setitem. cbn [mbind result_bind strings_of].
    rewrite getitem_setitem_ne by done.
    rewrite (proj2 (getitem_Ok df "custo" (NumCol cs)) Hc). reflexivity. }
  assert (forall g, In g (unique rg) ->
            exists c, dict_get (groupby_mean (map Some rg) cs) g = Ok c /\ 0 < c) as Hmean.
  { intros g Hg. apply list_elem_of_In in Hg.
    exists (mean (group (map Some rg) cs g)). split.
    - unfold dict_get. rewrite groupby_mean_lookup; [reflexivity|].
      now rewrite dropna_map_Some.
    - apply mean_pos; [|now apply group_Forall].
      apply group_nonempty.
      + unfold rg. now rewrite !length_map.
      + apply (proj1 (elem_of_unique _ _)) in Hg.
        apply list_elem_of_In, in_map, list_elem_of_In, Hg. }
  destruct (mapM_ok_exists
              (fun r => c ← dict_get (groupby_mean (map Some rg) cs) r;
                        Ok (mul (of_var (y r)) c)) (unique rg)) as [obj Hobj].
  { intros r Hr. destruct (Hmean r Hr) as (c & -> & _). eexists. reflexivity. }
  assert (prob2 d2 = Ok (mkProblem "PortfolioRegiao" LpMinimize (lpSum obj)
                                   (constraints2 (unique rg)))) as P2.
  { unfold prob2. rewrite R2. cbn [mbind result_bind]. rewrite C2.
    cbn [mbind result_bind]. rewrite Hobj. reflexivity. }
  assert (forall g, name (y g) <> "__dummy") as Hy by (intros g E; discriminate E).
  unfold consulta2. rewrite D2, lift_ok_bind, P2, lift_ok_bind, R2, lift_ok_bind.
  match goal with |- context [report2 ?rs ?p ?r] =>
    assert (outcome (report2 rs p r) = Ok tt) as Hr;
    [|destruct (report2 rs p r) as [o res]]
  end.
  - apply report2_outcome. split.
    + intros g Hg.
      apply (constraint_valued solve _ (ge_const (of_var (y g)) 10) (y g) solve_assigns).
      * cbn [constraints]. unfold constraints2.
        apply in_cons, in_or_app. right.
        exact (in_map (fun r => ge_const (of_var (y r)) 10) _ g Hg).
      * now left.
      * apply Hy.
    + apply objective_valued; [exact solve_assigns | |]; cbn [objective].
      * destruct bmis as [|b0 bmis']; [contradiction|].
        assert (In (regiao_of_bmi b0) (unique rg)) as Hg.
        { apply list_elem_of_In, elem_of_unique. unfold rg. cbn [map]. now left. }
        destruct (mapM_elem_l _ _ _ _ Hobj Hg) as (e & He & Ee).
        destruct (Hmean _ Hg) as (c & Ec & Hc0). rewrite Ec in Ee.
        cbn [mbind result_bind] in Ee. injection Ee as <-.
        apply (names_nonempty _ (name (y (regiao_of_bmi b0)))).
        apply (names_lpSum _ _ _ He).
        apply names_mul; [intros E; rewrite E in Hc0; revert Hc0; apply Qlt_irrefl | now left].
      * intros u Hu. apply vars_lpSum in Hu. destruct Hu as (e & He & Hu).
        destruct (mapM_elem _ _ _ _ Hobj He) as (g & _ & Eg).
        destruct (dict_get _ g) as [c|]; [|discriminate].
        cbn [mbind result_bind] in Eg. injection Eg as <-.
        apply vars_mul, vars_of_var in Hu. subst u. apply Hy.
  - cbn [outcome] in Hr. subst res. eexists. exists d2. split; reflexivity.
Qed.

Lemma consulta3_completes df ages smokers bmis :
  columns df !! "age" = Some (NumCol ages) ->
  columns df !! "smoker" = Some (StrCol smokers) ->
  columns df !! "bmi" = Some (NumCol bmis) ->
  exists o d3, consulta3 solve df = mkOut o (Ok d3) /\ derive3 df = Ok d3.
Proof.
  intros Ha Hs Hb.
  destruct (capacity_pipeline df ages smokers bmis Ha Hs Hb) as (d3 & D3 & P3).
  unfold consulta3. rewrite D3, lift_ok_bind, P3, lift_ok_bind.
  assert (forall u, In u [cap_emergencia; cap_cirurgia; cap_consulta] ->
                    name u <> "__dummy") as Hcap.
  { intros u [<- | [<- | [<- | []]]] E; discriminate E. }
  match goal with |- context [report3 ?p ?r] =>
    assert (outcome (report3 p r) = Ok tt) as Hr;
    [|destruct (report3 p r) as [o res]]
  end.
  - apply report3_completes.
    1-3: apply solution_assigned; [exact solve_assigns | | apply Hcap; simpl; tauto];
      unfold variables; apply in_app_iff; left;
      cbn [objective capacity_model];
      change (map fst (terms custo_capacidade))
        with [cap_emergencia; cap_cirurgia; cap_consulta]; simpl; tauto.
    apply objective_valued; [exact solve_assigns | |]; cbn [objective capacity_model].
    + intros E. vm_compute in E. discriminate E.
    + change (vars custo_capacidade) with [cap_emergencia; cap_cirurgia; cap_consulta].
      exact Hcap.
  - cbn [outcome] in Hr. subst res. eexists. exists d3. split; reflexivity.
Qed.

Lemma consulta4_completes df ages charges :
  columns df !! "age" = Some (NumCol ages) ->
  columns df !! "charges" = Some (NumCol charges) ->
  exists o d4, consulta4 solve df = mkOut o (Ok d4) /\ derive4 df = Ok d4.
Proof.
  intros Ha Hc.
  set (fx := map (cut3 "Jovem" "Adulto" "Senior") ages).
  set (d4 := setitem df "faixa_etaria" (CatCol fx)).
  assert (derive4 df = Ok d4) as D4.
  { unfold derive4. rewrite (proj2 (getitem_Ok df "age" (NumCol ages)) Ha). reflexivity. }
  assert (faixas d4 = Ok (unique (dropna fx))) as F4.
  { unfold faixas, d4. rewrite getitem_setitem. reflexivity. }
  assert (custo_faixa d4 = Ok (groupby_mean fx charges)) as C4.
  { unfold custo_faixa, d4. rewrite getitem_setitem. cbn [mbind result_bind categories_of].
    rewrite getitem_setitem_ne by done.
    rewrite (proj2 (getitem_Ok df "charges" (NumCol charges)) Hc). reflexivity. }
  assert (disponivel_faixa d4 = Ok (value_counts faixa_labels fx)) as V4.
  { unfold disponivel_faixa, d4. rewrite getitem_setitem. reflexivity. }
  pose proof (faixas_derive4 df d4 _ _ D4 F4 C4) as Hin.
  destruct (mapM_ok_exists
              (fun f => r ← dict_get receita_faixa f; c ← dict_get (groupby_mean fx charges) f;
                        Ok (mul (of_var (clientes_faixa f)) (r - c)))
              (unique (dropna fx))) as [obj Hobj].
  { intros f Hf. destruct (Hin f Hf) as [Hl Hs].
    destruct (dict_get_is_Some _ _ (receita_faixa_is_Some f Hl)) as [rv ->].
    destruct (dict_get_is_Some _ _ Hs) as [cv ->]. eexists. reflexivity. }
  destruct (mapM_ok_exists
              (fun f => d ← dict_get (value_counts faixa_labels fx) f;
                        Ok (le_const (of_var (clientes_faixa f)) d))
              (unique (dropna fx))) as [lim Hlim].
  { intros f Hf. destruct (Hin f Hf) as [Hl _].
    destruct (dict_get_is_Some (value_counts faixa_labels fx) f) as [dv ->].
    - apply value_counts_is_Some. now apply list_elem_of_In.
    - eexists. reflexivity. }
  assert (exists p, prob4 d4 = Ok p) as [p P4].
  { unfold prob4. rewrite F4. cbn [mbind result_bind]. rewrite C4.
    cbn [mbind result_bind]. rewrite Hobj. cbn [mbind result_bind]. rewrite V4.
    cbn [mbind result_bind]. rewrite Hlim. eexists. reflexivity. }
  unfold consulta4.
  rewrite D4, lift_ok_bind, P4, lift_ok_bind, F4, lift_ok_bind, C4, lift_ok_bind.
  pose proof (report4_outcome df d4 _ _ (solved solve p) (solution solve p) D4 F4 C4) as Hr.
  destruct (report4 _ _ (solved solve p) (solution solve p)) as [o res].
  cbn [outcome] in Hr. subst res. eexists. exists d4. split; reflexivity.
Qed.

Lemma consulta5_completes : exists o, consulta5 solve = mkOut o (Ok tt).
Proof.
  unfold consulta5. rewrite prob5_built, lift_ok_bind.
  pose proof (report5_outcome (solution solve prob5_model)) as Hr.
  destruct (report5 (solution solve prob5_model)) as [o res].
  cbn [outcome] in Hr. subst res. eexists. reflexivity.
Qed.

Lemma consulta6_completes (RngState : Type) (seed : Z -> RngState)
    (uniform : Q -> Q -> RngState -> Q * RngState) (sqrt : Q -> Q) (rng : RngState) :
  exists o r, consulta6 solve RngState seed uniform sqrt rng = mkOut o (Ok r).
Proof.
  unfold consulta6.
  pose proof (draw_points_length RngState uniform n_centros (seed 42%Z)) as L1.
  destruct (draw_points RngState uniform n_centros (seed 42%Z)) as [centros r1].
  pose proof (draw_points_length RngState uniform n_clientes_sample r1) as L2.
  destruct (draw_points RngState uniform n_clientes_sample r1) as [cc r2].
  cbn [fst] in L1, L2.
  set (d := distancias sqrt cc centros).
  assert (forall i j, (i < n_clientes_sample)%nat -> (j < n_centros)%nat ->
                      is_Some (d !! (i, j))) as Hd.
  { intros i j Hi Hj. apply distancias_is_Some; lia. }
  pose proof (prob6_built d Hd) as P6.
  rewrite P6, lift_ok_bind.
  match goal with |- context [report6 d ?p ?r] =>
    assert (outcome (report6 d p r) = Ok tt) as Hr;
    [|destruct (report6 d p r) as [o res]]
  end.
  - apply report6_completes.
    + intros [i j] Hij. apply in_pairs in Hij. now apply Hd.
    + apply objective_valued; [exact solve_assigns | |].
      * cbn [objective]. apply (names_nonempty _ (name (z 0))).
        apply names_addInPlace. right.
        apply (names_lpSum _ (mul (of_var (z 0)) custo_fixo_centro)).
        -- apply in_map_iff. exists 0%nat. split; [reflexivity|].
           apply in_seq. unfold n_centros. lia.
        -- apply names_mul; [intros E; discriminate E | now left].
      * intros u Hu. destruct (prob6_inv d _ P6) as (_ & _ & Hv).
        destruct (Hv u Hu) as [(i & j & _ & ->) | (j & _ & ->)]; intros E; discriminate E.
  - cbn [outcome] in Hr. subst res. eexists. exists r2. reflexivity.
Qed.

End Completes.

Lemma agree_lookup ks d' d k c :
  agree ks d' d -> In k ks -> columns d !! k = Some c -> columns d' !! k = Some c.
Proof. intros [_ H] Hk Hc. now rewrite (H k Hk). Qed.

Lemma derive1_custo df d1 c :
  derive1 df = Ok d1 -> columns df !! "charges" = Some c -> columns d1 !! "custo" = Some c.
Proof.
  unfold derive1, setitem_scalar. cbv zeta. rewrite getitem_setitem_ne by done.
  intros H Hc. rewrite (proj2 (getitem_Ok df "charges" c) Hc) in H.
  injection H as <-. apply getitem_Ok, getitem_setitem.
Qed.

(** X11: on a well-formed table with at least one record and positive
    charges, with a solver that leaves a value on every variable of the
    problem it is given, the script raises no exception: all six consultas
    are built, solved and reported.  Records and positive charges keep the
    objectives of consultas 1 and 2 from being constants, whose value after
    [solve()] is [None]. *)
Theorem run_completes
    (solve : LpProblem -> Result) (RngState : Type) (seed : Z -> RngState)
    (uniform : Q -> Q -> RngState -> Q * RngState) (sqrt : Q -> Q)
    (df : DataFrame) (rng : RngState) :
  well_formed df -> (0 < nrows df)%nat -> positive_charges df -> assigns_all solve ->
  exists o dF rF,
    main solve RngState seed uniform sqrt df rng = mkOut o (Ok (dF, rF)).
Proof.
  intros (ages & bmis & charges & smokers & Ha & Hb & Hc & Hs & _ & Lb & Lc & _)
         Hn (ch' & Hc' & Hpos) Hsolve.
  rewrite Hc in Hc'. injection Hc' as <-.
  set (raw := ["age"; "bmi"; "charges"; "smoker"]).
  destruct (consulta1_completes solve Hsolve df charges Hc Lc Hn) as (o1 & d1 & C1 & D1).
  assert (agree raw d1 df) as A1 by (apply (derive1_frame raw df d1 D1); simpl; intuition discriminate).
  destruct (consulta2_completes solve Hsolve d1 bmis charges) as (o2 & d2 & C2 & D2).
  { apply (agree_lookup raw d1 df "bmi" _ A1); [simpl; tauto | exact Hb]. }
  { exact (derive1_custo df d1 _ D1 Hc). }
  { congruence. }
  { intros ->. cbn [length] in Lb. lia. }
  { exact Hpos. }
  assert (agree raw d2 df) as A2.
  { eapply agree_trans; [|exact A1].
    apply (derive2_frame raw d1 d2 D2). simpl. intuition discriminate. }
  destruct (consulta3_completes solve Hsolve d2 ages smokers bmis) as (o3 & d3 & C3 & D3).
  { apply (agree_lookup raw d2 df "age" _ A2); [simpl; tauto | exact Ha]. }
  { apply (agree_lookup raw d2 df "smoker" _ A2); [simpl; tauto | exact Hs]. }
  { apply (agree_lookup raw d2 df "bmi" _ A2); [simpl; tauto | exact Hb]. }
  assert (agree raw d3 df) as A3.
  { eapply agree_trans; [|exact A2].
    apply (derive3_frame raw d2 d3 D3); simpl; intuition discriminate. }
  destruct (consulta4_completes solve d3 ages charges) as (o4 & d4 & C4 & D4).
  { apply (agree_lookup raw d3 df "age" _ A3); [simpl; tauto | exact Ha]. }
  { apply (agree_lookup raw d3 df "charges" _ A3); [simpl; tauto | exact Hc]. }
  destruct (consulta5_completes solve) as (o5 & C5).
  destruct (consulta6_completes solve Hsolve RngState seed uniform sqrt rng)
    as (o6 & r6 & C6).
  unfold main.
  rewrite (out_bind_ok _ _ _ _ C1), (out_bind_ok _ _ _ _ C2).
  rewrite (out_bind_ok _ _ _ _ C3), (out_bind_ok _ _ _ _ C4).
  rewrite (out_bind_ok _ _ _ _ C5), (out_bind_ok _ _ _ _ C6).
  eexists. eexists. eexists. reflexivity.
Qed.

Lemma stub_solver_assigns_all : assigns_all stub_solver.
Proof.
  intros p u Hu. unfold stub_solver, value_var. cbn [varValue].
  rewrite <- (map_map name (fun k => (k, 0))).
  apply (list_to_map_keys_is_Some (fun _ => 0)).
  apply list_elem_of_In, in_map_iff. exists u. split; [reflexivity | exact Hu].
Qed.

Lemma sample_table_well_formed : well_formed sample_table.
Proof.
  exists [19; 55; 62; 33], [27.9; 22; 36.5; 31],
         [16884.924; 1725.5523; 4449.462; 21984.47061], ["yes"; "no"; "no"; "no"].
  repeat split; reflexivity.
Qed.

Lemma sample_table_positive_charges : positive_charges sample_table.
Proof.
  exists [16884.924; 1725.5523; 4449.462; 21984.47061]. split; [reflexivity|].
  repeat constructor.
Qed.

Lemma run_completes_witness :
  exists o dF rF,
    main stub_solver unit stub_seed stub_uniform stub_sqrt sample_table tt
    = mkOut o (Ok (dF, rF)).
Proof.
  apply (run_completes stub_solver unit stub_seed stub_uniform stub_sqrt sample_table tt).
  - exact sample_table_well_formed.
  - cbn [nrows sample_table]. lia.
  - exact sample_table_positive_charges.
  - exact stub_solver_assigns_all.
Defined.

(** ** Keys of a sum *)

Lemma names_addterm_inv v c ts n :
  In n (map (fun t => name (fst t)) (addterm v c ts)) ->
  In n (map (fun t => name (fst t)) ts) \/ n = name v.
Proof.
  induction ts as [|[v' c'] ts IH]; cbn [addterm map fst].
  - intros [<- | []]. now right.
  - destruct (String.eqb (name v') (name v)) eqn:E; cbn [map fst].
    + intros [<- | H]; left; [now left | now right].
    + intros [<- | H]; [left; now left|].
      destruct (IH H) as [H' | ->]; [left; now right | now right].
Qed.

Lemma NoDup_addterm v c ts :
  List.NoDup (map (fun t => name (fst t)) ts) ->
  List.NoDup (map (fun t => name (fst t)) (addterm v c ts)).
Proof.
  induction ts as [|[v' c'] ts IH]; cbn [addterm map fst]; intros ND.
  - constructor; [intros [] | constructor].
  - inversion ND as [|n l Hn ND']; subst.
    destruct (String.eqb (name v') (name v)) eqn:E; cbn [map fst].
    + constructor; assumption.
    + constructor; [|now apply IH].
      intros H. apply names_addterm_inv in H. destruct H as [H | H]; [contradiction|].
      apply String.eqb_neq in E. contradiction.
Qed.

Lemma NoDup_addterms ts other :
  List.NoDup (map (fun t => name (fst t)) ts) ->
  List.NoDup (map (fun t => name (fst t)) (addterms ts other)).
Proof.
  unfold addterms. revert ts.
  induction other as [|[v c] other IH]; intros ts ND; cbn [fold_left fst snd].
  - exact ND.
  - apply IH, NoDup_addterm, ND.
Qed.

(** In a sum built by [lpSum] every variable name occurs at most once,
    whatever the summands: like terms are merged. *)
Theorem lpSum_keys_unique es : List.NoDup (names (lpSum es)).
Proof.
  unfold lpSum.
  assert (forall e0, List.NoDup (names e0) ->
                     List.NoDup (names (fold_left addInPlace es e0))) as G.
  { induction es as [|e es IH]; intros e0 ND; cbn [fold_left]; [exact ND|].
    apply IH. unfold names, addInPlace. cbn [terms]. now apply NoDup_addterms. }
  apply G. constructor.
Qed.

(** ** The report of consulta 1 when nobody is selected *)

Lemma filter_all_false {A} (f : A -> bool) l :
  (forall i, In i l -> f i = false) -> List.filter f l = [].
Proof.
  induction l as [|i l IH]; intros H; cbn [List.filter]; [reflexivity|].
  rewrite (H i) by (now left). apply IH. intros; apply H; now right.
Qed.

(** X2: when no record has value 1 under the result, the report of consulta 1
    prints the heading, a count of 0, the objective value and the separator,
    and no mean cost: the mean over an empty selection is never computed. *)
Theorem report1_no_selection df p r v :
  (forall i, In i (clientes df) -> is_one (value_var r (x i)) = false) ->
  value r (objective p) = Some v ->
  report1 df p r
  = mkOut [ heading1;
            [Text "Clientes escolhidos: "; Int 0];
            [Text "Receita total: $"; Fmt ",.2f" v];
            separator ]
          (Ok tt).
Proof.
  intros Hsel Hv. unfold report1. cbv zeta.
  rewrite (filter_all_false _ _ Hsel), Hv. reflexivity.
Qed.

Lemma report1_no_selection_witness :
  report1 three_records prob_three_records (stub_solver prob_three_records)
  = mkOut [ heading1;
            [Text "Clientes escolhidos: "; Int 0];
            [Text "Receita total: $"; Fmt ",.2f" 0];
            separator ]
          (Ok tt).
Proof.
  apply (report1_no_selection three_records prob_three_records
           (stub_solver prob_three_records) 0).
  - intros i Hi. unfold clientes, index in Hi. cbn [nrows three_records seq] in Hi.
    destruct Hi as [<- | [<- | [<- | []]]]; vm_compute; reflexivity.
  - vm_compute. reflexivity.
Defined.

(** ** Missing [age] or [smoker] *)

(** X12: without [age], or with [age] but without [smoker], the script stops
    with a [KeyError] at the derivations of consulta 3, after consultas 1 and
    2 have been built, solved and reported. *)
Theorem run_missing_age_or_smoker
    (solve : LpProblem -> Result) (RngState : Type) (seed : Z -> RngState)
    (uniform : Q -> Q -> RngState -> Q * RngState) (sqrt : Q -> Q)
    (df d1 d2 : DataFrame) (rng : RngState) (o1 o2 : list Line) :
  consulta1 solve df = mkOut o1 (Ok d1) ->
  consulta2 solve d1 = mkOut o2 (Ok d2) ->
  (columns df !! "age" = None ->
   main solve RngState seed uniform sqrt df rng
   = mkOut (o1 ++ o2) (Raise (KeyError "age"))) /\
  (forall ages, columns df !! "age" = Some (NumCol ages) ->
   columns df !! "smoker" = None ->
   main solve RngState seed uniform sqrt df rng
   = mkOut (o1 ++ o2) (Raise (KeyError "smoker"))).
Proof.
  intros C1 C2.
  destruct (consulta1_inv solve df o1 d1 C1) as [D1 _].
  assert (derive2 d1 = Ok d2) as D2.
  { unfold consulta2 in C2. destruct (derive2 d1) as [d|]; [|discriminate].
    rewrite lift_ok_bind in C2. destruct (prob2 d) as [p|]; [|discriminate].
    rewrite lift_ok_bind in C2. destruct (regioes d) as [rs|]; [|discriminate].
    rewrite lift_ok_bind in C2.
    destruct (report2 rs (solved solve p) (solution solve p)) as [o' [[]|]]; [|discriminate].
    injection C2 as _ ->. reflexivity. }
  assert (agree ["age"; "smoker"] d2 df) as A.
  { eapply agree_trans.
    - apply (derive2_frame _ d1 d2 D2). simpl. intuition discriminate.
    - apply (derive1_frame _ df d1 D1); simpl; intuition discriminate. }
  destruct A as [_ A].
  split.
  - intros Ha. unfold main. rewrite (out_bind_ok _ _ _ _ C1), (out_bind_ok _ _ _ _ C2).
    assert (consulta3 solve d2 = mkOut [] (Raise (KeyError "age"))) as E.
    { unfold consulta3, derive3, getitem. rewrite (A "age") by (simpl; tauto).
      rewrite Ha. reflexivity. }
    rewrite (out_bind_raise _ _ _ _ E). cbn [printed outcome].
    now rewrite !app_nil_r.
  - intros ages Ha Hs. unfold main.
    rewrite (out_bind_ok _ _ _ _ C1), (out_bind_ok _ _ _ _ C2).
    assert (consulta3 solve d2 = mkOut [] (Raise (KeyError "smoker"))) as E.
    { unfold consulta3, derive3, getitem. rewrite (A "age") by (simpl; tauto).
      rewrite Ha. cbn [mbind result_bind gt numeric].
      rewrite (A "smoker") by (simpl; tauto). rewrite Hs. reflexivity. }
    rewrite (out_bind_raise _ _ _ _ E). cbn [printed outcome].
    now rewrite !app_nil_r.
Qed.

Lemma run_missing_age_or_smoker_witness :
  exists o1 d1 o2 d2,
    consulta1 stub_solver (drop "age" sample_table) = mkOut o1 (Ok d1) /\
    consulta2 stub_solver d1 = mkOut o2 (Ok d2) /\
    (columns (drop "age" sample_table) !! "age" = None ->
     main stub_solver unit stub_seed stub_uniform stub_sqrt (drop "age" sample_table) tt
     = mkOut (o1 ++ o2) (Raise (KeyError "age"))) /\
    (forall ages, columns (drop "age" sample_table) !! "age" = Some (NumCol ages) ->
     columns (drop "age" sample_table) !! "smoker" = None ->
     main stub_solver unit stub_seed stub_uniform stub_sqrt (drop "age" sample_table) tt
     = mkOut (o1 ++ o2) (Raise (KeyError "smoker"))).
Proof.
  pose (r1 := consulta1 stub_solver (drop "age" sample_table)).
  pose (d1 := from_ok sample_table (outcome r1)).
  pose (r2 := consulta2 stub_solver d1).
  pose (d2 := from_ok sample_table (outcome r2)).
  assert (consulta1 stub_solver (drop "age" sample_table) = mkOut (printed r1) (Ok d1))
    as E1 by (vm_compute; reflexivity).
  assert (consulta2 stub_solver d1 = mkOut (printed r2) (Ok d2))
    as E2 by (vm_compute; reflexivity).
  exists (printed r1), d1, (printed r2), d2.
  split; [exact E1|]. split; [exact E2|].
  exact (run_missing_age_or_smoker stub_solver unit stub_seed stub_uniform stub_sqrt
           (drop "age" sample_table) d1 d2 tt (printed r1) (printed r2) E1 E2).
Defined.


(** ** Which reports can stop the script *)

(** X3: the report of consulta 2 completes exactly when the result has a value
    for the variable of every region and for the objective; otherwise it
    stops with a [TypeError].  The status plays no part. *)
Theorem report2_completes_iff rs p r :
  (outcome (report2 rs p r) = Ok tt <->
     (forall g, In g rs -> is_Some (value_var r (y g))) /\
     is_Some (value r (objective p))) /\
  (outcome (report2 rs p r) = Ok tt \/ outcome (report2 rs p r) = Raise TypeError).
Proof. exact (report2_outcome rs p r). Qed.

(** X6: the report of consulta 4 never raises, whatever the result: a tier whose
    variable has no value is skipped, and so is the total when the objective
    has none; the tiers it walks are those of the derived column, which all
    have a mean cost and a revenue. *)
Theorem report4_never_raises df0 df fs cs p r :
  derive4 df0 = Ok df -> faixas df = Ok fs -> custo_faixa df = Ok cs ->
  outcome (report4 fs cs p r) = Ok tt.
Proof. exact (report4_outcome df0 df fs cs p r). Qed.

Lemma report4_never_raises_witness :
  outcome (report4 ["Jovem"]
             (from_ok ∅ (custo_faixa tier_table_derived))
             tier_prob infeasible_without_values) = Ok tt.
Proof.
  apply (report4_never_raises tier_table tier_table_derived).
  - vm_compute. reflexivity.
  - vm_compute. reflexivity.
  - vm_compute. reflexivity.
Defined.


(** ** The report of consulta 6 accounts for every client *)

Lemma printed_bind {A B} (m : Out A) (f : A -> Out B) a :
  outcome m = Ok a -> printed (m ≫= f) = printed m ++ printed (f a).
Proof. intros H. unfold mbind, out_bind. rewrite H. reflexivity. Qed.

Lemma for_each_print {A} (l : list A) (line : A -> Line) :
  for_each l (fun a => print (line a)) = mkOut (map line l) (Ok tt).
Proof.
  induction l as [|a l IH]; cbn [for_each map]; [reflexivity|].
  rewrite IH. reflexivity.
Qed.

Lemma is_one_assignment r u :
  is_one (value_var r u) = true <-> assignment_of r (name u) == 1.
Proof.
  unfold is_one, value_var, assignment_of.
  destruct (varValue r !! name u) as [q|]; cbn [default].
  - apply Qeq_bool_iff.
  - split; [discriminate | intros H; exfalso; revert H; apply Qlt_not_eq; reflexivity].
Qed.

Lemma indicator_of_binary r u :
  assignment_of r (name u) == 0 \/ assignment_of r (name u) == 1 ->
  assignment_of r (name u) == if is_one (value_var r u) then 1 else 0.
Proof.
  intros H. destruct (is_one (value_var r u)) eqn:E.
  - now apply is_one_assignment.
  - destruct H as [H | H]; [exact H|].
    apply is_one_assignment in H. congruence.
Qed.

Lemma sum_indicator {A} (f : A -> bool) (l : list A) :
  Pandas.sum (map (fun j => if f j then 1 else 0) l)
  == inject_Z (Z.of_nat (length (List.filter f l))).
Proof.
  induction l as [|j l IH]; [reflexivity|].
  change (Pandas.sum (map (fun j => if f j then 1 else 0) (j :: l)))
    with ((if f j then 1 else 0) + Pandas.sum (map (fun j => if f j then 1 else 0) l)).
  rewrite IH. cbn [List.filter]. destruct (f j); cbn [length].
  - rewrite Nat2Z.inj_succ, <- Z.add_1_l, inject_Z_plus. reflexivity.
  - ring.
Qed.

Lemma list_sum_cons (x : nat) (l : list nat) : list_sum (x :: l) = (x + list_sum l)%nat.
Proof. reflexivity. Qed.

Lemma list_sum_map_add {A} (f g : A -> nat) (l : list A) :
  list_sum (map (fun i => (f i + g i)%nat) l)
  = (list_sum (map f l) + list_sum (map g l))%nat.
Proof.
  induction l as [|i l IH]; [reflexivity|].
  cbn [map]. rewrite !list_sum_cons. lia.
Qed.

Lemma length_filter_sum {A} (f : A -> bool) (l : list A) :
  length (List.filter f l) = list_sum (map (fun i => if f i then 1%nat else 0%nat) l).
Proof.
  induction l as [|i l IH]; [reflexivity|].
  cbn [List.filter map]. rewrite list_sum_cons. destruct (f i); cbn [length]; lia.
Qed.

Lemma double_count {A B} (b : A -> B -> bool) (I : list A) (J : list B) :
  list_sum (map (fun j => length (List.filter (fun i => b i j) I)) J)
  = list_sum (map (fun i => length (List.filter (fun j => b i j) J)) I).
Proof.
  induction J as [|j J IH].
  - induction I as [|i I IHI]; [reflexivity|].
    cbn [map List.filter length] in *. rewrite list_sum_cons. exact IHI.
  - cbn [map]. rewrite list_sum_cons, IH, length_filter_sum, <- list_sum_map_add.
    f_equal. apply map_ext. intros i. cbn [List.filter].
    destruct (b i j); reflexivity.
Qed.

Lemma list_sum_filter_zero {A} (open : A -> bool) (n : A -> nat) (l : list A) :
  (forall j, In j l -> open j = false -> n j = 0%nat) ->
  list_sum (map n (List.filter open l)) = list_sum (map n l).
Proof.
  induction l as [|j l IH]; intros H; [reflexivity|].
  cbn [List.filter map]. rewrite list_sum_cons.
  assert (list_sum (map n (List.filter open l)) = list_sum (map n l)) as IH'
    by (apply IH; intros; apply H; [now right | assumption]).
  destruct (open j) eqn:E; cbn [map]; rewrite ?list_sum_cons; [lia|].
  rewrite (H j) by (now left || assumption). lia.
Qed.

Lemma list_sum_map_const {A} (n : A -> nat) (k : nat) (l : list A) :
  (forall i, In i l -> n i = k) -> list_sum (map n l) = (k * length l)%nat.
Proof.
  induction l as [|i l IH]; intros H; [cbn; lia|].
  cbn [map length]. rewrite list_sum_cons.
  rewrite (H i) by now left. rewrite IH by (intros; apply H; now right). lia.
Qed.

(** X9: the report of consulta 6 first prints the open centers and, for each of
    them, the number of clients it serves.  When the result holds a feasible
    assignment of the model, these numbers add up to the 50 clients (nobody
    is served by a center the report leaves out, nobody is counted twice),
    and between 2 and 4 centers are listed. *)
Theorem report6_counts_every_client d p r :
  prob6 d = Ok p -> feasible p (assignment_of r) ->
  (exists rest,
     printed (report6 d p r)
     = [Text "=== CONSULTA 6: g ==="]
       :: [Text "Centros de atendimento abertos: "; IntList (centros_abertos r)]
       :: map (fun j => [Text "Centro "; Int (Z.of_nat j); Text " atende ";
                         Int (Z.of_nat (clientes_atendidos r j)); Text " clientes"])
              (centros_abertos r)
       ++ rest) /\
  list_sum (map (clientes_atendidos r) (centros_abertos r)) = n_clientes_sample /\
  (2 <= length (centros_abertos r) <= 4)%nat.
Proof.
  intros Hp Hf. split.
  - unfold report6. cbv zeta.
    rewrite (for_each_print (List.filter (fun j => is_one (value_var r (z j))) (seq 0 n_centros))
               (fun j => [Text "Centro "; Int (Z.of_nat j); Text " atende ";
                          Int (Z.of_nat (length (List.filter
                                 (fun i => is_one (value_var r (w i j)))
                                 (seq 0 n_clientes_sample))));
                          Text " clientes"])).
    rewrite (printed_bind _ _ tt) by reflexivity.
    rewrite (printed_bind _ _ tt) by reflexivity.
    rewrite (printed_bind _ _ tt) by reflexivity.
    unfold centros_abertos, clientes_atendidos. cbn [printed print].
    match goal with |- exists rest, _ ++ _ ++ _ ++ ?X = _ => exists X end.
    reflexivity.
  - apply (network_feasible_iff d p _ Hp) in Hf.
    destruct Hf as (Hw & Hz & H1 & Hle & H2 & H4).
    set (a := assignment_of r) in *.
    assert (forall i, In i (seq 0 n_clientes_sample) ->
              length (List.filter (fun j => is_one (value_var r (w i j))) (seq 0 n_centros))
              = 1%nat) as Hone.
    { intros i Hi. apply in_seq in Hi. specialize (H1 i ltac:(lia)).
      unfold assigned_count in H1.
      rewrite (sum_map_ext _ (fun j => if is_one (value_var r (w i j)) then 1 else 0)) in H1.
      - rewrite sum_indicator in H1. change 1 with (inject_Z 1) in H1.
        pose proof (proj1 (inject_Z_injective _ _) H1) as H1'. lia.
      - intros j Hj. apply list_elem_of_In, in_seq in Hj.
        apply indicator_of_binary, Hw; lia. }
    assert (open_count a
            == inject_Z (Z.of_nat (length (centros_abertos r)))) as Hopen.
    { unfold open_count, centros_abertos.
      rewrite (sum_map_ext _ (fun j => if is_one (value_var r (z j)) then 1 else 0)).
      - apply sum_indicator.
      - intros j Hj. apply list_elem_of_In, in_seq in Hj.
        apply indicator_of_binary, Hz; lia. }
    split.
    + unfold centros_abertos.
      rewrite (list_sum_filter_zero _ (clientes_atendidos r)).
      * unfold clientes_atendidos.
        rewrite (double_count (fun i j => is_one (value_var r (w i j)))).
        rewrite (list_sum_map_const _ 1 _ Hone), length_seq. lia.
      * intros j Hj Ez. apply in_seq in Hj. unfold clientes_atendidos.
        rewrite filter_all_false; [reflexivity|].
        intros i Hi. apply in_seq in Hi.
        destruct (is_one (value_var r (w i j))) eqn:Ew; [|reflexivity].
        apply is_one_assignment in Ew.
        specialize (Hle i j ltac:(lia) ltac:(lia)).
        destruct (Hz j ltac:(lia)) as [Z0 | Z1].
        -- fold a in Ew. rewrite Ew, Z0 in Hle. exfalso. revert Hle. apply Qlt_not_le. reflexivity.
        -- apply is_one_assignment in Z1. congruence.
    + rewrite Hopen in H2, H4.
      change 2 with (inject_Z 2) in H2. change 4 with (inject_Z 4) in H4.
      rewrite <- Zle_Qle in H2, H4. lia.
Qed.

Lemma report6_counts_every_client_witness :
  list_sum (map (clientes_atendidos two_centers_result) (centros_abertos two_centers_result))
  = n_clientes_sample.
Proof.
  apply (report6_counts_every_client sample_distancias sample_prob6 two_centers_result).
  - vm_compute. reflexivity.
  - apply feasibleb_spec. vm_compute. reflexivity.
Defined.


(** ** Objectives without variables *)

Lemma terms_lpSum_empty es :
  Forall (fun e => terms e = []) es -> terms (lpSum es) = [].
Proof.
  unfold lpSum.
  assert (forall e0, terms e0 = [] -> Forall (fun e => terms e = []) es ->
                     terms (fold_left addInPlace es e0) = []) as G.
  { induction es as [|e es IH]; intros e0 H0 HF; cbn [fold_left]; [exact H0|].
    apply Forall_cons in HF. destruct HF as [He HF]. apply IH; [|exact HF].
    unfold addInPlace, addterms. cbn [terms]. rewrite He. exact H0. }
  apply G. reflexivity.
Qed.

Lemma sum_zero l : Forall (fun q => q == 0) l -> Pandas.sum l == 0.
Proof.
  induction l as [|a l IH]; intros HF; [reflexivity|].
  apply Forall_cons in HF. destruct HF as [Ha HF].
  change (Pandas.sum (a :: l)) with (a + Pandas.sum l).
  rewrite Ha, (IH HF). reflexivity.
Qed.

Lemma mean_zero l : Forall (fun q => q == 0) l -> mean l == 0.
Proof. intros HF. unfold mean, Qdiv. rewrite (sum_zero l HF). apply Qmult_0_l. Qed.

(** X13: on a table without records the script stops with a [TypeError] at
    the total of consulta 1, whatever the solver returns: the objective has
    no variable, [solve()] leaves [__dummy] in it without a value, so
    [pulp.value(prob.objective)] is [None] and cannot be formatted.  The
    heading and a count of 0 are all that is printed. *)
Theorem no_record_stops_consulta1
    (solve : LpProblem -> Result) (RngState : Type) (seed : Z -> RngState)
    (uniform : Q -> Q -> RngState -> Q * RngState) (sqrt : Q -> Q)
    (df : DataFrame) (rng : RngState) (l : list Q) :
  columns df !! "charges" = Some (NumCol l) -> nrows df = 0%nat ->
  main solve RngState seed uniform sqrt df rng
  = mkOut [heading1; [Text "Clientes escolhidos: "; Int 0]] (Raise TypeError).
Proof.
  intros Hc Hn.
  set (d1 := setitem (setitem_scalar df "receita" 5000) "custo" (NumCol l)).
  assert (derive1 df = Ok d1) as D1.
  { unfold derive1, setitem_scalar, d1. cbv zeta.
    rewrite getitem_setitem_ne by done.
    rewrite (proj2 (getitem_Ok df "charges" (NumCol l)) Hc). reflexivity. }
  assert (clientes d1 = []) as Hcl.
  { unfold clientes, index, d1, setitem_scalar. rewrite !nrows_setitem, Hn. reflexivity. }
  assert (consulta1 solve df
          = mkOut [heading1; [Text "Clientes escolhidos: "; Int 0]] (Raise TypeError)) as E.
  { unfold consulta1. rewrite D1, lift_ok_bind. unfold prob. rewrite Hcl.
    cbn [mapM mbind result_bind map]. rewrite lift_ok_bind.
    unfold report1. rewrite Hcl. cbn [List.filter length].
    rewrite constant_objective_no_value by reflexivity. reflexivity. }
  unfold main. rewrite (out_bind_raise _ _ _ _ E). reflexivity.
Qed.

Lemma no_record_stops_consulta1_witness :
  main stub_solver unit stub_seed stub_uniform stub_sqrt empty_table tt
  = mkOut [heading1; [Text "Clientes escolhidos: "; Int 0]] (Raise TypeError).
Proof.
  apply (no_record_stops_consulta1 stub_solver unit stub_seed stub_uniform stub_sqrt
           empty_table tt []); reflexivity.
Defined.

(** X14: when every charge is zero, consulta 2 never completes, whatever
    the solver returns: every regional mean cost is zero, so the objective
    has no variable and no value after [solve()], and the script stops with
    a [TypeError] in the report of consulta 2, after the report of
    consulta 1. *)
Theorem zero_charges_stop_consulta2
    (solve : LpProblem -> Result) (RngState : Type) (seed : Z -> RngState)
    (uniform : Q -> Q -> RngState -> Q * RngState) (sqrt : Q -> Q)
    (df d1 : DataFrame) (rng : RngState) (bmis charges : list Q) (o : list Line) :
  columns df !! "bmi" = Some (NumCol bmis) ->
  columns df !! "charges" = Some (NumCol charges) ->
  Forall (fun c => c == 0) charges ->
  consulta1 solve df = mkOut o (Ok d1) ->
  exists o2,
    main solve RngState seed uniform sqrt df rng = mkOut (o ++ o2) (Raise TypeError).
Proof.
  intros Hb Hc Hz C1.
  destruct (consulta1_inv solve df o d1 C1) as [D1 _].
  set (raw := ["bmi"; "charges"]).
  assert (agree raw d1 df) as A1
    by (apply (derive1_frame raw df d1 D1); simpl; intuition discriminate).
  pose proof (agree_lookup raw d1 df "bmi" _ A1 ltac:(simpl; tauto) Hb) as Hb1.
  pose proof (derive1_custo df d1 _ D1 Hc) as Hc1.
  set (rg := map regiao_of_bmi bmis).
  set (d2 := setitem d1 "regiao" (StrCol rg)).
  assert (derive2 d1 = Ok d2) as D2.
  { unfold derive2. rewrite (proj2 (getitem_Ok d1 "bmi" (NumCol bmis)) Hb1). reflexivity. }
  assert (regioes d2 = Ok (unique rg)) as R2.
  { unfold regioes, d2. rewrite getitem_setitem. reflexivity. }
  assert (custos_por_regiao d2 = Ok (groupby_mean (map Some rg) charges)) as C2.
  { unfold custos_por_regiao, d2. rewrite getitem_setitem. cbn [mbind result_bind strings_of].
    rewrite getitem_setitem_ne by done.
    rewrite (proj2 (getitem_Ok d1 "custo" (NumCol charges)) Hc1). reflexivity. }
  assert (mapM (fun r => c ← dict_get (groupby_mean (map Some rg) charges) r;
                         Ok (mul (of_var (y r)) c)) (unique rg)
          = Ok (map (fun _ => empty_expr) (unique rg))) as Hobj.
  { apply mapM_map_ok. intros g Hg. apply list_elem_of_In in Hg.
    unfold dict_get. rewrite groupby_mean_lookup by (now rewrite dropna_map_Some).
    cbn [mbind result_bind]. unfold mul.
    assert (Qeq_bool (mean (group (map Some rg) charges g)) 0 = true) as ->
      by (apply Qeq_bool_iff, mean_zero, group_Forall, Hz).
    reflexivity. }
  assert (prob2 d2 = Ok (mkProblem "PortfolioRegiao" LpMinimize
                           (lpSum (map (fun _ => empty_expr) (unique rg)))
                           (constraints2 (unique rg)))) as P2.
  { unfold prob2. rewrite R2. cbn [mbind result_bind]. rewrite C2.
    cbn [mbind result_bind]. rewrite Hobj. reflexivity. }
  assert (exists o2, consulta2 solve d1 = mkOut o2 (Raise TypeError)) as [o2 E2].
  { unfold consulta2. rewrite D2, lift_ok_bind, P2, lift_ok_bind, R2, lift_ok_bind.
    match goal with |- context [report2 ?rs ?p ?r] =>
      destruct (report2_outcome rs p r) as [Hiff Hor];
      assert (value r (objective p) = None) as Hv;
      [|destruct (report2 rs p r) as [o2 res]]
    end.
    - apply constant_objective_no_value. cbn [objective].
      apply terms_lpSum_empty, List.Forall_forall. intros e He.
      apply in_map_iff in He. destruct He as (g & <- & _). reflexivity.
    - cbn [outcome] in Hiff, Hor. destruct Hor as [-> | ->].
      + destruct (proj1 Hiff eq_refl) as [_ [v Hv']]. congruence.
      + exists o2. reflexivity. }
  exists o2. unfold main.
  rewrite (out_bind_ok _ _ _ _ C1), (out_bind_raise _ _ _ _ E2). reflexivity.
Qed.

Lemma zero_charges_stop_consulta2_witness :
  exists o o2,
    consulta1 stub_solver zero_charges_table
    = mkOut o (Ok (from_ok zero_charges_table (derive1 zero_charges_table))) /\
    main stub_solver unit stub_seed stub_uniform stub_sqrt zero_charges_table tt
    = mkOut (o ++ o2) (Raise TypeError).
Proof.
  pose (r1 := consulta1 stub_solver zero_charges_table).
  assert (consulta1 stub_solver zero_charges_table
          = mkOut (printed r1) (Ok (from_ok zero_charges_table (derive1 zero_charges_table))))
    as E1 by (vm_compute; reflexivity).
  destruct (zero_charges_stop_consulta2 stub_solver unit stub_seed stub_uniform stub_sqrt
              zero_charges_table _ tt [22; 31] [0; 0] (printed r1)
              eq_refl eq_refl ltac:(repeat constructor) E1) as [o2 E].
  exists (printed r1), o2. split; [exact E1 | exact E].
Defined.
